(** * Page-to-slide reconstruction of [server_light.py]

    A shallow embedding of the reconstruction code of
    [generate_pptx_from_analysis] and of the progress bookkeeping of
    [process_pdf_with_gemini], with the properties of the specification
    stated and settled against it; then of the answer handling of
    [analyze_image_with_gemini], of the analysis results and of the job
    store behind the endpoints, with further properties of the code.

    Python values are modelled as the code meets them: the layout
    description is a JSON value as [json.load] returns it, numbers are
    Python ints ([Z]) and binary64 floats (the kernel's [float]), an
    exception is the [Raise] branch of [result]. The order of the
    progress values rests on the rounding of the binary64 division and
    multiplication, which is derived from their specification. *)

From Stdlib Require Import ZArith QArith Qabs Floats Lia.
From Stdlib Require Import Ascii String List Sorted.
From stdpp Require Import gmap strings list pretty.

Close Scope Q_scope.
#[local] Open Scope string_scope.
#[local] Open Scope list_scope.
#[local] Open Scope Z_scope.

#[local] Set Warnings "-inexact-float,-register-all".

(** ** Exceptions *)

Inductive exn :=
  | TypeError
  | ValueError
  | IndexError
  | KeyError
  | AttributeError
  | ZeroDivisionError
  | OverflowError
  | OSError.

Inductive result (A : Type) :=
  | Ok (a : A)
  | Raise (e : exn).
Arguments Ok {A} a.
Arguments Raise {A} e.

Definition bind {A B} (m : result A) (k : A -> result B) : result B :=
  match m with
  | Ok a => k a
  | Raise e => Raise e
  end.

Notation "x <- m ;; k" := (bind m (fun x => k))
  (at level 100, m at next level, right associativity).

Definition is_ok {A} (m : result A) : bool :=
  match m with Ok _ => true | Raise _ => false end.

(** A loop that threads an accumulator and stops at the first exception. *)
Fixpoint foldM {A B} (f : B -> A -> result B) (l : list A) (acc : B)
  : result B :=
  match l with
  | [] => Ok acc
  | x :: l' => acc' <- f acc x ;; foldM f l' acc'
  end.

(** A loop that collects one optional result per iteration ([continue]
    contributes nothing). *)
Fixpoint filter_mapM {A B} (f : A -> result (option B)) (l : list A)
  : result (list B) :=
  match l with
  | [] => Ok []
  | x :: l' =>
      r <- f x ;;
      rs <- filter_mapM f l' ;;
      Ok (match r with Some b => b :: rs | None => rs end)
  end.

(** ** Python numbers *)

Inductive pynum :=
  | PInt (n : Z)
  | PFloat (f : float).

(** The exact integer as an unrounded binary float (mantissa of any size). *)
Definition Z2SF (n : Z) : spec_float :=
  match n with
  | Z0 => S754_zero false
  | Zpos p => S754_finite false p 0
  | Zneg p => S754_finite true p 0
  end.

(** Magnitudes from [2^1024 - 2^970] on round to infinity in binary64. *)
Definition overflow_threshold : Z := Eval vm_compute in 2 ^ 1024 - 2 ^ 970.

(** [float(n)]: round to nearest even, [OverflowError] beyond the range. *)
Definition float_of_Z (n : Z) : result float :=
  if overflow_threshold <=? Z.abs n then Raise OverflowError
  else Ok (SF2Prim (binary_normalize prec emax n 0 false)).

(** [a / b] on two ints: the correctly rounded quotient. *)
Definition int_truediv (a b : Z) : result float :=
  if b =? 0 then Raise ZeroDivisionError
  else if overflow_threshold * Z.abs b <=? Z.abs a then Raise OverflowError
  else Ok (SF2Prim (SFdiv prec emax (Z2SF a) (Z2SF b))).

Definition to_float (a : pynum) : result float :=
  match a with
  | PInt n => float_of_Z n
  | PFloat f => Ok f
  end.

(** [a / b] *)
Definition py_truediv (a b : pynum) : result float :=
  match a, b with
  | PInt x, PInt y => int_truediv x y
  | _, _ =>
      fa <- to_float a ;;
      fb <- to_float b ;;
      if is_zero fb then Raise ZeroDivisionError else Ok (fa / fb)%float
  end.

(** [a * b] *)
Definition py_mul (a b : pynum) : result pynum :=
  match a, b with
  | PInt x, PInt y => Ok (PInt (x * y))
  | _, _ =>
      fa <- to_float a ;;
      fb <- to_float b ;;
      Ok (PFloat (fa * fb)%float)
  end.

(** The integer part of a finite binary float, towards zero. *)
Definition SF_trunc (s : bool) (m : positive) (e : Z) : Z :=
  let a := match e with
           | Z0 => Zpos m
           | Zpos k => Zpos m * 2 ^ Zpos k
           | Zneg k => Zpos m / 2 ^ Zpos k
           end in
  if s then - a else a.

(** [int(f)] on a float. *)
Definition float_to_int (f : float) : result Z :=
  match Prim2SF f with
  | S754_zero _ => Ok 0
  | S754_finite s m e => Ok (SF_trunc s m e)
  | S754_infinity _ => Raise OverflowError
  | S754_nan => Raise ValueError
  end.

(** [int(a)] on a number. *)
Definition py_int (a : pynum) : result Z :=
  match a with
  | PInt n => Ok n
  | PFloat f => float_to_int f
  end.

(** [a < c] for an int constant [c] that a float holds exactly. *)
Definition py_lt_const (a : pynum) (c : Z) : bool :=
  match a with
  | PInt n => n <? c
  | PFloat f => (f <? SF2Prim (binary_normalize prec emax c 0 false))%float
  end.

(** ** JSON values, as [json.load] hands them to the code *)

Inductive json :=
  | JNull
  | JBool (b : bool)
  | JInt (n : Z)
  | JFloat (f : float)
  | JStr (s : string)
  | JList (l : list json)
  | JObj (o : gmap string json).

Definition str_chars (s : string) : list json :=
  map (fun c => JStr (String c EmptyString)) (list_ascii_of_string s).

(** [if x:] *)
Definition py_truthy (j : json) : bool :=
  match j with
  | JNull => false
  | JBool b => b
  | JInt n => negb (n =? 0)
  | JFloat f => negb (is_zero f)
  | JStr s => negb (String.length s =? 0)%nat
  | JList l => negb (length l =? 0)%nat
  | JObj o => negb (size o =? 0)%nat
  end.

(** [d.get(k, dflt)]: only a dict has [get]. *)
Definition dict_get (j : json) (k : string) (dflt : json) : result json :=
  match j with
  | JObj o => Ok (default dflt (o !! k))
  | _ => Raise AttributeError
  end.

Definition is_str_eq (k : string) (j : json) : bool :=
  match j with
  | JStr s => String.eqb k s
  | _ => false
  end.

Definition is_substring (k s : string) : bool :=
  match String.index 0 k s with Some _ => true | None => false end.

(** [k in x] for a string [k]. *)
Definition py_contains (k : string) (j : json) : result bool :=
  match j with
  | JObj o => Ok (bool_decide (is_Some (o !! k)))
  | JList l => Ok (existsb (is_str_eq k) l)
  | JStr s => Ok (is_substring k s)
  | _ => Raise TypeError
  end.

(** [x[k]] for a string [k]. *)
Definition py_getitem_key (j : json) (k : string) : result json :=
  match j with
  | JObj o =>
      match o !! k with
      | Some v => Ok v
      | None => Raise KeyError
      end
  | _ => Raise TypeError
  end.

(** [for v in x]: the items the loop visits. *)
Definition py_iter (j : json) : result (list json) :=
  match j with
  | JList l => Ok l
  | JStr s => Ok (str_chars s)
  | JObj o => Ok (map (fun kv => JStr (fst kv)) (map_to_list o))
  | _ => Raise TypeError
  end.

(** [a, b, ... = x] with [n] targets. *)
Definition py_unpack (n : nat) (j : json) : result (list json) :=
  l <- py_iter j ;;
  if (length l =? n)%nat then Ok l else Raise ValueError.

(** [x[i]] for a literal index [i >= 0]. *)
Definition py_getitem_idx (j : json) (i : nat) : result json :=
  match j with
  | JList l =>
      match l !! i with
      | Some v => Ok v
      | None => Raise IndexError
      end
  | JStr s =>
      match str_chars s !! i with
      | Some v => Ok v
      | None => Raise IndexError
      end
  | JObj _ => Raise KeyError
  | _ => Raise TypeError
  end.

(** [len(x)] *)
Definition py_len (j : json) : result Z :=
  match j with
  | JStr s => Ok (Z.of_nat (String.length s))
  | JList l => Ok (Z.of_nat (length l))
  | JObj o => Ok (Z.of_nat (size o))
  | _ => Raise TypeError
  end.

(** A JSON value used as an operand of [/] or [*]. *)
Definition num_of_json (j : json) : result pynum :=
  match j with
  | JInt n => Ok (PInt n)
  | JBool b => Ok (PInt (if b then 1 else 0))
  | JFloat f => Ok (PFloat f)
  | _ => Raise TypeError
  end.

(** *** Slices *)

(** A slice bound: an int, or [None] for an open end. *)
Definition index_of_json (j : json) : result (option Z) :=
  match j with
  | JNull => Ok None
  | JInt n => Ok (Some n)
  | JBool b => Ok (Some (if b then 1 else 0))
  | _ => Raise TypeError
  end.

(** A bound brought into [0, n]: a negative one counts from the end. *)
Definition clamp_index (n i : Z) : Z :=
  if i <? 0 then Z.max (i + n) 0 else Z.min i n.

(** [l[start:stop]] *)
Definition seq_slice {A} (l : list A) (start stop : option Z) : list A :=
  let n := Z.of_nat (length l) in
  let lo := match start with Some i => clamp_index n i | None => 0 end in
  let hi := match stop with Some i => clamp_index n i | None => n end in
  take (Z.to_nat (hi - lo)) (drop (Z.to_nat lo) l).

Definition str_slice (s : string) (start stop : option Z) : string :=
  string_of_list_ascii (seq_slice (list_ascii_of_string s) start stop).

(** [x[start:stop]] on a JSON value. *)
Definition py_slice (j start stop : json) : result json :=
  match j with
  | JStr s =>
      i <- index_of_json start ;;
      k <- index_of_json stop ;;
      Ok (JStr (str_slice s i k))
  | JList l =>
      i <- index_of_json start ;;
      k <- index_of_json stop ;;
      Ok (JList (seq_slice l i k))
  | _ => Raise TypeError
  end.

(** [max(covered, x)] with an int [covered]. *)
Definition py_max (covered : Z) (j : json) : result Z :=
  match j with
  | JInt n => Ok (Z.max covered n)
  | JBool b => Ok (Z.max covered (if b then 1 else 0))
  | _ => Raise TypeError
  end.

(** *** [int(s)] on a string: optional blanks, sign, decimal digits *)

(** What [int] skips around the digits: the ASCII blanks 9..13 and 32,
    and the next-line and no-break space characters, which it reads as
    spaces. The separators 28..31 are no blanks for it. *)
Definition is_blank (c : ascii) : bool :=
  let n := nat_of_ascii c in
  ((9 <=? n) && (n <=? 13) || (n =? 32) || (n =? 133) || (n =? 160))%nat.

Definition digit_of (c : ascii) : option Z :=
  let n := nat_of_ascii c in
  if ((48 <=? n) && (n <=? 57))%nat then Some (Z.of_nat n - 48) else None.

(** Digits, single underscores allowed between two digits. *)
Fixpoint parse_digits (l : list ascii) (acc : Z) (after_digit : bool)
  : option Z :=
  match l with
  | [] => if after_digit then Some acc else None
  | c :: l' =>
      match digit_of c with
      | Some d => parse_digits l' (10 * acc + d) true
      | None =>
          if (nat_of_ascii c =? 95)%nat && after_digit
          then parse_digits l' acc false
          else None
      end
  end.

Fixpoint drop_blanks (l : list ascii) : list ascii :=
  match l with
  | c :: l' => if is_blank c then drop_blanks l' else l
  | [] => []
  end.

(** The interpreter refuses literals of more than 4300 digits. *)
Definition max_str_digits : nat := 4300.

Definition parse_int (s : string) : result Z :=
  let l := rev (drop_blanks (rev (drop_blanks (list_ascii_of_string s)))) in
  let '(neg, ds) :=
    match l with
    | c :: l' =>
        if (nat_of_ascii c =? 45)%nat then (true, l')
        else if (nat_of_ascii c =? 43)%nat then (false, l')
        else (false, l)
    | [] => (false, l)
    end in
  if (max_str_digits <? length (filter (fun c => is_Some (digit_of c)) ds))%nat
  then Raise ValueError
  else match parse_digits ds 0 false with
       | Some n => Ok (if neg then - n else n)
       | None => Raise ValueError
       end.

(** [int(x)] on a JSON value. *)
Definition py_int_of_json (j : json) : result Z :=
  match j with
  | JInt n => Ok n
  | JBool b => Ok (if b then 1 else 0)
  | JFloat f => float_to_int f
  | JStr s => parse_int s
  | _ => Raise TypeError
  end.

(** ** The page raster, as PIL and OpenCV expose it *)

(** What [getpixel] returns: a tuple of bands, or a bare value for a
    single-band image. *)
Inductive pixel :=
  | PxBands (bands : list Z)
  | PxValue (v : Z).

Record image := {
  img_width : Z;
  img_height : Z;
  img_pixel : Z -> Z -> pixel
}.

(** [image.getpixel((x, y))]: a negative coordinate counts from the far
    edge, a coordinate outside the image raises. *)
Definition getpixel (im : image) (x y : Z) : result pixel :=
  let x := if x <? 0 then img_width im + x else x in
  let y := if y <? 0 then img_height im + y else y in
  if (x <? 0) || (img_width im <=? x) || (y <? 0) || (img_height im <=? y)
  then Raise IndexError
  else Ok (img_pixel im x y).

(** [s[:3] if len(s) > 3 else s] *)
Definition strip_alpha (s : pixel) : result (list Z) :=
  match s with
  | PxBands l => Ok (if (3 <? length l)%nat then take 3 l else l)
  | PxValue _ => Raise TypeError
  end.

Definition occurrences {A} `{EqDecision A} (x : A) (l : list A) : nat :=
  length (filter (fun y => y = x) l).

(** The first element of [l], in the order of [l], whose score no other
    element exceeds. *)
Fixpoint first_max {A} (score : A -> nat) (l : list A) : option A :=
  match l with
  | [] => None
  | x :: l' =>
      match first_max score l' with
      | Some y => if (score x <? score y)%nat then Some y else Some x
      | None => Some x
      end
  end.

(** [Counter(l).most_common(1)[0][0]]: the most frequent element, the
    first encountered among equally frequent ones. *)
Definition most_common_1 {A} `{EqDecision A} (l : list A) : result A :=
  match first_max (fun x => occurrences x l) l with
  | Some x => Ok x
  | None => Raise IndexError
  end.

Definition get_background_color (im : image) : result (list Z) :=
  let w := img_width im in
  let h := img_height im in
  s1 <- getpixel im 10 10 ;;
  s2 <- getpixel im (w - 11) 10 ;;
  s3 <- getpixel im 10 (h - 11) ;;
  s4 <- getpixel im (w - 11) (h - 11) ;;
  c1 <- strip_alpha s1 ;;
  c2 <- strip_alpha s2 ;;
  c3 <- strip_alpha s3 ;;
  c4 <- strip_alpha s4 ;;
  most_common_1 [c1; c2; c3; c4].

(** A contour OpenCV found in the foreground mask: its area and its
    bounding rectangle. *)
Record contour := {
  c_area : float;
  c_x : Z;
  c_y : Z;
  c_w : Z;
  c_h : Z
}.

(** The decoded page as the extractor uses it: the contours of the mask,
    and whether python-pptx accepts the crop of a contour as a picture. *)
Record cv_page := {
  contours : list contour;
  add_picture_ok : contour -> bool
}.

(** ** What python-pptx stores *)

Definition rgb : Type := Z * Z * Z.

Definition black : rgb := (0, 0, 0).

(** A run of a paragraph: the text given to it and the font properties
    set on it, [None] for one that was never set (or, for the bold flag,
    set to [None]). The text is the string assigned; python-pptx writes
    a control character of it other than tab, line feed and carriage
    return to the file in the escaped form [_xHHHH_]. *)
Record run := {
  run_text : string;
  run_size : option Z;     (* hundredths of a point *)
  run_color : option rgb;
  run_font : option string;
  run_bold : option bool
}.

(** A run no font property was set on. *)
Definition plain (t : string) : run :=
  {| run_text := t; run_size := None; run_color := None;
     run_font := None; run_bold := None |}.

Record textbox := {
  box_left : Z;            (* EMU *)
  box_top : Z;
  box_width : Z;
  box_height : Z;
  box_runs : list run
}.

Record picture := {
  pic_src : contour;
  pic_left : Z;
  pic_top : Z;
  pic_width : Z;
  pic_height : Z
}.

Record slide := {
  background : rgb;
  pictures : list picture;
  textboxes : list textbox
}.

(** [Pt(points)]: [int(points * 12700)] EMU. *)
Definition Pt (points : pynum) : result Z :=
  v <- py_mul points (PInt 12700) ;;
  py_int v.

Definition byte_ok (v : Z) : bool := (0 <=? v) && (v <=? 255).

(** [RGBColor(r, g, b)] takes three ints in 0..255. *)
Definition RGBColor (r g b : Z) : result rgb :=
  if byte_ok r && byte_ok g && byte_ok b then Ok (r, g, b)
  else Raise ValueError.

(** [font.size = emu]: stored in hundredths of a point, from 1 pt to
    4000 pt. *)
Definition Font_size (emu : Z) : result Z :=
  let sz := emu / 127 in
  if (100 <=? sz) && (sz <=? 400000) then Ok sz else Raise ValueError.

(** [Pt(font_size)] on the block's value: a string repeated 12700 times
    is no integer literal the interpreter accepts. *)
Definition Pt_of_json (j : json) : result Z :=
  match j with
  | JStr _ => Raise ValueError
  | _ => n <- num_of_json j ;; Pt n
  end.

(** The characters lxml takes in an attribute value: tab, line feed,
    carriage return and everything from the space on. *)
Definition xml_char (c : ascii) : bool :=
  let n := nat_of_ascii c in
  ((n =? 9) || (n =? 10) || (n =? 13) || (32 <=? n))%nat.

(** A typeface name is a string that can be an attribute value. *)
Definition typeface_of_json (j : json) : result string :=
  match j with
  | JStr s =>
      if forallb xml_char (list_ascii_of_string s) then Ok s
      else Raise ValueError
  | _ => Raise TypeError
  end.

(** [font.bold = v]: [True], [False] (or what equals them) or [None]. *)
Definition bold_of_json (j : json) : result (option bool) :=
  match j with
  | JNull => Ok None
  | JBool b => Ok (Some b)
  | JInt 0 => Ok (Some false)
  | JInt 1 => Ok (Some true)
  | JFloat f =>
      if (f =? 0)%float then Ok (Some false)
      else if (f =? 1)%float then Ok (Some true)
      else Raise TypeError
  | _ => Raise TypeError
  end.

(** [RGBColor(int(rgb[0]), int(rgb[1]), int(rgb[2]))] *)
Definition color_of_json (c : json) : result rgb :=
  x0 <- py_getitem_idx c 0 ;;
  r <- py_int_of_json x0 ;;
  x1 <- py_getitem_idx c 1 ;;
  g <- py_int_of_json x1 ;;
  x2 <- py_getitem_idx c 2 ;;
  b <- py_int_of_json x2 ;;
  RGBColor r g b.

(** ** Text Run Composer *)

(** The style fields of a block, as [block.get] returned them. *)
Record style := {
  font_size : json;
  font_family : json;
  is_bold : json
}.

(** [p.add_run()] and its five assignments. [color] is the declared
    [rgb] of the range, or [None] for the literal [RGBColor(0, 0, 0)]. *)
Definition emit_run (txt : json) (st : style) (color : option json)
  : result run :=
  t <- match txt with
       | JStr s => Ok s
       | _ => Raise TypeError
       end ;;
  emu <- Pt_of_json (font_size st) ;;
  sz <- Font_size emu ;;
  c <- match color with
       | Some j => color_of_json j
       | None => RGBColor 0 0 0
       end ;;
  f <- typeface_of_json (font_family st) ;;
  b <- bold_of_json (is_bold st) ;;
  Ok {| run_text := t; run_size := Some sz; run_color := Some c;
        run_font := Some f; run_bold := b |}.

Definition default_range (text : json) : result json :=
  n <- py_len text ;;
  Ok (JList [JInt 0; JInt n]).

Definition default_rgb : json := JList [JInt 0; JInt 0; JInt 0].

(** One iteration of [for color_info in colors]; the state is the runs
    added so far and [covered]. *)
Definition color_step (text : json) (st : style) (acc : list run * Z)
  (color_info : json) : result (list run * Z) :=
  let '(runs, covered) := acc in
  match color_info with
  | JObj o =>
      dflt <- default_range text ;;
      se <- py_unpack 2 (default dflt (o !! "range")) ;;
      match se with
      | [start; stop] =>
          let rgb_src := default default_rgb (o !! "rgb") in
          run_text <- py_slice text start stop ;;
          runs' <- (if py_truthy run_text
                    then r <- emit_run run_text st (Some rgb_src) ;;
                         Ok (runs ++ [r])
                    else Ok runs) ;;
          covered' <- py_max covered stop ;;
          Ok (runs', covered')
      | _ => Raise ValueError
      end
  | _ => Raise AttributeError
  end.

(** [p.text = text] breaks the line at a line feed and at a vertical
    tab. *)
Definition is_line_break (c : ascii) : bool :=
  let n := nat_of_ascii c in ((n =? 10) || (n =? 11))%nat.

(** [re.split("\n|\v", s)]: the piece before the first line break and
    the pieces after each. *)
Fixpoint split_lines (l : list ascii) : list ascii * list (list ascii) :=
  match l with
  | [] => ([], [])
  | c :: l' =>
      let '(piece, pieces) := split_lines l' in
      if is_line_break c then ([], piece :: pieces)
      else (c :: piece, pieces)
  end.

(** The texts of the runs [p.text = s] leaves in the paragraph: one run
    for each piece that is not empty, with line breaks in between. *)
Definition paragraph_runs (s : string) : list string :=
  let '(piece, pieces) := split_lines (list_ascii_of_string s) in
  List.filter (fun t => negb (String.eqb t ""))
    (map string_of_list_ascii (piece :: pieces)).

(** The [if colors: ... else: ...] of a text block: the runs of the
    paragraph afterwards. In the [else] branch only [p.runs[0]] is
    styled, and only if there is one. *)
Definition compose_runs (text : json) (st : style) (colors : json)
  : result (list run) :=
  if py_truthy colors then
    items <- py_iter colors ;;
    acc <- foldM (color_step text st) items ([], 0) ;;
    n <- py_len text ;;
    if snd acc <? n then
      remaining <- py_slice text (JInt (snd acc)) JNull ;;
      r <- emit_run remaining st None ;;
      Ok (fst acc ++ [r])
    else Ok (fst acc)
  else
    match text with
    | JStr s =>
        match paragraph_runs s with
        | [] => Ok []
        | t :: rest =>
            r <- emit_run (JStr t) st None ;;
            Ok (r :: map plain rest)
        end
    | _ => Raise TypeError
    end.

(** The text the runs of a paragraph spell. *)
Definition runs_text (rs : list run) : string :=
  fold_right (fun r acc => (run_text r ++ acc)%string) "" rs.

(** ** Coordinate Mapper *)

(** [int(nx / 1000 * dim)] *)
Definition to_pixel (nx : json) (dim : Z) : result Z :=
  n <- num_of_json nx ;;
  q <- py_truediv n (PInt 1000) ;;
  v <- py_mul (PFloat q) (PInt dim) ;;
  py_int v.

(** [nx / 1000 * page_dim] *)
Definition to_points (nx : json) (page_dim : float) : result pynum :=
  n <- num_of_json nx ;;
  q <- py_truediv n (PInt 1000) ;;
  py_mul (PFloat q) (PFloat page_dim).

(** [px / img_dim * page_dim] *)
Definition pixel_to_points (px img_dim : Z) (page_dim : float)
  : result pynum :=
  q <- int_truediv px img_dim ;;
  py_mul (PFloat q) (PFloat page_dim).

(** ** Graphic Region Extractor *)

(** A text region [(x1, y1, x2, y2)] in pixels. *)
Definition region : Type := Z * Z * Z * Z.

Definition text_region (iw ih : Z) (block : json) : result (option region) :=
  has <- py_contains "bbox_1000" block ;;
  if has then
    bbox <- py_getitem_key block "bbox_1000" ;;
    l <- py_unpack 4 bbox ;;
    match l with
    | [nx; ny; nw; nh] =>
        px <- to_pixel nx iw ;;
        py <- to_pixel ny ih ;;
        pw <- to_pixel nw iw ;;
        ph <- to_pixel nh ih ;;
        Ok (Some (px, py, px + pw, py + ph))
    | _ => Raise ValueError
    end
  else Ok None.

Definition text_regions (iw ih : Z) (blocks : list json)
  : result (list region) :=
  filter_mapM (text_region iw ih) blocks.

(** The threshold [0.3] of the overlap test. *)
Definition overlap_threshold : float := 0.3%float.

(** One iteration of [for tx1, ty1, tx2, ty2 in text_regions]: does the
    contour count as text because of this region? *)
Definition overlaps_text (c : contour) (t : region) : result bool :=
  let '(tx1, ty1, tx2, ty2) := t in
  let ox1 := Z.max (c_x c) tx1 in
  let oy1 := Z.max (c_y c) ty1 in
  let ox2 := Z.min (c_x c + c_w c) tx2 in
  let oy2 := Z.min (c_y c + c_h c) ty2 in
  if (ox1 <? ox2) && (oy1 <? oy2) then
    f <- int_truediv ((ox2 - ox1) * (oy2 - oy1)) (c_w c * c_h c) ;;
    Ok (overlap_threshold <? f)%float
  else Ok false.

(** The loop with its [break]. *)
Fixpoint is_text_area (c : contour) (ts : list region) : result bool :=
  match ts with
  | [] => Ok false
  | t :: ts' =>
      b <- overlaps_text c t ;;
      if b then Ok true else is_text_area c ts'
  end.

(** [slide.shapes.add_picture(...)] under its [try: ... except: pass]. *)
Definition add_picture (cv : cv_page) (c : contour)
  (left_pt top_pt width_pt height_pt : pynum) : option picture :=
  match Pt left_pt, Pt top_pt, Pt width_pt, Pt height_pt with
  | Ok l, Ok t, Ok w, Ok h =>
      if add_picture_ok cv c
      then Some {| pic_src := c; pic_left := l; pic_top := t;
                   pic_width := w; pic_height := h |}
      else None
  | _, _, _, _ => None
  end.

(** One iteration of [for contour in contours]. *)
Definition place_contour (pw ph : float) (iw ih : Z) (cv : cv_page)
  (ts : list region) (c : contour) : result (option picture) :=
  if (c_area c <? 1000)%float then Ok None
  else
    is_text <- is_text_area c ts ;;
    if is_text then Ok None
    else
      left_pt <- pixel_to_points (c_x c) iw pw ;;
      top_pt <- pixel_to_points (c_y c) ih ph ;;
      width_pt <- pixel_to_points (c_w c) iw pw ;;
      height_pt <- pixel_to_points (c_h c) ih ph ;;
      Ok (add_picture cv c left_pt top_pt width_pt height_pt).

(** The [if cv_img is not None:] block of a page. *)
Definition extract_graphics (pw ph : float) (iw ih : Z)
  (cv : option cv_page) (blocks : list json) : result (list picture) :=
  match cv with
  | Some page =>
      ts <- text_regions iw ih blocks ;;
      filter_mapM (place_contour pw ph iw ih page ts) (contours page)
  | None => Ok []
  end.

(** ** Slide Assembler *)

(** The geometry of a text box in points, after the two floors. *)
Definition box_points (pw ph : float) (nx ny nw nh : json)
  : result (pynum * pynum * pynum * pynum) :=
  left_pt <- to_points nx pw ;;
  top_pt <- to_points ny ph ;;
  width_pt <- to_points nw pw ;;
  height_pt <- to_points nh ph ;;
  let width_pt := if py_lt_const width_pt 10 then PInt 50 else width_pt in
  let height_pt := if py_lt_const height_pt 10 then PInt 30 else height_pt in
  Ok (left_pt, top_pt, width_pt, height_pt).

(** One iteration of [for block in blocks] of the text pass. *)
Definition text_block (pw ph : float) (block : json)
  : result (option textbox) :=
  text <- dict_get block "text" (JStr "") ;;
  if negb (py_truthy text) then Ok None
  else
    has <- py_contains "bbox_1000" block ;;
    if negb has then Ok None
    else
      bbox <- py_getitem_key block "bbox_1000" ;;
      l <- py_unpack 4 bbox ;;
      match l with
      | [nx; ny; nw; nh] =>
          g <- box_points pw ph nx ny nw nh ;;
          let '(left_pt, top_pt, width_pt, height_pt) := g in
          bl <- Pt left_pt ;;
          bt <- Pt top_pt ;;
          bw <- Pt width_pt ;;
          bh <- Pt height_pt ;;
          fs <- dict_get block "font_size_pt" (JInt 12) ;;
          ff <- dict_get block "font_family" (JStr "Roboto") ;;
          ib <- dict_get block "is_bold" (JBool false) ;;
          colors <- dict_get block "colors" (JList []) ;;
          rs <- compose_runs text
                  {| font_size := fs; font_family := ff; is_bold := ib |}
                  colors ;;
          Ok (Some {| box_left := bl; box_top := bt; box_width := bw;
                      box_height := bh; box_runs := rs |})
      | _ => Raise ValueError
      end.

Definition text_boxes (pw ph : float) (blocks : list json)
  : result (list textbox) :=
  filter_mapM (text_block pw ph) blocks.

(** [RGBColor(bg_color[0], bg_color[1], bg_color[2])] *)
Definition background_fill (bg : list Z) : result rgb :=
  match bg with
  | r :: g :: b :: _ => RGBColor r g b
  | _ => Raise IndexError
  end.

(** The body of [for page_num in range(1, total_pages + 1)]: the page
    image as PIL opened it, what [cv2.imdecode] made of the same file
    ([None] when it could not decode it), and the page's entry of the
    analysis. *)
Definition process_page (pw ph : float) (im : image) (cv : option cv_page)
  (page_data : json) : result slide :=
  bg <- get_background_color im ;;
  fill <- background_fill bg ;;
  blocks <- dict_get page_data "blocks" (JList []) ;;
  pics <- (match cv with
           | Some _ =>
               items <- py_iter blocks ;;
               extract_graphics pw ph (img_width im) (img_height im) cv items
           | None => Ok []
           end) ;;
  items <- py_iter blocks ;;
  boxes <- text_boxes pw ph items ;;
  Ok {| background := fill; pictures := pics; textboxes := boxes |}.

(** ** Progress of a processing job ([process_pdf_with_gemini]) *)

(** The job's entry in [jobs], reduced to its progress: the current
    value and every value written to it, oldest first. *)
Record job := {
  progress : Z;
  written : list Z
}.

(** The job as [upload_pdf] leaves it. *)
Definition uploaded : job := {| progress := 0; written := [] |}.

(** A piece of the background task: it changes the job and returns or
    raises. *)
Definition task (A : Type) : Type := job -> job * result A.

Definition tret {A} (a : A) : task A := fun j => (j, Ok a).

Definition tbind {A B} (m : task A) (k : A -> task B) : task B :=
  fun j =>
    match m j with
    | (j', Ok a) => k a j'
    | (j', Raise e) => (j', Raise e)
    end.

Notation "x <~ m ;; k" := (tbind m (fun x => k))
  (at level 100, m at next level, right associativity).

Definition lift {A} (r : result A) : task A := fun j => (j, r).

(** [job["progress"] = v] *)
Definition set_progress (v : Z) : task unit :=
  fun j => ({| progress := v; written := written j ++ [v] |}, Ok tt).

(** [job["progress"]] *)
Definition get_progress : task Z := fun j => (j, Ok (progress j)).

(** A call into PyMuPDF, the file system or the converter that raises
    when [fails] says so. *)
Definition external (fails : bool) : task unit :=
  lift (if fails then Raise ValueError else Ok tt).

Fixpoint for_each {A} (l : list A) (body : A -> task unit) : task unit :=
  match l with
  | [] => tret tt
  | x :: l' => _ <~ body x ;; for_each l' body
  end.

(** [int(k / total * scale)] *)
Definition percent (k total scale : Z) : result Z :=
  q <- int_truediv k total ;;
  v <- py_mul (PFloat q) (PInt scale) ;;
  py_int v.

(** The places where the task hands control back to the event loop, so
    that other requests are served and other tasks run: the
    [asyncio.sleep(0.5)] that ends the analysis of a page and the
    [asyncio.sleep(2)] of a turn of the wait loop. (The call of
    [analyze_image_with_gemini] is awaited as well, but that coroutine
    never suspends.) *)
Inductive pause :=
  | AfterPage (page_num : Z)
  | Poll (turn : nat).

(** What the world does to one run of the task. *)
Record job_env := {
  total_pages : nat;            (* [len(doc)] *)
  open_fails : bool;            (* [fitz.open] raises *)
  render_fails : nat -> bool;   (* rendering or saving page [n] raises *)
  dump_fails : bool;            (* writing [image_analysis.json] raises *)
  popen_fails : bool;           (* the converter cannot be started *)
  polls : nat;                  (* turns of the wait loop *)
  returncode : Z;               (* exit code of the converter *)
  cleanup_during : pause -> bool;
    (* [cleanup_job] is served for this job during the pause and
       deletes it from [jobs] *)
  written_meanwhile : pause -> list Z
    (* what another task started for the same job writes to its
       progress during the pause *)
}.

(** [range(a, a + n)] *)
Definition py_range (a : Z) (n : nat) : list Z :=
  map (fun i => a + Z.of_nat i) (seq 0 n).

(** The task between two steps: the dict it holds as [job] since line
    250, and whether [jobs] still has the job. *)
Record activation := {
  held : job;
  recorded : bool
}.

(** A piece of the task that may pause. *)
Definition coroutine (A : Type) : Type :=
  activation -> activation * result A.

Definition cbind {A B} (m : coroutine A) (k : A -> coroutine B)
  : coroutine B :=
  fun s =>
    match m s with
    | (s', Ok a) => k a s'
    | (s', Raise e) => (s', Raise e)
    end.

Notation "x <<~ m ;; k" := (cbind m (fun x => k))
  (at level 100, m at next level, right associativity).

(** A piece that only uses the dict. *)
Definition on_job {A} (m : task A) : coroutine A :=
  fun s =>
    let '(j, r) := m (held s) in
    ({| held := j; recorded := recorded s |}, r).

(** [await asyncio.sleep(...)]: meanwhile another task of the job may
    write to the same dict, and [cleanup_job] may delete the job from
    [jobs]. *)
Definition sleep (env : job_env) (p : pause) : coroutine unit :=
  fun s =>
    ({| held := fold_left (fun j v => fst (set_progress v j))
                  (written_meanwhile env p) (held s);
        recorded := recorded s && negb (cleanup_during env p) |},
     Ok tt).

Fixpoint each {A} (l : list A) (body : A -> coroutine unit)
  : coroutine unit :=
  match l with
  | [] => fun s => (s, Ok tt)
  | x :: l' => _ <<~ body x ;; each l' body
  end.

(** The [try:] block, from the job that line 250 has fetched. *)
Definition try_body (env : job_env) : coroutine unit :=
  let total := Z.of_nat (total_pages env) in
  _ <<~ on_job (external (open_fails env)) ;;
  (* [doc[0]] of an empty document *)
  _ <<~ on_job (lift (if total =? 0 then Raise IndexError else Ok tt)) ;;
  _ <<~ on_job (for_each (py_range 0 (total_pages env)) (fun page_num =>
         _ <~ external (render_fails env (Z.to_nat page_num)) ;;
         p <~ lift (percent (page_num + 1) total 20) ;;
         set_progress p)) ;;
  _ <<~ each (py_range 1 (total_pages env)) (fun page_num =>
         (* an exception of the analysis itself is caught in the loop *)
         _ <<~ on_job (p <~ lift (percent page_num total 40) ;;
                       set_progress (20 + p)) ;;
         sleep env (AfterPage page_num)) ;;
  _ <<~ on_job (external (dump_fails env)) ;;
  _ <<~ on_job (set_progress 65) ;;
  _ <<~ on_job (external (popen_fails env)) ;;
  _ <<~ each (seq 0 (polls env)) (fun turn =>
         _ <<~ on_job (p <~ get_progress ;;
                       set_progress (Z.min 95 (p + 1))) ;;
         sleep env (Poll turn)) ;;
  _ <<~ on_job (external (negb (returncode env =? 0))) ;;
  on_job (set_progress 100).

(** The run of the [try:] block on the job [j] that line 250 fetched.
    (For a job deleted before the task starts, line 250 raises
    [KeyError] and so does the handler: the task writes to no dict.) *)
Definition run_try (env : job_env) (j : job) : activation * result unit :=
  try_body env {| held := j; recorded := true |}.

(** The task with its [except Exception:] handler, which looks the job
    up in [jobs] again: when [cleanup_job] has deleted it the handler
    raises [KeyError] at its first line and resets nothing. The result
    is the dict as the task leaves it. *)
Definition process_pdf_with_gemini (env : job_env) (j : job) : job :=
  match run_try env j with
  | (s, Ok _) => held s
  | (s, Raise _) =>
      if recorded s then fst (set_progress 0 (held s)) else held s
  end.

(** The run raised nothing. *)
Definition completes (env : job_env) (j : job) : bool :=
  is_ok (snd (run_try env j)).

(** [jobs] still has the job when the [try:] block is left. *)
Definition job_kept (env : job_env) (j : job) : bool :=
  recorded (fst (run_try env j)).

(** No other task writes to the job's progress during the run. *)
Definition single_writer (env : job_env) : Prop :=
  forall p, written_meanwhile env p = [].

(** ** Well-formed inputs, as the properties below assume them *)

(** What python-pptx keeps of a block's style when it accepts it: size
    in hundredths of a point, typeface, bold. *)
Definition style_of (st : style) : result (Z * string * option bool) :=
  emu <- Pt_of_json (font_size st) ;;
  sz <- Font_size emu ;;
  f <- typeface_of_json (font_family st) ;;
  b <- bold_of_json (is_bold st) ;;
  Ok (sz, f, b).

Definition styled (t : string) (sty : Z * string * option bool) (c : rgb)
  : run :=
  {| run_text := t; run_size := Some (fst (fst sty)); run_color := Some c;
     run_font := Some (snd (fst sty)); run_bold := snd sty |}.

(** A colour range of a text of [n] characters that is a dict whose
    [range], when it has one, is a pair of ints and whose [rgb], when it
    has one, is a colour python-pptx accepts; [(a, b)] are the bounds the
    loop uses, [(0, n)] when there is no [range]. *)
Definition color_info_ok (n : Z) (ci : json) (ab : Z * Z) : Prop :=
  exists o, ci = JObj o
    /\ default (JList [JInt 0; JInt n]) (o !! "range")
       = JList [JInt (fst ab); JInt (snd ab)]
    /\ is_ok (color_of_json (default default_rgb (o !! "rgb"))) = true.

(** Ranges that follow one another from [c] on: each starts where the
    previous one ended and does not run backwards. *)
Fixpoint tiling (c : Z) (rs : list (Z * Z)) : Prop :=
  match rs with
  | [] => True
  | (a, b) :: rs' => a = c /\ c <= b /\ tiling b rs'
  end.

(** [covered] after the loop over ranges [rs]. *)
Definition covered_after (rs : list (Z * Z)) : Z :=
  fold_left (fun c r => Z.max c (snd r)) rs 0.

(** *** Sample inputs *)

(** A block style as the vision prompt describes it. *)
Definition sample_style : style :=
  {| font_size := JInt 12; font_family := JStr "Roboto";
     is_bold := JBool false |}.

(** [{"range": [a, b], "rgb": [255, 0, 0]}] *)
Definition red_range (a b : Z) : json :=
  JObj (<["range" := JList [JInt a; JInt b]]>
        (<["rgb" := JList [JInt 255; JInt 0; JInt 0]]> ∅)).

(** The first [c] characters of [s]. *)
Definition str_prefix (s : string) (c : Z) : string :=
  string_of_list_ascii (take (Z.to_nat c) (list_ascii_of_string s)).

(** *** Background Estimator *)

(** Every pixel of the image is a tuple of bands (RGB, RGBA, ...). *)
Definition multiband (im : image) : Prop :=
  forall x y, exists l, img_pixel im x y = PxBands l.

Definition bands_of (p : pixel) : list Z :=
  match p with
  | PxBands l => l
  | PxValue v => [v]
  end.

(** The four corner samples without their alpha band, in the order the
    code takes them. *)
Definition corner_samples (im : image) : list (list Z) :=
  let w := img_width im in
  let h := img_height im in
  map (fun xy : Z * Z =>
         let l := bands_of (img_pixel im (fst xy) (snd xy)) in
         if (3 <? length l)%nat then take 3 l else l)
      [(10, 10); (w - 11, 10); (10, h - 11); (w - 11, h - 11)].

(** A page image of one colour. *)
Definition plain_image (w h : Z) (colour : list Z) : image :=
  {| img_width := w; img_height := h; img_pixel := fun _ _ => PxBands colour |}.

(** The smallest page image the estimator accepts, white with alpha. *)
Definition tiny_page_image : image := plain_image 11 11 [255; 255; 255; 0].

(** *** Coordinate Mapper *)

(** [nx / 1000 * dim], the float that [to_pixel] hands to [int]. *)
Definition scaled (nx : json) (dim : Z) : result pynum :=
  n <- num_of_json nx ;;
  q <- py_truediv n (PInt 1000) ;;
  py_mul (PFloat q) (PInt dim).

(** The rational a binary float stands for (0 for what is not finite). *)
Definition SF2Q (f : spec_float) : Q :=
  match f with
  | S754_finite s m e =>
      let '(n, d) := match e with
                     | Z0 => (Zpos m, 1%positive)
                     | Zpos k => (Zpos m * 2 ^ Zpos k, 1%positive)
                     | Zneg k => (Zpos m, (2 ^ k)%positive)
                     end in
      Qmake (if s then - n else n) d
  | _ => 0%Q
  end.

Definition float_value (f : float) : Q := SF2Q (Prim2SF f).

(** Neither [nan] nor an infinity. *)
Definition float_finite (f : float) : bool :=
  match Prim2SF f with
  | S754_zero _ | S754_finite _ _ _ => true
  | _ => false
  end.

(** The nearest integer of a finite binary float, ties to the even one. *)
Definition SF_round (s : bool) (m : positive) (e : Z) : Z :=
  let a := match e with
           | Z0 => Zpos m
           | Zpos k => Zpos m * 2 ^ Zpos k
           | Zneg k =>
               let d := 2 ^ Zpos k in
               let q := Zpos m / d in
               let r := Zpos m mod d in
               if 2 * r <? d then q
               else if d <? 2 * r then q + 1
               else if Z.even q then q else q + 1
           end in
  if s then - a else a.

(** [round(f)] on a float. *)
Definition float_round (f : float) : result Z :=
  match Prim2SF f with
  | S754_zero _ => Ok 0
  | S754_finite s m e => Ok (SF_round s m e)
  | S754_infinity _ => Raise OverflowError
  | S754_nan => Raise ValueError
  end.

(** The conversion in the words of the specification:
    [px = round(nx / 1000 * image_width)]. *)
Definition to_pixel_rounded (nx : json) (dim : Z) : result Z :=
  v <- scaled nx dim ;;
  match v with
  | PInt n => Ok n
  | PFloat f => float_round f
  end.

(** *** Sample blocks *)

(** A block 2/1000 of the page wide and 800/1000 high. *)
Definition narrow_block : json :=
  JObj (<["text" := JStr "Hello"]>
        (<["bbox_1000" := JList [JInt 0; JInt 0; JInt 2; JInt 800]]> ∅)).

(** A block whose [bbox_1000] has three numbers. *)
Definition short_bbox_block : json :=
  JObj (<["text" := JStr "Hello"]>
        (<["bbox_1000" := JList [JInt 0; JInt 0; JInt 500]]> ∅)).

(** *** Graphic Region Extractor *)

(** The area a contour's box shares with a text region: that of the
    rectangle they have in common, 0 when they do not meet. *)
Definition overlap_area (c : contour) (t : region) : Z :=
  let '(tx1, ty1, tx2, ty2) := t in
  Z.max 0 (Z.min (c_x c + c_w c) tx2 - Z.max (c_x c) tx1)
  * Z.max 0 (Z.min (c_y c + c_h c) ty2 - Z.max (c_y c) ty1).

(** The overlap fraction, shared area over the area of the contour's
    own box, is above the threshold. A box of area 0 has no fraction and
    is above nothing. *)
Definition overlap_exceeds (c : contour) (t : region) : bool :=
  match int_truediv (overlap_area c t) (c_w c * c_h c) with
  | Ok f => (overlap_threshold <? f)%float
  | Raise _ => false
  end.

(** The text reconstruction of a page: its [blocks] and the text pass
    over them. *)
Definition text_pass (pw ph : float) (page_data : json)
  : result (list textbox) :=
  blocks <- dict_get page_data "blocks" (JList []) ;;
  items <- py_iter blocks ;;
  text_boxes pw ph items.

(** The background colour of the slide of a page image. *)
Definition slide_background (im : image) : result rgb :=
  bg <- get_background_color im ;;
  background_fill bg.

(** A page with one block and, in its raster, one large contour far
    from it. *)
Definition sample_page : json :=
  JObj (<["blocks" := JList [narrow_block]]> ∅).

Definition sample_contour : contour :=
  {| c_area := 1600; c_x := 50; c_y := 50; c_w := 40; c_h := 40 |}.

Definition sample_cv_page : cv_page :=
  {| contours := [sample_contour]; add_picture_ok := fun _ => true |}.

(** *** Progress *)

Fixpoint mapR {A B} (f : A -> result B) (l : list A) : result (list B) :=
  match l with
  | [] => Ok []
  | x :: l' =>
      y <- f x ;;
      ys <- mapR f l' ;;
      Ok (y :: ys)
  end.

Fixpoint nondecreasingb (l : list Z) : bool :=
  match l with
  | x :: l' =>
      match l' with
      | y :: _ => (x <=? y) && nondecreasingb l'
      | [] => true
      end
  | [] => true
  end.

Definition within (lo hi : Z) (l : list Z) : bool :=
  forallb (fun v => (lo <=? v) && (v <=? hi)) l.

(** The per-page percentages of a document of [total] pages come out of
    the binary64 arithmetic without an exception, in order, and within
    their share of the scale. *)
Definition percents_in_order (total : nat) : bool :=
  let t := Z.of_nat total in
  match mapR (fun page_num => percent (page_num + 1) t 20) (py_range 0 total),
        mapR (fun page_num => percent page_num t 40) (py_range 1 total) with
  | Ok a, Ok b =>
      nondecreasingb a && within 0 20 a && nondecreasingb b && within 0 40 b
  | _, _ => false
  end.

(** A run of one page whose converter exits with code 1 after one turn
    of the wait loop. *)
Definition failing_converter_env : job_env :=
  {| total_pages := 1; open_fails := false; render_fails := fun _ => false;
     dump_fails := false; popen_fails := false; polls := 1;
     returncode := 1;
     cleanup_during := fun _ => false;
     written_meanwhile := fun _ => [] |}.

(** A run of three pages that meets no failure. *)
Definition smooth_env : job_env :=
  {| total_pages := 3; open_fails := false; render_fails := fun _ => false;
     dump_fails := false; popen_fails := false; polls := 40;
     returncode := 0;
     cleanup_during := fun _ => false;
     written_meanwhile := fun _ => [] |}.

(** The guarantee a piece of the task gives from a job that satisfies
    [P]: a result and a job that satisfy [Q] when it returns, and an
    ordered list of written values when it raises. *)
Definition triple {A} (P : job -> Prop) (m : task A)
  (Q : A -> job -> Prop) : Prop :=
  forall j, P j ->
    match m j with
    | (j', Ok a) => Q a j'
    | (j', Raise _) => Sorted Z.le (written j')
    end.

(** The written values are in order and none is above [b]. *)
Definition ordered_below (b : Z) (j : job) : Prop :=
  Sorted Z.le (written j) /\ Forall (fun v => v <= b) (written j).

(** *** Well-formed pages *)

(** A page image the Background Estimator and the slide background
    accept: at least 11 x 11 pixels, each a tuple of at least three
    bands in 0..255. *)
Definition image_ok (im : image) : Prop :=
  11 <= img_width im /\ 11 <= img_height im
  /\ forall x y, exists r g b rest,
       img_pixel im x y = PxBands (r :: g :: b :: rest)
       /\ byte_ok r && byte_ok g && byte_ok b = true.

(** The four numbers of a [bbox_1000] scale to finite values on this
    page: to the pixels of a text region and to the EMU of a text box. *)
Definition bbox_scales (pw ph : float) (iw ih : Z) (nx ny nw nh : json)
  : bool :=
  is_ok (to_pixel nx iw) && is_ok (to_pixel ny ih)
  && is_ok (to_pixel nw iw) && is_ok (to_pixel nh ih)
  && is_ok (g <- box_points pw ph nx ny nw nh ;;
            let '(left_pt, top_pt, width_pt, height_pt) := g in
            _ <- Pt left_pt ;;
            _ <- Pt top_pt ;;
            _ <- Pt width_pt ;;
            Pt height_pt).

(** A colour range that is a dict; its [range], if any, is a pair of
    ints (of any value), its [rgb], if any, a colour python-pptx
    accepts. *)
Definition color_shape_ok (ci : json) : Prop :=
  exists o, ci = JObj o
    /\ (o !! "range" = None
        \/ exists a b, o !! "range" = Some (JList [JInt a; JInt b]))
    /\ is_ok (color_of_json (default default_rgb (o !! "rgb"))) = true.

(** The style of a block, each missing field replaced by its default. *)
Definition block_style (o : gmap string json) : style :=
  {| font_size := default (JInt 12) (o !! "font_size_pt");
     font_family := default (JStr "Roboto") (o !! "font_family");
     is_bold := default (JBool false) (o !! "is_bold") |}.

(** A block in which any field may be missing and every field present
    has the shape the layout description gives it. *)
Definition block_ok (pw ph : float) (iw ih : Z) (block : json) : Prop :=
  exists o, block = JObj o
    /\ (o !! "text" = None \/ exists s, o !! "text" = Some (JStr s))
    /\ (o !! "bbox_1000" = None
        \/ exists nx ny nw nh,
             o !! "bbox_1000" = Some (JList [nx; ny; nw; nh])
             /\ bbox_scales pw ph iw ih nx ny nw nh = true)
    /\ is_ok (style_of (block_style o)) = true
    /\ (o !! "colors" = None
        \/ exists cs, o !! "colors" = Some (JList cs)
                      /\ Forall color_shape_ok cs).

(** A contour whose bounding rectangle lies in the image. *)
Definition contour_ok (iw ih : Z) (c : contour) : Prop :=
  0 <= c_x c /\ 0 <= c_y c /\ 0 < c_w c /\ 0 < c_h c
  /\ c_x c + c_w c <= iw /\ c_y c + c_h c <= ih.

(** A page with a block that has every field, one that has only a text,
    and one with a text, a box and a colour range without fields. *)
Definition full_block : json :=
  JObj (<["text" := JStr "Title"]>
        (<["bbox_1000" := JList [JInt 50; JInt 50; JInt 900; JInt 100]]>
        (<["font_family" := JStr "Roboto"]>
        (<["is_bold" := JBool true]>
        (<["font_size_pt" := JInt 24]>
        (<["colors" := JList [red_range 0 50]]> ∅)))))).

Definition bare_block : json := JObj (<["text" := JStr "lost"]> ∅).

Definition sparse_block : json :=
  JObj (<["text" := JStr "Hi"]>
        (<["bbox_1000" := JList [JInt 0; JInt 0; JInt 500; JInt 100]]>
        (<["colors" := JList [JObj ∅]]> ∅))).

Definition sparse_page : gmap string json :=
  <["blocks" := JList [full_block; bare_block; sparse_block]]> ∅.

(** A page whose only block has a [bbox_1000] of three numbers. *)
Definition short_bbox_page : json :=
  JObj (<["blocks" := JList [short_bbox_block]]> ∅).

(** The block of the first end-to-end scenario of the specification. *)
Definition hello_block : json :=
  JObj (<["text" := JStr "Hello"]>
        (<["bbox_1000" := JList [JInt 0; JInt 0; JInt 500; JInt 100]]>
        (<["font_family" := JStr "Roboto"]>
        (<["colors" := JList []]> ∅)))).

(** *** Runs of a block *)

(** The run carries the style of the block: the size and the bold flag
    python-pptx keeps of it, and as typeface the very string the block
    has as [font_family]. *)
Definition has_block_style (st : style) (r : run) : Prop :=
  exists sz f b,
    style_of st = Ok (sz, f, b)
    /\ font_family st = JStr f
    /\ run_size r = Some sz /\ run_font r = Some f /\ run_bold r = b.

(** The text without its line feeds and vertical tabs. *)
Definition without_line_breaks (s : string) : string :=
  string_of_list_ascii
    (List.filter (fun c => negb (is_line_break c)) (list_ascii_of_string s)).

(** A style that differs from the defaults in every field. *)
Definition heading_style : style :=
  {| font_size := JInt 24; font_family := JStr "Noto Sans JP";
     is_bold := JBool true |}.

(** Two lines of text. *)
Definition two_lines : string := "A" ++ String "010" "B".

(** The runs of the text "AB" whose first character is declared red. *)
Definition sample_runs : list run :=
  [styled "A" (1200, "Roboto", Some false) (255, 0, 0);
   styled "B" (1200, "Roboto", Some false) black].

(** *** Blocks, contours and corners *)

(** The block passes both [continue]s of the text pass: its text is not
    empty and it has a [bbox_1000]. *)
Definition has_text_and_box (block : json) : bool :=
  match block with
  | JObj o =>
      py_truthy (default (JStr "") (o !! "text"))
      && bool_decide (is_Some (o !! "bbox_1000"))
  | _ => false
  end.

(** The contour's box and the text region have a rectangle of positive
    area in common. *)
Definition meets (c : contour) (t : region) : bool :=
  let '(tx1, ty1, tx2, ty2) := t in
  (Z.max (c_x c) tx1 <? Z.min (c_x c + c_w c) tx2)
  && (Z.max (c_y c) ty1 <? Z.min (c_y c + c_h c) ty2).

(** The four places [get_background_color] samples, in its order. *)
Definition corners (im : image) : list (Z * Z) :=
  [(10, 10); (img_width im - 11, 10); (10, img_height im - 11);
   (img_width im - 11, img_height im - 11)].

(** An image whose corners all differ and carry an alpha band. *)
Definition corner_test_image : image :=
  {| img_width := 20; img_height := 20;
     img_pixel := fun x y => PxBands [x; y; 0; 255] |}.

(** The top-left sample of [corner_test_image], without alpha. *)
Definition top_left_colour : list Z := [10; 10; 0].

(** *** More on the progress of a job *)

(** The wait loop of [process_pdf_with_gemini], for [n] turns. *)
Definition wait_loop (n : nat) : task unit :=
  for_each (seq 0 n) (fun _ =>
    p <~ get_progress ;;
    set_progress (Z.min 95 (p + 1))).

(** Like [triple], with a guarantee [E] of its own for a piece that
    raises. *)
Definition triple_exn {A} (P : job -> Prop) (m : task A)
  (Q : A -> job -> Prop) (E : job -> Prop) : Prop :=
  forall j, P j ->
    match m j with
    | (j', Ok a) => Q a j'
    | (j', Raise _) => E j'
    end.

(** Every value written so far lies between [lo] and [hi]. *)
Definition written_within (lo hi : Z) (j : job) : Prop :=
  Forall (fun v => lo <= v <= hi) (written j).

(** A document without pages: [len(doc)] is 0. *)
Definition empty_document_env : job_env :=
  {| total_pages := 0; open_fails := false; render_fails := fun _ => false;
     dump_fails := false; popen_fails := false; polls := 7;
     returncode := 0;
     cleanup_during := fun _ => false;
     written_meanwhile := fun _ => [] |}.

(** ** Page analysis ([analyze_image_with_gemini]) *)

(** [c.isspace()] on one character. *)
Definition is_space (c : ascii) : bool :=
  let n := nat_of_ascii c in
  ((9 <=? n) && (n <=? 13) || (28 <=? n) && (n <=? 32)
   || (n =? 133) || (n =? 160))%nat.

Fixpoint lstrip (l : list ascii) : list ascii :=
  match l with
  | c :: l' => if is_space c then lstrip l' else l
  | [] => []
  end.

(** [s.strip()] *)
Definition str_strip (s : string) : string :=
  string_of_list_ascii
    (rev (lstrip (rev (lstrip (list_ascii_of_string s))))).

(** [s.find(sub, start)] *)
Definition str_find (sub s : string) (start : Z) : Z :=
  let n := Z.of_nat (String.length s) in
  if n <? start then -1
  else match String.index (Z.to_nat (clamp_index n start)) sub s with
       | Some i => Z.of_nat i
       | None => -1
       end.

(** The text between the markers [opener] and the next three backticks. *)
Definition between_fences (opener : string) (response_text : string)
  : string :=
  let json_start :=
    str_find opener response_text 0 + Z.of_nat (String.length opener) in
  let json_end := str_find "```" response_text json_start in
  str_strip (str_slice response_text (Some json_start) (Some json_end)).

(** The text handed to [json.loads]. *)
Definition extract_json (text : string) : string :=
  let response_text := str_strip text in
  if is_substring "```json" response_text
  then between_fences "```json" response_text
  else if is_substring "```" response_text
  then between_fences "```" response_text
  else response_text.

(** What [json.loads] does with a text: a value, a [JSONDecodeError], or
    another exception. *)
Inductive loaded :=
  | Parsed (page_data : json)
  | JSONDecodeError
  | LoadRaises (e : exn).

(** The colour entry [{"range": [a, b], "rgb": [r, g, b]}]. *)
Definition color_entry (a b : Z) (r g bl : Z) : json :=
  JObj (<["range" := JList [JInt a; JInt b]]>
        (<["rgb" := JList [JInt r; JInt g; JInt bl]]> ∅)).

(** A bold Roboto block at [50, 50, 900, 100] with one colour entry. *)
Definition placeholder_block (text : string) (size : Z) (color : json)
  : gmap string json :=
  <["text" := JStr text]>
   (<["bbox_1000" := JList [JInt 50; JInt 50; JInt 900; JInt 100]]>
    (<["font_family" := JStr "Roboto"]>
     (<["is_bold" := JBool true]>
      (<["font_size_pt" := JInt size]>
       (<["colors" := JList [color]]> ∅))))).

(** A page of that one block. *)
Definition placeholder (text : string) (size : Z) (color : json) : json :=
  JObj (<["replace_all" := JBool true]>
        (<["blocks" := JList [JObj (placeholder_block text size color)]]> ∅)).

(** [f"[Page {page_num} - Parse error]"] *)
Definition parse_error_text (page_num : Z) : string :=
  "[Page " ++ pretty page_num ++ " - Parse error]".

(** The page returned for a response that is not JSON. *)
Definition parse_error_page (page_num : Z) : json :=
  placeholder (parse_error_text page_num) 32 (color_entry 0 30 30 30 30).

(** The function: [configured] is what [configure_gemini] returns,
    [response] the text of the model's answer or the exception that
    reading the image, the request or [response.text] raised. *)
Definition analyze_image_with_gemini (loads : string -> loaded)
  (configured : bool) (response : result string) (page_num : Z)
  : result json :=
  if negb configured then Raise ValueError
  else
    text <- response ;;
    match loads (extract_json text) with
    | Parsed page_data => Ok page_data
    | JSONDecodeError => Ok (parse_error_page page_num)
    | LoadRaises e => Raise e
    end.

(** ** The analysis loop of [process_pdf_with_gemini] *)

(** [f"page_{page_num}"] *)
Definition page_key (page_num : Z) : string := "page_" ++ pretty page_num.

(** [f"[Page {page_num} - Analysis error: {str(e)[:50]}]"], with [msg]
    for [str(e)]. *)
Definition analysis_error_text (page_num : Z) (msg : string) : string :=
  "[Page " ++ pretty page_num ++ " - Analysis error: "
  ++ str_slice msg None (Some 50) ++ "]".

(** The page stored for a page whose analysis raised. *)
Definition analysis_error_page (page_num : Z) (msg : string) : json :=
  placeholder (analysis_error_text page_num msg) 24
    (color_entry 0 50 200 50 50).

(** What the analysis of a page came to: the page it returned, or the
    [str(e)] of the exception it raised. *)
Definition page_entry (page_num : Z) (outcome : json + string) : json :=
  match outcome with
  | inl page_data => page_data
  | inr msg => analysis_error_page page_num msg
  end.

(** [analysis_results] after the loop over [range(1, total_pages + 1)]. *)
Definition analysis_results (outcome : Z -> json + string) (total : nat)
  : gmap string json :=
  foldl (fun acc page_num =>
           <[page_key page_num := page_entry page_num (outcome page_num)]> acc)
        ∅ (py_range 1 total).

(** A line feed. *)
Definition LF : string := String "010" "".

(** An answer that wraps its JSON in a fence and adds a remark. *)
Definition fenced_response : string :=
  "Here is the page:" ++ LF ++ "```json" ++ LF ++ "[1, 2]" ++ LF ++ "```"
  ++ LF ++ "Anything else?" ++ LF.

(** An answer cut off before the closing fence. *)
Definition unclosed_response : string :=
  "```json" ++ LF ++ "[1, 2]".

(** The message of an exception a rate limit raises. *)
Definition quota_message : string :=
  "429 Resource has been exhausted (e.g. check quota).".

(** The style of the two placeholder blocks, as python-pptx keeps it. *)
Definition analysis_error_style : Z * string * option bool :=
  (2400, "Roboto", Some true).

Definition parse_error_style : Z * string * option bool :=
  (3200, "Roboto", Some true).

(** The slide of a white 100 x 100 page image of a 1376 x 768 pt page
    with one text box at [50, 50, 900, 100]. *)
Definition placeholder_sample_slide (runs : list run) : slide :=
  {| background := (255, 255, 255); pictures := [];
     textboxes :=
       [{| box_left := 873760; box_top := 487680; box_width := 15727680;
           box_height := 975360; box_runs := runs |}] |}.

(** The slide of page 3 when its analysis raised [quota_message]. *)
Definition analysis_error_sample_slide : slide :=
  placeholder_sample_slide
    [styled "[Page 3 - Analysis error: 429 Resource has been ex"
       analysis_error_style (200, 50, 50);
     styled "hausted (e.g. check quota)]" analysis_error_style black].

(** The slide of page 3 when its answer was not JSON. *)
Definition parse_error_sample_slide : slide :=
  placeholder_sample_slide
    [styled "[Page 3 - Parse error]" parse_error_style (30, 30, 30)].

(** ** The presentation ([generate_pptx_from_analysis]) *)

(** What [prs.save] writes: the slide size in EMU and the slides. *)
Record presentation := {
  slide_width : Z;
  slide_height : Z;
  slides : list slide
}.

(** python-pptx accepts a slide dimension of 1 to 56 inches. *)
Definition slide_dimension (emu : Z) : result Z :=
  if (emu <? 914400) || (51206400 <? emu) then Raise ValueError else Ok emu.

(** [prs.slide_width = Emu(int(page_width * 12700))] *)
Definition slide_size (page_dim : float) : result Z :=
  v <- py_mul (PFloat page_dim) (PInt 12700) ;;
  n <- py_int v ;;
  slide_dimension n.

(** The files of the pages: what [Image.open] makes of page [n]'s image
    and what [cv2.imdecode] makes of it ([None] when it cannot decode
    it). *)
Record page_files := {
  open_image : Z -> result image;
  imdecode : Z -> option cv_page
}.

(** [{"blocks": []}], the page of a key the analysis does not have. *)
Definition default_page : json := JObj (<["blocks" := JList []]> ∅).

(** A loop that keeps what each iteration made. *)
Fixpoint for_collect {A B} (l : list A) (body : A -> task B)
  : task (list B) :=
  match l with
  | [] => tret []
  | x :: l' =>
      y <~ body x ;;
      ys <~ for_collect l' body ;;
      tret (y :: ys)
  end.

(** The body of the loop over the pages. The background is set before
    the page's entry is looked up, so an exception of the estimator
    comes first. *)
Definition generate_page (analysis : json) (files : page_files)
  (page_width page_height : float) (total_pages : Z) (page_num : Z)
  : task slide :=
  p <~ lift (percent page_num total_pages 30) ;;
  _ <~ set_progress (65 + p) ;;
  page_img <~ lift (open_image files page_num) ;;
  lift (match dict_get analysis (page_key page_num) default_page with
        | Ok page_data =>
            process_page page_width page_height page_img
              (imdecode files page_num) page_data
        | Raise e =>
            bg_color <- get_background_color page_img ;;
            _ <- background_fill bg_color ;;
            Raise e
        end).

(** The function: [loaded_analysis] is what [json.load] returned or
    raised, [save_fails] whether [prs.save] raises. *)
Definition generate_pptx_from_analysis (loaded_analysis : result json)
  (files : page_files) (save_fails : bool)
  (page_width page_height : float) (total_pages : nat)
  : task presentation :=
  analysis <~ lift loaded_analysis ;;
  w <~ lift (slide_size page_width) ;;
  h <~ lift (slide_size page_height) ;;
  made <~ for_collect (py_range 1 total_pages)
            (generate_page analysis files page_width page_height
               (Z.of_nat total_pages)) ;;
  _ <~ external save_fails ;;
  _ <~ set_progress 98 ;;
  tret {| slide_width := w; slide_height := h; slides := made |}.

(** The page a slide is built from: its image, what OpenCV made of it,
    and its entry of the analysis or the default one. *)
Definition slide_of_page (analysis : json) (files : page_files)
  (page_width page_height : float) (page_num : Z) (s : slide) : Prop :=
  exists page_img page_data,
    open_image files page_num = Ok page_img
    /\ dict_get analysis (page_key page_num) default_page = Ok page_data
    /\ process_page page_width page_height page_img
         (imdecode files page_num) page_data = Ok s.

(** Two white pages, the second with the analysis of [sample_page]. *)
Definition sample_files : page_files :=
  {| open_image := fun _ => Ok (plain_image 100 100 [255; 255; 255]);
     imdecode := fun _ => None |}.

Definition sample_analysis : json :=
  JObj (<["page_2" := sample_page]> ∅).

(** The job when the generation starts. *)
Definition analysed : job := {| progress := 65; written := [65] |}.

(** What the generation makes of [sample_analysis] on a 500 x 500 pt
    document of two pages. *)
Definition sample_presentation : presentation :=
  {| slide_width := 6350000; slide_height := 6350000;
     slides :=
       [{| background := (255, 255, 255); pictures := []; textboxes := [] |};
        {| background := (255, 255, 255); pictures := [];
           textboxes :=
             [{| box_left := 0; box_top := 0; box_width := 635000;
                 box_height := 5080000;
                 box_runs :=
                   [styled "Hello" (1200, "Roboto", Some false) black] |}]
        |}] |}.

Definition generated : job := {| progress := 98; written := [65; 80; 95; 98] |}.

(** ** The job store and its endpoints *)

Inductive JobStatus :=
  | PENDING
  | PROCESSING
  | ANALYZING
  | GENERATING
  | COMPLETED
  | ERROR.

#[global] Instance JobStatus_eq_dec : EqDecision JobStatus.
Proof. solve_decision. Defined.

(** An entry of [jobs]. The two paths of the upload, which are functions
    of the job id, are left out; a file of [OUTPUT_DIR] is named by its
    file name. *)
Record job_record := {
  job_status : JobStatus;
  job_progress : Z;
  job_message : string;
  original_filename : string;
  job_total_pages : Z;
  current_page : Z;
  job_mode : string;
  output_path : option string;
  output_filename : option string
}.

(** The server between two requests: [jobs], the job directories that
    exist under [TEMP_DIR], and the background tasks added so far,
    oldest first. *)
Record server := {
  jobs : gmap string job_record;
  job_dirs : gset string;
  tasks : list string
}.

(** What a request comes to: the value returned, an [HTTPException], or
    an exception of the named class that nothing catches. *)
Inductive reply (A : Type) :=
  | Reply (a : A)
  | HTTPException (status_code : Z) (detail : string)
  | Uncaught (class : string).
Arguments Reply {A} a.
Arguments HTTPException {A} status_code detail.
Arguments Uncaught {A} class.

(** [s.endswith(suffix)] *)
Definition str_endswith (s suffix : string) : bool :=
  let n := String.length s in
  let m := String.length suffix in
  (m <=? n)%nat && String.eqb (substring (n - m) m s) suffix.

(** [POST /api/upload]: [job_id] is the UUID drawn, [mkdir_fails] and
    [write_fails] say whether creating the job directory or writing
    [input.pdf] raises. *)
Definition upload_pdf (filename mode job_id : string)
  (mkdir_fails write_fails : bool) (srv : server)
  : server * reply (string * string * string) :=
  if negb (str_endswith filename ".pdf")
  then (srv, HTTPException 400 "Only PDF files are allowed")
  else if mkdir_fails then (srv, Uncaught "OSError")
  else
    let made := {| jobs := jobs srv;
                   job_dirs := {[job_id]} ∪ job_dirs srv;
                   tasks := tasks srv |} in
    if write_fails then (made, Uncaught "OSError")
    else
      ({| jobs :=
            <[job_id :=
                {| job_status := PENDING;
                   job_progress := 0;
                   job_message := "PDF uploaded successfully";
                   original_filename := filename;
                   job_total_pages := 0;
                   current_page := 0;
                   job_mode := mode;
                   output_path := None;
                   output_filename := None |}]> (jobs made);
          job_dirs := job_dirs made;
          tasks := tasks made |},
       Reply (job_id, "Upload successful", mode)).

(** [POST /api/process/{job_id}]: [api_key] is [GEMINI_API_KEY]. *)
Definition start_processing (api_key job_id : string) (srv : server)
  : server * reply (string * string) :=
  match jobs srv !! job_id with
  | None => (srv, HTTPException 404 "Job not found")
  | Some job =>
      if negb (py_truthy (JStr api_key))
      then (srv, HTTPException 500 "GEMINI_API_KEY not configured")
      else
        ({| jobs :=
              <[job_id :=
                  {| job_status := PROCESSING;
                     job_progress := job_progress job;
                     job_message := "Processing started";
                     original_filename := original_filename job;
                     job_total_pages := job_total_pages job;
                     current_page := current_page job;
                     job_mode := job_mode job;
                     output_path := output_path job;
                     output_filename := output_filename job |}]> (jobs srv);
            job_dirs := job_dirs srv;
            tasks := tasks srv ++ [job_id] |},
         Reply ("processing", "Processing started"))
  end.

(** [GET /api/status/{job_id}] *)
Definition get_status (job_id : string) (srv : server) : reply job_record :=
  match jobs srv !! job_id with
  | None => HTTPException 404 "Job not found"
  | Some job => Reply job
  end.

(** [OUTPUT_DIR] as a download sees it: the names
    [OUTPUT_DIR.glob(f"{job_id}*")] lists, in its order, and whether a
    file exists. *)
Record output_dir := {
  glob : string -> list string;
  file_exists : string -> bool
}.

(** [GET /api/download/{job_id}]: the file served and the name it is
    served under (before its URL quoting). *)
Definition download_result (job_id : string) (out : output_dir)
  (srv : server) : reply (string * string) :=
  let found :=
    match jobs srv !! job_id with
    | Some job =>
        if bool_decide (job_status job <> COMPLETED)
        then HTTPException 400 "Processing not completed"
        else match output_path job, output_filename job with
             | Some p, Some f => Reply (p, f)
             | _, _ => Uncaught "KeyError"
             end
    | None =>
        match glob out job_id with
        | [] => HTTPException 404
                  "Job not found and no matching file in output directory"
        | p :: _ => Reply (p, p)
        end
    end in
  match found with
  | Reply (p, f) =>
      if negb (file_exists out p)
      then HTTPException 404 "Output file not found"
      else Reply (p, f)
  | _ => found
  end.

(** [DELETE /api/job/{job_id}]: [rmtree_fails] says whether
    [shutil.rmtree] raises. *)
Definition cleanup_job (job_id : string) (rmtree_fails : bool)
  (srv : server) : server * reply string :=
  match jobs srv !! job_id with
  | Some _ =>
      if bool_decide (job_id ∈ job_dirs srv) && rmtree_fails
      then (srv, Uncaught "OSError")
      else ({| jobs := delete job_id (jobs srv);
               job_dirs := job_dirs srv ∖ {[job_id]};
               tasks := tasks srv |},
            Reply "Job cleaned up")
  | None => (srv, Reply "Job cleaned up")
  end.

(** *** Sample requests *)

Definition empty_server : server :=
  {| jobs := ∅; job_dirs := ∅; tasks := [] |}.

(** An output directory with one file. *)
Definition one_file_dir (name : string) : output_dir :=
  {| glob := fun job_id => if String.prefix job_id name then [name] else [];
     file_exists := fun p => String.eqb p name |}.

(** The record of a job just uploaded. *)
Definition uploaded_record (filename mode : string) : job_record :=
  {| job_status := PENDING; job_progress := 0;
     job_message := "PDF uploaded successfully";
     original_filename := filename; job_total_pages := 0;
     current_page := 0; job_mode := mode;
     output_path := None; output_filename := None |}.

(** *** Contours against a text box *)

(** A block whose box is the top-left eighth of the page. *)
Definition corner_block : json :=
  JObj (<["text" := JStr "Title"]>
        (<["bbox_1000" := JList [JInt 0; JInt 0; JInt 500; JInt 250]]> ∅)).

(** On a 100 x 100 raster: a contour that shares a quarter of its box
    with the box of [corner_block], and one that lies within it. *)
Definition quarter_contour : contour :=
  {| c_area := 1000; c_x := 40; c_y := 0; c_w := 40; c_h := 25 |}.

Definition inner_contour : contour :=
  {| c_area := 1000; c_x := 0; c_y := 0; c_w := 50; c_h := 25 |}.

Definition overlap_cv_page : cv_page :=
  {| contours := [inner_contour; quarter_contour];
     add_picture_ok := fun _ => true |}.

Definition quarter_picture : picture :=
  {| pic_src := quarter_contour; pic_left := 2540000; pic_top := 0;
     pic_width := 2540000; pic_height := 1587500 |}.

(** *** Blocks and their boxes *)

(** The text box is that of the block: its runs are what the composer
    makes of the block's text and colours, with the block's style and
    the defaults for what the block does not have. *)
Definition box_of_block (block : json) (box : textbox) : Prop :=
  exists o, block = JObj o
    /\ compose_runs (default (JStr "") (o !! "text")) (block_style o)
         (default (JList []) (o !! "colors"))
       = Ok (box_runs box).

(** Page files that PIL cannot open and OpenCV cannot decode. *)
Definition corrupt_files : page_files :=
  {| open_image := fun _ => Raise OSError; imdecode := fun _ => None |}.

(** The analysis of a document of one page, that of [sample_page]. *)
Definition one_page_analysis : json :=
  JObj (<["page_1" := sample_page]> ∅).

(** The runs of [two_lines] in a block of [heading_style] without
    colours: the run after the line break has no style. *)
Definition two_line_runs : list run :=
  [styled "A" (2400, "Noto Sans JP", Some true) black; plain "B"].

(** *** Pieces that may pause *)

(** The guarantee a piece that may pause gives about the dict it holds:
    [Q] when it returns, [E] when it raises. *)
Definition ctriple_exn {A} (P : job -> Prop) (m : coroutine A)
  (Q : A -> job -> Prop) (E : job -> Prop) : Prop :=
  forall s, P (held s) ->
    match m s with
    | (s', Ok a) => Q a (held s')
    | (s', Raise _) => E (held s')
    end.

(** The failing run of [failing_converter_env] during whose wait the job
    is cleaned up. *)
Definition cleaned_up_env : job_env :=
  {| total_pages := 1; open_fails := false; render_fails := fun _ => false;
     dump_fails := false; popen_fails := false; polls := 1;
     returncode := 1;
     cleanup_during := fun p => match p with Poll _ => true | _ => false end;
     written_meanwhile := fun _ => [] |}.

(** *** Rounding to binary64 *)

(** The fraction [N / D] rounded to the nearest integer, a tie to the
    even one. *)
Definition rne (N D : Z) : Z :=
  let q := N / D in
  match 2 * (N mod D) ?= D with
  | Lt => q
  | Eq => if Z.even q then q else q + 1
  | Gt => q + 1
  end.

(** The record of a right shift holds the integer part of [N / D] and
    tells where the rest lies: the round bit says that it is a half or
    more, the sticky bit that it is neither nothing nor a half. *)
Definition locates (N D : Z) (mrs : shr_record) : Prop :=
  shr_m mrs = N / D
  /\ shr_r mrs = (D <=? 2 * (N mod D))
  /\ shr_s mrs = negb (N mod D =? 0) && negb (2 * (N mod D) =? D).

(** A zero or a positive finite float. *)
Definition nonneg_finite (f : spec_float) : bool :=
  match f with
  | S754_zero false | S754_finite false _ _ => true
  | _ => false
  end.

(** Values are counted in units of [2 ^ - unit_exp], a unit below every
    binary64 value and every exact product of two of them met here. *)
Definition unit_exp : Z := 2200.

(** The value of a non-negative float, in units. *)
Definition IV (f : spec_float) : Z :=
  match f with
  | S754_finite false m e => Zpos m * 2 ^ (e + unit_exp)
  | _ => 0
  end.

(** The fraction [A / B] of units rounded to binary64: to a multiple of
    the power of two that leaves 53 bits, and of the smallest positive
    binary64 value [2 ^ -1074] at least. *)
Definition RNI (A B : Z) : Z :=
  let c := Z.max (Zdigits2 (A / B) - 53) 1126 in
  rne A (B * 2 ^ c) * 2 ^ c.

(** What [int(k / total * scale)] comes to: the quotient rounded to
    binary64, its product with the scale rounded again, and the integer
    part of that. *)
Definition percent_spec (k total scale : Z) : Z :=
  RNI (RNI (k * 2 ^ unit_exp) total * scale) 1 / 2 ^ unit_exp.

(** * Properties *)

(** ** Facts about slices *)

Lemma string_of_list_ascii_app (l1 l2 : list ascii) :
  string_of_list_ascii (l1 ++ l2)
  = (string_of_list_ascii l1 ++ string_of_list_ascii l2)%string.
Proof. induction l1 as [|c l1 IH]; simpl; [reflexivity | now rewrite IH]. Qed.

Lemma length_list_ascii_of_string (s : string) :
  length (list_ascii_of_string s) = String.length s.
Proof. induction s as [|c s IH]; simpl; [reflexivity | now rewrite IH]. Qed.

Section Slices.
Context {A : Type}.
Implicit Types l : list A.

Lemma take_to_nat_min l (a : Z) :
  take (Z.to_nat (Z.min a (Z.of_nat (length l)))) l = take (Z.to_nat a) l.
Proof.
  destruct (Z.le_gt_cases a (Z.of_nat (length l))) as [H|H].
  - now rewrite Z.min_l.
  - rewrite Z.min_r, Nat2Z.id by lia.
    rewrite !take_ge; [reflexivity | lia | lia].
Qed.

Lemma seq_slice_extends l (a b : Z) :
  0 <= a <= b ->
  take (Z.to_nat a) l ++ seq_slice l (Some a) (Some b) = take (Z.to_nat b) l.
Proof.
  intros [Ha Hab]. unfold seq_slice, clamp_index.
  destruct (Z.ltb_spec a 0); [lia|].
  destruct (Z.ltb_spec b 0); [lia|].
  rewrite <- (take_to_nat_min l a), <- (take_to_nat_min l b).
  rewrite take_take_drop. f_equal. lia.
Qed.

Lemma seq_slice_from l (c : Z) :
  0 <= c -> seq_slice l (Some c) None = drop (Z.to_nat c) l.
Proof.
  intros Hc. unfold seq_slice, clamp_index.
  destruct (Z.ltb_spec c 0); [lia|].
  destruct (Z.le_gt_cases c (Z.of_nat (length l))) as [H'|H'].
  - rewrite Z.min_l by lia. apply take_ge. rewrite length_drop. lia.
  - rewrite Z.min_r, Nat2Z.id by lia.
    rewrite !drop_ge by lia. now rewrite take_nil.
Qed.
End Slices.

Ltac bind_ok H :=
  match type of H with
  | bind ?m _ = Ok _ =>
      let E := fresh "E" in
      destruct m eqn:E; [cbn [bind] in H | discriminate H]
  end.

(** ** The Text Run Composer *)

Lemma str_app_cons (c : ascii) (s t : string) :
  (String c s ++ t)%string = String c (s ++ t)%string.
Proof. reflexivity. Qed.

Lemma str_app_nil_r (s : string) : (s ++ "")%string = s.
Proof.
  induction s as [|c s IH]; [reflexivity | now rewrite str_app_cons, IH].
Qed.

Lemma str_app_assoc (s1 s2 s3 : string) :
  ((s1 ++ s2) ++ s3)%string = (s1 ++ (s2 ++ s3))%string.
Proof.
  induction s1 as [|c s1 IH]; [reflexivity | now rewrite !str_app_cons, IH].
Qed.

Lemma runs_text_snoc (rs : list run) (r : run) :
  runs_text (rs ++ [r]) = (runs_text rs ++ run_text r)%string.
Proof.
  unfold runs_text. induction rs as [|x rs IH]; simpl.
  - apply str_app_nil_r.
  - now rewrite IH, str_app_assoc.
Qed.

Lemma str_prefix_extends (s : string) (a b : Z) :
  0 <= a <= b ->
  (str_prefix s a ++ str_slice s (Some a) (Some b))%string = str_prefix s b.
Proof.
  intros H. unfold str_prefix, str_slice.
  now rewrite <- string_of_list_ascii_app, seq_slice_extends.
Qed.

Lemma str_prefix_rest (s : string) (c : Z) :
  0 <= c -> (str_prefix s c ++ str_slice s (Some c) None)%string = s.
Proof.
  intros H. unfold str_prefix, str_slice.
  rewrite <- string_of_list_ascii_app, seq_slice_from, take_drop by lia.
  apply string_of_list_ascii_of_string.
Qed.

Lemma str_prefix_all (s : string) (c : Z) :
  Z.of_nat (String.length s) <= c -> str_prefix s c = s.
Proof.
  intros H. unfold str_prefix.
  rewrite take_ge by (rewrite length_list_ascii_of_string; lia).
  apply string_of_list_ascii_of_string.
Qed.

Lemma py_truthy_str (s : string) :
  py_truthy (JStr s) = false -> s = "".
Proof.
  simpl. destruct s; [reflexivity | discriminate].
Qed.

Lemma emit_run_ok (t : string) (st : style) (sty : Z * string * option bool)
  (color : option json) (c : rgb) :
  style_of st = Ok sty ->
  match color with
  | Some j => color_of_json j
  | None => RGBColor 0 0 0
  end = Ok c ->
  emit_run (JStr t) st color = Ok (styled t sty c).
Proof.
  unfold style_of, emit_run, styled. intros Hs Hc. simpl bind at 1.
  destruct (Pt_of_json (font_size st)) as [emu|]; [simpl in *|discriminate].
  destruct (Font_size emu) as [sz|]; [simpl in *|discriminate].
  rewrite Hc. simpl.
  destruct (typeface_of_json (font_family st)) as [f|]; [simpl in *|discriminate].
  destruct (bold_of_json (is_bold st)) as [b|]; [simpl in *|discriminate].
  now inversion Hs.
Qed.

(** The step on a dict whose range, given or defaulted, has integer
    bounds [a], [b] and whose colour python-pptx accepts. *)
Lemma color_step_spec (s : string) (st : style)
  (sty : Z * string * option bool) (runs : list run) (covered : Z)
  (o : gmap string json) (a b : Z) (c : rgb) :
  style_of st = Ok sty ->
  default (JList [JInt 0; JInt (Z.of_nat (String.length s))]) (o !! "range")
    = JList [JInt a; JInt b] ->
  color_of_json (default default_rgb (o !! "rgb")) = Ok c ->
  color_step (JStr s) st (runs, covered) (JObj o)
  = Ok (if py_truthy (JStr (str_slice s (Some a) (Some b)))
        then runs ++ [styled (str_slice s (Some a) (Some b)) sty c]
        else runs,
        Z.max covered b).
Proof.
  intros Hs Hr Hc. unfold color_step, default_range.
  cbn [py_len bind]. rewrite Hr.
  cbn [py_unpack py_iter bind length Nat.eqb py_slice index_of_json py_max].
  destruct (py_truthy (JStr (str_slice s (Some a) (Some b)))); [|reflexivity].
  now erewrite emit_run_ok by eauto.
Qed.

(** One well-formed range: the step never raises; it adds the slice as a
    run when the slice is not empty and moves [covered] to the larger
    end. *)
Lemma color_step_ok (s : string) (st : style) (sty : Z * string * option bool)
  (runs : list run) (covered : Z) (ci : json) (ab : Z * Z) :
  style_of st = Ok sty ->
  color_info_ok (Z.of_nat (String.length s)) ci ab ->
  exists runs',
    color_step (JStr s) st (runs, covered) ci
      = Ok (runs', Z.max covered (snd ab))
    /\ runs_text runs'
       = (runs_text runs ++ str_slice s (Some (fst ab)) (Some (snd ab)))%string.
Proof.
  intros Hs (o & -> & Hr & Hc).
  destruct (color_of_json (default default_rgb (o !! "rgb"))) as [c|] eqn:Ec;
    [|discriminate].
  rewrite (color_step_spec s st sty runs covered o (fst ab) (snd ab) c Hs);
    [| assumption | assumption].
  eexists. split; [reflexivity|].
  destruct (py_truthy (JStr (str_slice s (Some (fst ab)) (Some (snd ab)))))
    eqn:Et.
  - now rewrite runs_text_snoc.
  - rewrite (py_truthy_str _ Et). now rewrite str_app_nil_r.
Qed.

Lemma color_loop_ok (s : string) (st : style) (sty : Z * string * option bool)
  (colors : list json) (rs : list (Z * Z)) :
  style_of st = Ok sty ->
  Forall2 (color_info_ok (Z.of_nat (String.length s))) colors rs ->
  forall runs covered,
  exists runs',
    foldM (color_step (JStr s) st) colors (runs, covered)
      = Ok (runs', fold_left (fun c r => Z.max c (snd r)) rs covered).
Proof.
  intros Hs H. induction H as [|ci ab colors rs Hci _ IH]; intros runs covered.
  - eexists. reflexivity.
  - destruct (color_step_ok s st sty runs covered ci ab Hs Hci) as (r1 & E1 & _).
    cbn [foldM]. rewrite E1. cbn [bind]. apply IH.
Qed.

Lemma color_loop_tiling (s : string) (st : style) (sty : Z * string * option bool)
  (colors : list json) (rs : list (Z * Z)) :
  style_of st = Ok sty ->
  Forall2 (color_info_ok (Z.of_nat (String.length s))) colors rs ->
  forall runs covered,
  0 <= covered ->
  tiling covered rs ->
  runs_text runs = str_prefix s covered ->
  exists runs' covered',
    foldM (color_step (JStr s) st) colors (runs, covered)
      = Ok (runs', covered')
    /\ 0 <= covered'
    /\ runs_text runs' = str_prefix s covered'.
Proof.
  intros Hs H. induction H as [|ci [a b] colors rs Hci _ IH];
    intros runs covered Hc Ht Hr.
  - exists runs, covered. auto.
  - destruct Ht as (-> & Hab & Ht).
    destruct (color_step_ok s st sty runs covered ci (covered, b) Hs Hci)
      as (r1 & E1 & T1).
    cbn [fst snd] in E1, T1. rewrite Z.max_r in E1 by lia.
    cbn [foldM]. rewrite E1. cbn [bind].
    apply IH; [lia | assumption |].
    rewrite T1, Hr. apply str_prefix_extends. lia.
Qed.

Lemma str_slice_past_end (s : string) (c : Z) :
  Z.of_nat (String.length s) <= c -> str_slice s (Some c) None = "".
Proof.
  intros H. unfold str_slice. rewrite seq_slice_from by lia.
  rewrite drop_ge by (rewrite length_list_ascii_of_string; lia).
  reflexivity.
Qed.

(** *** A block without colours *)

Lemma split_lines_concat (l : list ascii) :
  fst (split_lines l) ++ concat (snd (split_lines l))
  = List.filter (fun c => negb (is_line_break c)) l.
Proof.
  induction l as [|c l IH]; [reflexivity|].
  cbn [split_lines List.filter]. destruct (split_lines l) as [piece pieces].
  cbn [fst snd] in IH. destruct (is_line_break c); cbn [negb fst snd].
  - cbn [concat app]. exact IH.
  - cbn [app]. now rewrite IH.
Qed.

Lemma texts_filter_nonempty (ts : list string) :
  fold_right String.append ""
    (List.filter (fun t => negb (String.eqb t "")) ts)
  = fold_right String.append "" ts.
Proof.
  induction ts as [|t ts IH]; [reflexivity|].
  cbn [List.filter fold_right]. destruct (String.eqb_spec t "") as [->|Hn].
  - cbn [negb]. exact IH.
  - cbn [negb fold_right]. now rewrite IH.
Qed.

Lemma texts_of_pieces (ps : list (list ascii)) :
  fold_right String.append "" (map string_of_list_ascii ps)
  = string_of_list_ascii (concat ps).
Proof.
  induction ps as [|p ps IH]; [reflexivity|].
  cbn [map fold_right concat]. now rewrite IH, string_of_list_ascii_app.
Qed.

(** The runs [p.text = s] makes spell [s] without its line breaks. *)
Lemma paragraph_runs_text (s : string) :
  fold_right String.append "" (paragraph_runs s) = without_line_breaks s.
Proof.
  unfold paragraph_runs, without_line_breaks.
  rewrite <- split_lines_concat.
  destruct (split_lines (list_ascii_of_string s)) as [piece pieces].
  rewrite texts_filter_nonempty, texts_of_pieces. reflexivity.
Qed.

Lemma paragraph_runs_nonempty (s : string) :
  Forall (fun t => t <> "") (paragraph_runs s).
Proof.
  unfold paragraph_runs.
  destruct (split_lines (list_ascii_of_string s)) as [piece pieces].
  apply List.Forall_forall. intros t Ht. apply filter_In in Ht as [_ Ht].
  intros ->. discriminate.
Qed.

Lemma runs_text_plain (ts : list string) :
  runs_text (map plain ts) = fold_right String.append "" ts.
Proof.
  unfold runs_text. induction ts as [|t ts IH]; [reflexivity|].
  cbn [map fold_right run_text plain]. now rewrite IH.
Qed.

(** A text without line breaks is one piece. *)
Lemma paragraph_runs_one_line (s : string) :
  s <> "" ->
  forallb (fun c => negb (is_line_break c)) (list_ascii_of_string s) = true ->
  paragraph_runs s = [s].
Proof.
  intros Hne Hl. unfold paragraph_runs.
  assert (H : split_lines (list_ascii_of_string s)
              = (list_ascii_of_string s, [])).
  { induction (list_ascii_of_string s) as [|c l IH]; [reflexivity|].
    cbn [forallb] in Hl. apply andb_true_iff in Hl as [Hc Hl].
    cbn [split_lines]. rewrite (IH Hl).
    destruct (is_line_break c); [discriminate | reflexivity]. }
  rewrite H. cbn [map List.filter]. rewrite string_of_list_ascii_of_string.
  destruct (String.eqb_spec s ""); [congruence | reflexivity].
Qed.

(** The [else] branch: the first run of the paragraph is styled and
    black, the runs after a line break are left as they are. *)
Lemma compose_runs_no_colors (s : string) (st : style)
  (sty : Z * string * option bool) (colors : json) :
  py_truthy colors = false ->
  style_of st = Ok sty ->
  compose_runs (JStr s) st colors
  = Ok match paragraph_runs s with
       | [] => []
       | t :: rest => styled t sty black :: map plain rest
       end.
Proof.
  intros Hc Hs. unfold compose_runs. rewrite Hc.
  destruct (paragraph_runs s) as [|t rest]; [reflexivity|].
  now erewrite emit_run_ok by eauto.
Qed.

Lemma compose_runs_no_colors_text (s : string) (st : style)
  (sty : Z * string * option bool) (colors : json) :
  py_truthy colors = false ->
  style_of st = Ok sty ->
  exists runs,
    compose_runs (JStr s) st colors = Ok runs
    /\ runs_text runs = without_line_breaks s.
Proof.
  intros Hc Hs. rewrite (compose_runs_no_colors s st sty colors Hc Hs).
  eexists. split; [reflexivity|].
  rewrite <- paragraph_runs_text.
  destruct (paragraph_runs s) as [|t rest]; [reflexivity|].
  change (runs_text (styled t sty black :: map plain rest))
    with (t ++ runs_text (map plain rest))%string.
  now rewrite runs_text_plain.
Qed.

(** The tail of [compose_runs] once the loop has returned. *)
Lemma compose_runs_after_loop (s : string) (st : style)
  (sty : Z * string * option bool) (ci : json) (colors : list json)
  (runs : list run) (covered : Z) :
  style_of st = Ok sty ->
  foldM (color_step (JStr s) st) (ci :: colors) ([], 0) = Ok (runs, covered) ->
  compose_runs (JStr s) st (JList (ci :: colors))
  = Ok (if covered <? Z.of_nat (String.length s)
        then runs ++ [styled (str_slice s (Some covered) None) sty black]
        else runs).
Proof.
  intros Hs Hl. unfold compose_runs.
  cbn [py_truthy length Nat.eqb negb py_iter bind]. rewrite Hl.
  cbn [bind py_len fst snd].
  destruct (covered <? Z.of_nat (String.length s)); [|reflexivity].
  cbn [py_slice index_of_json bind].
  now erewrite emit_run_ok by eauto.
Qed.

(** C1 (as amended). For a block whose text is a string and whose
    style python-pptx accepts (a size it stores as 1 to 4000 pt, a
    typeface without control characters other than tab, line feed and
    carriage return, a bold flag that is true, false, null, 0 or 1) and
    whose colour ranges are dicts with a pair of ints as [range] and an
    [rgb] of three components that [int] turns into 0..255 (each with
    its default when missing): when the ranges follow one another from
    offset 0 (each starts where the previous one ended, none runs
    backwards; the last may stop short of the end of the text or reach
    beyond it), the composer returns runs whose texts, concatenated in
    order, are the text of the block. When there is no colour range the
    text becomes the text of the paragraph, which is cut at line feeds
    and vertical tabs: the runs then spell the text without these
    characters. *)
Theorem compose_runs_tiling_covers_text (s : string) (st : style)
  (colors : list json) (rs : list (Z * Z)) :
  is_ok (style_of st) = true ->
  Forall2 (color_info_ok (Z.of_nat (String.length s))) colors rs ->
  tiling 0 rs ->
  exists runs,
    compose_runs (JStr s) st (JList colors) = Ok runs
    /\ runs_text runs = match colors with
                        | [] => without_line_breaks s
                        | _ :: _ => s
                        end.
Proof.
  intros Hs Hc Ht. destruct (style_of st) as [sty|] eqn:Est; [|discriminate].
  destruct colors as [|ci colors].
  - now apply (compose_runs_no_colors_text s st sty).
  - destruct (color_loop_tiling s st sty (ci :: colors) rs Est Hc [] 0)
      as (runs & covered & El & Hpos & Htxt); [lia | assumption | reflexivity |].
    rewrite (compose_runs_after_loop s st sty ci colors runs covered Est El).
    eexists. split; [reflexivity|].
    destruct (Z.ltb_spec covered (Z.of_nat (String.length s))).
    + rewrite runs_text_snoc, Htxt. now apply str_prefix_rest.
    + rewrite Htxt. now apply str_prefix_all.
Qed.

Lemma compose_runs_tiling_covers_text_witness :
  exists runs,
    compose_runs (JStr "ABC") heading_style
      (JList [red_range 0 1; red_range 1 2]) = Ok runs
    /\ runs_text runs = "ABC".
Proof.
  apply (compose_runs_tiling_covers_text "ABC" heading_style
           [red_range 0 1; red_range 1 2] [(0, 1); (1, 2)]).
  - reflexivity.
  - repeat constructor; eexists; (split; [reflexivity|]); split; reflexivity.
  - simpl. lia.
Defined.

(** C1, as stated, fails: a range that starts after offset 0 leaves a
    gap, and the text before it is in no run. *)
Lemma compose_runs_gap_drops_text :
  exists runs,
    compose_runs (JStr "AB") sample_style (JList [red_range 1 2]) = Ok runs
    /\ runs_text runs <> "AB".
Proof.
  eexists. split; [vm_compute; reflexivity|]. vm_compute. discriminate.
Qed.

(** C2 (as amended). For a block whose text is a string, whose style
    python-pptx accepts (as for C1) and which has at least one colour
    range, each a dict with a pair of ints as [range] and an [rgb] of
    three components that [int] turns into 0..255 (each with its default
    when missing): whatever integers the bounds of the ranges are (start
    after end, negative, beyond the text), the composer does not raise,
    and the text from the largest end seen onwards closes the runs it
    returns. *)
Theorem compose_runs_total_keeps_suffix (s : string) (st : style)
  (colors : list json) (rs : list (Z * Z)) :
  is_ok (style_of st) = true ->
  colors <> [] ->
  Forall2 (color_info_ok (Z.of_nat (String.length s))) colors rs ->
  exists runs pre,
    compose_runs (JStr s) st (JList colors) = Ok runs
    /\ runs_text runs
       = (pre ++ str_slice s (Some (covered_after rs)) None)%string.
Proof.
  intros Hs Hne Hc. destruct (style_of st) as [sty|] eqn:Est; [|discriminate].
  destruct colors as [|ci colors]; [congruence|].
  destruct (color_loop_ok s st sty (ci :: colors) rs Est Hc [] 0)
    as (runs & El).
  fold (covered_after rs) in El.
  rewrite (compose_runs_after_loop s st sty ci colors runs _ Est El).
  destruct (Z.ltb_spec (covered_after rs) (Z.of_nat (String.length s))).
  - eexists. exists (runs_text runs). split; [reflexivity|].
    now rewrite runs_text_snoc.
  - exists runs, (runs_text runs). split; [reflexivity|].
    rewrite str_slice_past_end by assumption. now rewrite str_app_nil_r.
Qed.

Lemma compose_runs_total_keeps_suffix_witness :
  exists runs pre,
    compose_runs (JStr "ABC") sample_style (JList [red_range 5 1]) = Ok runs
    /\ runs_text runs
       = (pre ++ str_slice "ABC" (Some (covered_after [(5, 1)])) None)%string.
Proof.
  apply (compose_runs_total_keeps_suffix "ABC" sample_style
           [red_range 5 1] [(5, 1)]).
  - reflexivity.
  - discriminate.
  - constructor; [|constructor].
    eexists. split; [reflexivity|]. split; reflexivity.
Defined.

(** C2, as stated, fails: a range whose start exceeds its end adds no
    run and still moves [covered] to its end, so the text before that
    end is dropped. *)
Lemma compose_runs_inverted_range_drops_text :
  exists runs,
    compose_runs (JStr "AB") sample_style (JList [red_range 2 1]) = Ok runs
    /\ runs_text runs = "B".
Proof.
  eexists. split; vm_compute; reflexivity.
Qed.

(** What an accepted style keeps of the block's fields: the typeface is
    the very string of [font_family], a whole number of points becomes
    that many hundredths, a boolean is kept. *)
Lemma style_of_fields (st : style) (sty : Z * string * option bool) :
  style_of st = Ok sty ->
  font_family st = JStr (snd (fst sty))
  /\ (forall n, font_size st = JInt n -> fst (fst sty) = 100 * n)
  /\ (forall b, is_bold st = JBool b -> snd sty = Some b).
Proof.
  unfold style_of. intros H. bind_ok H. bind_ok H. bind_ok H. bind_ok H.
  inversion H; subst sty; clear H. cbn [fst snd]. split; [|split].
  - unfold typeface_of_json in E1. destruct (font_family st); try discriminate.
    destruct (forallb xml_char (list_ascii_of_string s)); [|discriminate].
    now inversion E1.
  - intros n Hn. rewrite Hn in E. cbn in E. inversion E; subst a.
    unfold Font_size in E0.
    replace (n * 12700 / 127) with (100 * n) in E0
      by (apply Z.div_unique_exact; lia).
    destruct ((100 <=? 100 * n) && (100 * n <=? 400000)); [|discriminate].
    now inversion E0.
  - intros b Hb. rewrite Hb in E2. now inversion E2.
Qed.

(** C10. In a block with a non-empty text and a style python-pptx
    accepts, a colour range without [range] is taken to span the whole
    text (whatever colour its [rgb] gives), and one without [rgb] gives
    a black run of the slice its [range] selects, when that slice is not
    empty; either way the run has the size, typeface and bold flag of
    the block: the very string of its [font_family], its number of
    points in hundredths, its boolean. *)
Theorem color_step_missing_fields (s : string) (st : style)
  (sty : Z * string * option bool) (runs : list run) (covered : Z)
  (o : gmap string json) :
  style_of st = Ok sty ->
  s <> "" ->
  (o !! "range" = None ->
   forall c, color_of_json (default default_rgb (o !! "rgb")) = Ok c ->
     color_step (JStr s) st (runs, covered) (JObj o)
     = Ok (runs ++ [styled s sty c],
           Z.max covered (Z.of_nat (String.length s))))
  /\ (o !! "rgb" = None ->
      forall a b,
        o !! "range" = Some (JList [JInt a; JInt b]) ->
        str_slice s (Some a) (Some b) <> "" ->
        color_step (JStr s) st (runs, covered) (JObj o)
        = Ok (runs ++ [styled (str_slice s (Some a) (Some b)) sty black],
              Z.max covered b))
  /\ font_family st = JStr (snd (fst sty))
  /\ (forall n, font_size st = JInt n -> fst (fst sty) = 100 * n)
  /\ (forall b, is_bold st = JBool b -> snd sty = Some b).
Proof.
  intros Hs Hne. split; [|split; [|now apply style_of_fields]].
  - intros Hr c Hc.
    assert (Hall : str_slice s (Some 0) (Some (Z.of_nat (String.length s))) = s).
    { pose proof (str_prefix_extends s 0 (Z.of_nat (String.length s))) as H.
      rewrite (str_prefix_all s (Z.of_nat (String.length s))) in H by lia.
      apply H. lia. }
    rewrite (color_step_spec s st sty runs covered o 0
               (Z.of_nat (String.length s)) c Hs); [| now rewrite Hr | assumption].
    rewrite Hall. destruct s; [congruence | reflexivity].
  - intros Hr a b Hab Hne'.
    rewrite (color_step_spec s st sty runs covered o a b black Hs);
      [| now rewrite Hab | now rewrite Hr].
    destruct (str_slice s (Some a) (Some b)); [congruence | reflexivity].
Qed.

Lemma color_step_missing_fields_witness :
  color_step (JStr "AB") heading_style ([], 0) (JObj ∅)
  = Ok ([styled "AB" (2400, "Noto Sans JP", Some true) black], 2).
Proof.
  apply (proj1 (color_step_missing_fields "AB" heading_style
                  (2400, "Noto Sans JP", Some true) [] 0 ∅ eq_refl
                  ltac:(discriminate)) eq_refl black eq_refl).
Defined.

(** ** The Background Estimator *)

Lemma first_max_nonempty {A} (score : A -> nat) (a : A) (l : list A) :
  exists x, first_max score (a :: l) = Some x.
Proof.
  simpl. destruct (first_max score l) as [y|]; [|eauto].
  destruct (score a <? score y)%nat; eauto.
Qed.

Lemma first_max_spec {A} (score : A -> nat) (l : list A) (x : A) :
  first_max score l = Some x ->
  exists pre post,
    l = pre ++ x :: post
    /\ (forall y, In y pre -> (score y < score x)%nat)
    /\ (forall y, In y l -> (score y <= score x)%nat).
Proof.
  revert x. induction l as [|a l IH]; intros x H; [discriminate|].
  simpl in H. destruct (first_max score l) as [y|] eqn:E.
  - destruct (IH y eq_refl) as (pre & post & -> & Hpre & Hall).
    destruct (Nat.ltb_spec (score a) (score y)); inversion H; subst.
    + exists (a :: pre), post. split; [reflexivity|]. split.
      * intros z [<-|Hz]; [assumption | now apply Hpre].
      * intros z [<-|Hz]; [lia | now apply Hall].
    + exists [], (pre ++ y :: post). split; [reflexivity|]. split.
      * intros z [].
      * intros z [<-|Hz]; [lia|]. specialize (Hall z Hz). lia.
  - inversion H; subst.
    destruct l as [|b l]; [|destruct (first_max_nonempty score b l); congruence].
    exists [], []. split; [reflexivity|]. split.
    + intros z [].
    + intros z [<-|[]]. lia.
Qed.

Lemma occurrences_absent {A} `{EqDecision A} (x : A) (l : list A) :
  ~ In x l -> occurrences x l = 0%nat.
Proof.
  unfold occurrences. induction l as [|a l IH]; intros H; [reflexivity|].
  rewrite filter_cons. destruct (decide (a = x)) as [->|Hne].
  - exfalso. apply H. now left.
  - apply IH. intros Hin. apply H. now right.
Qed.

Lemma getpixel_inside (im : image) (x y : Z) :
  0 <= x < img_width im -> 0 <= y < img_height im ->
  getpixel im x y = Ok (img_pixel im x y).
Proof.
  intros Hx Hy. unfold getpixel.
  assert (Ex : (x <? 0) = false) by (apply Z.ltb_ge; lia).
  assert (Ey : (y <? 0) = false) by (apply Z.ltb_ge; lia).
  assert (Ew : (img_width im <=? x) = false) by (apply Z.leb_gt; lia).
  assert (Eh : (img_height im <=? y) = false) by (apply Z.leb_gt; lia).
  rewrite Ex, Ey. cbv zeta. now rewrite Ex, Ey, Ew, Eh.
Qed.

Lemma get_background_color_samples (im : image) :
  11 <= img_width im -> 11 <= img_height im -> multiband im ->
  get_background_color im = most_common_1 (corner_samples im).
Proof.
  intros Hw Hh Hm. unfold get_background_color, corner_samples.
  rewrite !getpixel_inside by lia. cbn [bind map fst snd].
  destruct (Hm 10 10) as [l1 ->].
  destruct (Hm (img_width im - 11) 10) as [l2 ->].
  destruct (Hm 10 (img_height im - 11)) as [l3 ->].
  destruct (Hm (img_width im - 11) (img_height im - 11)) as [l4 ->].
  reflexivity.
Qed.

(** C6 (as amended). On a page image at least 11 pixels wide and 11
    pixels high whose pixels are tuples, the Background Estimator
    returns a colour: the most frequent of the four corner samples
    (taken 10 pixels inwards, alpha stripped), and among equally
    frequent ones the one sampled first. *)
Theorem get_background_color_most_frequent (im : image) :
  11 <= img_width im ->
  11 <= img_height im ->
  multiband im ->
  exists c pre post,
    get_background_color im = Ok c
    /\ corner_samples im = pre ++ c :: post
    /\ (forall y, In y pre ->
          (occurrences y (corner_samples im)
           < occurrences c (corner_samples im))%nat)
    /\ (forall y,
          (occurrences y (corner_samples im)
           <= occurrences c (corner_samples im))%nat).
Proof.
  intros Hw Hh Hm. rewrite (get_background_color_samples im Hw Hh Hm).
  unfold most_common_1.
  destruct (first_max_nonempty (fun x => occurrences x (corner_samples im))
              (hd [] (corner_samples im)) (tl (corner_samples im)))
    as [c Hc].
  change (hd [] (corner_samples im) :: tl (corner_samples im))
    with (corner_samples im) in Hc.
  rewrite Hc.
  destruct (first_max_spec _ _ _ Hc) as (pre & post & E & Hpre & Hall).
  exists c, pre, post. repeat split; try assumption.
  intros y. destruct (decide (In y (corner_samples im))) as [Hin|Hout].
  - now apply Hall.
  - rewrite (occurrences_absent y _ Hout). lia.
Qed.

Lemma get_background_color_most_frequent_witness :
  exists c pre post,
    get_background_color tiny_page_image = Ok c
    /\ corner_samples tiny_page_image = pre ++ c :: post
    /\ (forall y, In y pre ->
          (occurrences y (corner_samples tiny_page_image)
           < occurrences c (corner_samples tiny_page_image))%nat)
    /\ (forall y,
          (occurrences y (corner_samples tiny_page_image)
           <= occurrences c (corner_samples tiny_page_image))%nat).
Proof.
  apply (get_background_color_most_frequent tiny_page_image).
  - simpl. lia.
  - simpl. lia.
  - intros x y. eexists. reflexivity.
Defined.

(** C6, as stated, fails: an image narrower or lower than 11 pixels has
    no pixel at (10, 10), and [getpixel] raises. *)
Lemma get_background_color_small_image_raises :
  get_background_color (plain_image 1 1 [255; 255; 255]) = Raise IndexError.
Proof. reflexivity. Qed.

(** ** The Coordinate Mapper *)

Lemma to_pixel_scaled (nx : json) (dim : Z) :
  to_pixel nx dim = (v <- scaled nx dim ;; py_int v).
Proof.
  unfold to_pixel, scaled.
  destruct (num_of_json nx) as [n|]; [|reflexivity]. cbn [bind].
  destruct (py_truediv n (PInt 1000)); reflexivity.
Qed.

Lemma Zpos_pow_pos (k : positive) : Zpos (2 ^ k) = 2 ^ Zpos k.
Proof. now rewrite Pos2Z.inj_pow. Qed.

(** The integer part brackets the magnitude and keeps the sign. *)
Lemma SF_trunc_bounds (s : bool) (m : positive) (e : Z) :
  (inject_Z (Z.abs (SF_trunc s m e))
     <= Qabs (SF2Q (S754_finite s m e)))%Q
  /\ (Qabs (SF2Q (S754_finite s m e))
      < inject_Z (Z.abs (SF_trunc s m e) + 1))%Q
  /\ (0 <= inject_Z (SF_trunc s m e) * SF2Q (S754_finite s m e))%Q.
Proof.
  unfold SF_trunc, SF2Q.
  destruct e as [|k|k].
  - unfold Qle, Qlt, Qabs, Qmult, inject_Z; cbn [Qnum Qden].
    destruct s; repeat split; nia.
  - assert (0 < 2 ^ Zpos k) by (apply Z.pow_pos_nonneg; lia).
    unfold Qle, Qlt, Qabs, Qmult, inject_Z; cbn [Qnum Qden].
    destruct s; repeat split; nia.
  - assert (Hd : 0 < 2 ^ Zpos k) by (apply Z.pow_pos_nonneg; lia).
    pose proof (Z.mul_div_le (Zpos m) (2 ^ Zpos k) Hd) as Hlo.
    pose proof (Z.mul_succ_div_gt (Zpos m) (2 ^ Zpos k) Hd) as Hhi.
    pose proof (Z.div_pos (Zpos m) (2 ^ Zpos k) ltac:(lia) Hd) as Hq.
    unfold Qle, Qlt, Qabs, Qmult, inject_Z; cbn [Qnum Qden].
    rewrite !Zpos_pow_pos.
    set (d := 2 ^ Zpos k) in *. set (q := Zpos m / d) in *.
    destruct s; repeat split; nia.
Qed.

(** C3 (as amended). The normalized-to-pixel conversion returns
    [int(nx / 1000 * image_width)]: whenever the binary64 product is
    finite it returns the product truncated towards zero (the integer of
    the same sign whose magnitude is the floor of the product's), not
    the nearest integer. *)
Theorem to_pixel_truncates (nx : json) (dim : Z) (v : float) :
  scaled nx dim = Ok (PFloat v) ->
  float_finite v = true ->
  exists p,
    to_pixel nx dim = Ok p
    /\ (inject_Z (Z.abs p) <= Qabs (float_value v))%Q
    /\ (Qabs (float_value v) < inject_Z (Z.abs p + 1))%Q
    /\ (0 <= inject_Z p * float_value v)%Q.
Proof.
  intros Hv Hf. rewrite to_pixel_scaled, Hv. cbn [bind py_int].
  unfold float_to_int, float_finite, float_value in *.
  destruct (Prim2SF v) as [z|z| |s m e]; try discriminate.
  - exists 0. split; [reflexivity|]. cbn. repeat split; discriminate.
  - exists (SF_trunc s m e). split; [reflexivity|]. apply SF_trunc_bounds.
Qed.

Lemma to_pixel_truncates_witness :
  exists p,
    to_pixel (JInt 290) 100 = Ok p
    /\ (inject_Z (Z.abs p) <= Qabs (float_value (0.29 * 100)))%Q
    /\ (Qabs (float_value (0.29 * 100)) < inject_Z (Z.abs p + 1))%Q
    /\ (0 <= inject_Z p * float_value (0.29 * 100))%Q.
Proof.
  apply (to_pixel_truncates (JInt 290) 100 (0.29 * 100)).
  - vm_compute. reflexivity.
  - vm_compute. reflexivity.
Defined.

(** C3, as stated, fails: [nx = 1] on an image 999 pixels wide gives
    [int(0.999) = 0], where rounding to nearest gives 1. *)
Lemma to_pixel_is_not_rounding :
  to_pixel (JInt 1) 999 = Ok 0 /\ to_pixel_rounded (JInt 1) 999 = Ok 1.
Proof. split; vm_compute; reflexivity. Qed.

(** ** Text boxes *)

(** [H : bind m k = Ok _]: [m] returned. *)

(** C9 (as amended). The two floors of a text box are independent: a
    mapped width below 10 points becomes 50 points and leaves the height
    alone, a mapped height below 10 points becomes 30 points and leaves
    the width alone; a dimension that is not below 10 is kept. *)
Theorem text_box_floors (pw ph : float) (block : json) (box : textbox) :
  text_block pw ph block = Ok (Some box) ->
  exists bbox nx ny nw nh wf hf,
    py_getitem_key block "bbox_1000" = Ok bbox
    /\ py_iter bbox = Ok [nx; ny; nw; nh]
    /\ to_points nw pw = Ok wf
    /\ to_points nh ph = Ok hf
    /\ (py_lt_const wf 10 = true -> box_width box = 50 * 12700)
    /\ (py_lt_const wf 10 = false -> Pt wf = Ok (box_width box))
    /\ (py_lt_const hf 10 = true -> box_height box = 30 * 12700)
    /\ (py_lt_const hf 10 = false -> Pt hf = Ok (box_height box)).
Proof.
  unfold text_block. intros H.
  bind_ok H. destruct (negb (py_truthy a)); [discriminate|].
  bind_ok H. destruct (negb a0); [discriminate|].
  bind_ok H. bind_ok H.
  destruct a2 as [|nx [|ny [|nw [|nh [|]]]]]; try discriminate.
  unfold py_unpack in E2. bind_ok E2.
  destruct (length a2 =? 4)%nat; [|discriminate]. inversion E2; subst a2.
  bind_ok H. unfold box_points in E4.
  bind_ok E4. bind_ok E4. bind_ok E4. bind_ok E4.
  inversion E4; subst a2; clear E4.
  bind_ok H. bind_ok H. bind_ok H. bind_ok H.
  bind_ok H. bind_ok H. bind_ok H. bind_ok H. bind_ok H.
  inversion H; subst box; clear H. cbn [box_width box_height].
  exists a1, nx, ny, nw, nh, a5, a6.
  repeat split; try assumption.
  - intros Hlt. rewrite Hlt in E10. now inversion E10.
  - intros Hlt. now rewrite Hlt in E10.
  - intros Hlt. rewrite Hlt in E11. now inversion E11.
  - intros Hlt. now rewrite Hlt in E11.
Qed.

Lemma text_box_floors_witness :
  exists bbox nx ny nw nh wf hf,
    py_getitem_key narrow_block "bbox_1000" = Ok bbox
    /\ py_iter bbox = Ok [nx; ny; nw; nh]
    /\ to_points nw 500 = Ok wf
    /\ to_points nh 500 = Ok hf
    /\ (py_lt_const wf 10 = true -> 635000 = 50 * 12700)
    /\ (py_lt_const wf 10 = false -> Pt wf = Ok 635000)
    /\ (py_lt_const hf 10 = true -> 5080000 = 30 * 12700)
    /\ (py_lt_const hf 10 = false -> Pt hf = Ok 5080000).
Proof.
  apply (text_box_floors 500 500 narrow_block
           {| box_left := 0; box_top := 0; box_width := 635000;
              box_height := 5080000;
              box_runs := [styled "Hello" (1200, "Roboto", Some false) black]
           |}).
  vm_compute. reflexivity.
Defined.

(** C9, as stated, fails: a block whose width alone is below the floor
    gets a box 50 points wide that keeps its own height (400 points
    here), not the 50 x 30 box. *)
Lemma text_box_narrow_keeps_height :
  exists box,
    text_block 500 500 narrow_block = Ok (Some box)
    /\ box_width box = 50 * 12700
    /\ box_height box = 400 * 12700.
Proof.
  eexists. split; [vm_compute; reflexivity|]. split; reflexivity.
Qed.

(** ** The Graphic Region Extractor *)

Lemma filter_mapM_In {A B} (f : A -> result (option B)) (l : list A)
  (rs : list B) (r : B) :
  filter_mapM f l = Ok rs -> In r rs ->
  exists x, In x l /\ f x = Ok (Some r).
Proof.
  revert rs. induction l as [|a l IH]; intros rs H Hin.
  - inversion H; subst. destruct Hin.
  - cbn [filter_mapM] in H. bind_ok H. bind_ok H. inversion H; subst rs.
    destruct a0 as [b|].
    + destruct Hin as [<-|Hin].
      * exists a. split; [now left | assumption].
      * destruct (IH a1 eq_refl Hin) as (x & Hx & Hf).
        exists x. split; [now right | assumption].
    + destruct (IH a1 eq_refl Hin) as (x & Hx & Hf).
      exists x. split; [now right | assumption].
Qed.

Lemma is_text_area_false (c : contour) (ts : list region) (t : region) :
  is_text_area c ts = Ok false -> In t ts -> overlaps_text c t = Ok false.
Proof.
  induction ts as [|t0 ts IH]; intros H Hin; [destruct Hin|].
  cbn [is_text_area] in H. bind_ok H. destruct a; [discriminate|].
  destruct Hin as [<-|Hin]; [assumption | now apply IH].
Qed.

Lemma overflow_threshold_pos : 0 < overflow_threshold.
Proof. reflexivity. Qed.

(** No quotient of 0 is above the threshold. *)
Lemma zero_fraction_below (b : Z) :
  match int_truediv 0 b with
  | Ok f => (overlap_threshold <? f)%float
  | Raise _ => false
  end = false.
Proof.
  unfold int_truediv. destruct (Z.eqb_spec b 0); [reflexivity|].
  pose proof overflow_threshold_pos.
  destruct (Z.leb_spec (overflow_threshold * Z.abs b) (Z.abs 0)); [lia|].
  destruct b; [congruence | reflexivity | reflexivity].
Qed.

Lemma overlaps_text_false (c : contour) (t : region) :
  overlaps_text c t = Ok false -> overlap_exceeds c t = false.
Proof.
  destruct t as [[[tx1 ty1] tx2] ty2].
  unfold overlaps_text, overlap_exceeds, overlap_area.
  destruct (Z.ltb_spec (Z.max (c_x c) tx1) (Z.min (c_x c + c_w c) tx2));
    destruct (Z.ltb_spec (Z.max (c_y c) ty1) (Z.min (c_y c + c_h c) ty2));
    cbn [andb]; intros Hov.
  - rewrite (Z.max_r 0 (_ - Z.max (c_x c) tx1)) by lia.
    rewrite (Z.max_r 0 (_ - Z.max (c_y c) ty1)) by lia.
    destruct (int_truediv _ _); [|discriminate].
    cbn [bind] in Hov. congruence.
  - rewrite (Z.max_l 0 (_ - Z.max (c_y c) ty1)) by lia.
    rewrite Z.mul_0_r. apply zero_fraction_below.
  - rewrite (Z.max_l 0 (_ - Z.max (c_x c) tx1)) by lia.
    rewrite Z.mul_0_l. apply zero_fraction_below.
  - rewrite (Z.max_l 0 (_ - Z.max (c_x c) tx1)) by lia.
    rewrite Z.mul_0_l. apply zero_fraction_below.
Qed.

Lemma place_contour_placed (pw ph : float) (iw ih : Z) (page : cv_page)
  (ts : list region) (c : contour) (p : picture) :
  place_contour pw ph iw ih page ts c = Ok (Some p) ->
  pic_src p = c /\ is_text_area c ts = Ok false.
Proof.
  unfold place_contour. intros H.
  destruct (c_area c <? 1000)%float; [discriminate|].
  bind_ok H. destruct a; [discriminate|].
  bind_ok H. bind_ok H. bind_ok H. bind_ok H.
  unfold add_picture in H.
  destruct (Pt a), (Pt a0), (Pt a1), (Pt a2); try discriminate.
  destruct (add_picture_ok page c); [|discriminate].
  inversion H; subst p. split; reflexivity.
Qed.

(** Every block that declares a [bbox_1000] has its pixel box among the
    text regions. *)
Lemma text_regions_declared (iw ih : Z) (blocks : list json)
  (ts : list region) (o : gmap string json) (bbox : json) :
  text_regions iw ih blocks = Ok ts ->
  In (JObj o) blocks ->
  o !! "bbox_1000" = Some bbox ->
  exists nx ny nw nh px py w h,
    py_unpack 4 bbox = Ok [nx; ny; nw; nh]
    /\ to_pixel nx iw = Ok px /\ to_pixel ny ih = Ok py
    /\ to_pixel nw iw = Ok w /\ to_pixel nh ih = Ok h
    /\ In (px, py, px + w, py + h) ts.
Proof.
  unfold text_regions. revert ts.
  induction blocks as [|b blocks IH]; intros ts H Hin Hb; [destruct Hin|].
  cbn [filter_mapM] in H. bind_ok H. bind_ok H. inversion H; subst ts; clear H.
  destruct Hin as [->|Hin].
  - unfold text_region in E. cbn [py_contains bind] in E.
    rewrite bool_decide_eq_true_2 in E by (rewrite Hb; eauto).
    cbn [py_getitem_key] in E. rewrite Hb in E. cbn [bind] in E.
    destruct (py_unpack 4 bbox) as [l|] eqn:El; [|discriminate].
    cbn [bind] in E.
    destruct l as [|nx [|ny [|nw [|nh [|]]]]]; try discriminate.
    destruct (to_pixel nx iw) as [px|] eqn:E1; [|discriminate].
    destruct (to_pixel ny ih) as [py|] eqn:E2; [|discriminate].
    destruct (to_pixel nw iw) as [w|] eqn:E3; [|discriminate].
    destruct (to_pixel nh ih) as [h|] eqn:E4; [|discriminate].
    cbn [bind] in E. inversion E; subst a.
    exists nx, ny, nw, nh, px, py, w, h.
    split; [reflexivity|]. do 4 (split; [assumption|]). cbn [In]. now left.
  - destruct (IH a0 eq_refl Hin Hb)
      as (nx & ny & nw & nh & px & py & w & h & H1 & H2 & H3 & H4 & H5 & H6).
    exists nx, ny, nw, nh, px, py, w, h. repeat split; try assumption.
    destruct a; [now right | assumption].
Qed.

(** C4. Every graphic region the extractor places comes from a contour
    of the page, and for every block that declares a [bbox_1000] the
    box of that contour shares no more than 0.3 of its own area with
    the block's pixel box, the box [int(n / 1000 * dimension)] makes of
    the four numbers. *)
Theorem placed_graphics_avoid_text (pw ph : float) (iw ih : Z)
  (page : cv_page) (blocks : list json) (pics : list picture)
  (p : picture) (o : gmap string json) (bbox : json) :
  extract_graphics pw ph iw ih (Some page) blocks = Ok pics ->
  In p pics ->
  In (JObj o) blocks ->
  o !! "bbox_1000" = Some bbox ->
  In (pic_src p) (contours page)
  /\ exists nx ny nw nh px py w h,
       py_unpack 4 bbox = Ok [nx; ny; nw; nh]
       /\ to_pixel nx iw = Ok px /\ to_pixel ny ih = Ok py
       /\ to_pixel nw iw = Ok w /\ to_pixel nh ih = Ok h
       /\ overlap_exceeds (pic_src p) (px, py, px + w, py + h) = false.
Proof.
  unfold extract_graphics. intros H Hp Ho Hb. bind_ok H. rename a into ts.
  destruct (filter_mapM_In _ _ _ p H Hp) as (c & Hc & Hplace).
  destruct (place_contour_placed _ _ _ _ _ _ _ _ Hplace) as [-> Harea].
  split; [assumption|].
  destruct (text_regions_declared iw ih blocks ts o bbox E Ho Hb)
    as (nx & ny & nw & nh & px & py & w & h & H1 & H2 & H3 & H4 & H5 & H6).
  exists nx, ny, nw, nh, px, py, w, h. repeat split; try assumption.
  apply overlaps_text_false. now apply (is_text_area_false c ts).
Qed.

Lemma placed_graphics_avoid_text_witness :
  In (pic_src quarter_picture) (contours overlap_cv_page)
  /\ exists nx ny nw nh px py w h,
       py_unpack 4 (JList [JInt 0; JInt 0; JInt 500; JInt 250])
       = Ok [nx; ny; nw; nh]
       /\ to_pixel nx 100 = Ok px /\ to_pixel ny 100 = Ok py
       /\ to_pixel nw 100 = Ok w /\ to_pixel nh 100 = Ok h
       /\ overlap_exceeds (pic_src quarter_picture) (px, py, px + w, py + h)
          = false.
Proof.
  apply (placed_graphics_avoid_text 500 500 100 100 overlap_cv_page
           [corner_block] [quarter_picture] quarter_picture
           (<["text" := JStr "Title"]>
            (<["bbox_1000" := JList [JInt 0; JInt 0; JInt 500; JInt 250]]> ∅))).
  - vm_compute. reflexivity.
  - now left.
  - now left.
  - reflexivity.
Defined.

(** ** A page whose raster OpenCV cannot decode *)

(** C7 (as amended). For a page whose image PIL has opened and whose
    background could be sampled, and whose text pass returns: when
    [cv2.imdecode] returns [None] for the page, the extractor yields no
    graphic region, and the page's slide holds exactly the text boxes of
    the text pass, the ones a decoded raster would have left it with. *)
Theorem decode_failure_keeps_text (pw ph : float) (im : image)
  (page_data : json) (fill : rgb) (boxes : list textbox) :
  slide_background im = Ok fill ->
  text_pass pw ph page_data = Ok boxes ->
  (forall blocks,
     extract_graphics pw ph (img_width im) (img_height im) None blocks
     = Ok [])
  /\ process_page pw ph im None page_data
     = Ok {| background := fill; pictures := []; textboxes := boxes |}
  /\ (forall cv s,
        process_page pw ph im (Some cv) page_data = Ok s ->
        background s = fill /\ textboxes s = boxes).
Proof.
  unfold slide_background, text_pass, process_page. intros Hbg Htxt.
  bind_ok Hbg. cbn [bind]. rewrite Hbg. cbn [bind].
  bind_ok Htxt. cbn [bind]. bind_ok Htxt. cbn [bind]. rewrite Htxt. cbn [bind].
  split; [reflexivity|]. split; [reflexivity|].
  intros cv s H. bind_ok H. inversion H; subst s. split; reflexivity.
Qed.

Lemma decode_failure_keeps_text_witness :
  (forall blocks, extract_graphics 500 500 100 100 None blocks = Ok [])
  /\ process_page 500 500 (plain_image 100 100 [255; 255; 255]) None
       sample_page
     = Ok {| background := (255, 255, 255); pictures := [];
             textboxes :=
               [{| box_left := 0; box_top := 0; box_width := 635000;
                   box_height := 5080000;
                   box_runs :=
                     [styled "Hello" (1200, "Roboto", Some false) black] |}]
          |}
  /\ (forall cv s,
        process_page 500 500 (plain_image 100 100 [255; 255; 255]) (Some cv)
          sample_page = Ok s ->
        background s = (255, 255, 255)
        /\ textboxes s
           = [{| box_left := 0; box_top := 0; box_width := 635000;
                 box_height := 5080000;
                 box_runs :=
                   [styled "Hello" (1200, "Roboto", Some false) black] |}]).
Proof.
  apply (decode_failure_keeps_text 500 500
           (plain_image 100 100 [255; 255; 255]) sample_page).
  - vm_compute. reflexivity.
  - vm_compute. reflexivity.
Defined.

(** C7, as stated, fails: the page image is opened and sampled for the
    background before OpenCV is asked to decode it, with nothing to
    catch an exception. A raster that neither PIL nor OpenCV can read
    aborts the page and the whole presentation, whatever text the
    analysis has for the page. *)
Lemma corrupt_raster_aborts_presentation :
  imdecode corrupt_files 1 = None
  /\ dict_get one_page_analysis (page_key 1) default_page = Ok sample_page
  /\ is_ok (text_pass 500 500 sample_page) = true
  /\ snd (generate_pptx_from_analysis (Ok one_page_analysis) corrupt_files
            false 500 500 1 analysed)
     = Raise OSError.
Proof. repeat split; vm_compute; reflexivity. Qed.

(** ** Rounding in binary64

    Division and multiplication round their exact result to the nearest
    binary64 value, and rounding keeps the order. *)

(** *** Binary digits *)

Lemma digits2_pos_size (p : positive) : digits2_pos p = Pos.size p.
Proof. induction p; simpl; congruence. Qed.

Lemma Zdigits2_log2 (n : Z) : 0 < n -> Zdigits2 n = Z.log2 n + 1.
Proof.
  destruct n as [|p|p]; try lia. intros _. cbn [Zdigits2].
  rewrite digits2_pos_size. destruct p; cbn [Z.log2 Pos.size]; lia.
Qed.

Lemma Zdigits2_bounds (n : Z) :
  0 < n -> 2 ^ (Zdigits2 n - 1) <= n < 2 ^ Zdigits2 n.
Proof.
  intros Hn. rewrite Zdigits2_log2 by assumption.
  replace (Z.log2 n + 1 - 1) with (Z.log2 n) by lia.
  replace (Z.log2 n + 1) with (Z.succ (Z.log2 n)) by lia.
  now apply Z.log2_spec.
Qed.

Lemma Zdigits2_nonneg (n : Z) : 0 <= Zdigits2 n.
Proof. destruct n; cbn; lia. Qed.

Lemma Zdigits2_unique (n d : Z) :
  2 ^ (d - 1) <= n < 2 ^ d -> 0 < n -> Zdigits2 n = d.
Proof.
  intros H Hn. rewrite Zdigits2_log2 by assumption.
  assert (0 < d).
  { destruct (Z.ltb_spec 0 d); [assumption|].
    assert (2 ^ d <= 1); [|lia].
    destruct (Z.eqb_spec d 0); [subst; cbn; lia|].
    rewrite Z.pow_neg_r by lia. lia. }
  rewrite (Z.log2_unique n (d - 1)); lia || (replace (Z.succ (d - 1)) with d by lia; lia).
Qed.

Lemma Zdigits2_le (n d : Z) : 0 <= n -> 0 <= d -> n < 2 ^ d -> Zdigits2 n <= d.
Proof.
  intros Hn Hd H. destruct (Z.eqb_spec n 0); [subst; cbn; lia|].
  pose proof (Zdigits2_bounds n ltac:(lia)) as [H1 _].
  destruct (Z.leb_spec (Zdigits2 n) d); [assumption|].
  assert (2 ^ d <= 2 ^ (Zdigits2 n - 1)) by (apply Z.pow_le_mono_r; lia). lia.
Qed.

Lemma Zdigits2_ge (n d : Z) : 0 <= d -> 2 ^ d <= n -> d + 1 <= Zdigits2 n.
Proof.
  intros Hd H. assert (0 < n) by (pose proof (Z.pow_pos_nonneg 2 d); lia).
  pose proof (Zdigits2_bounds n ltac:(lia)) as [_ H2].
  destruct (Z.leb_spec (d + 1) (Zdigits2 n)); [assumption|].
  assert (2 ^ Zdigits2 n <= 2 ^ d)
    by (apply Z.pow_le_mono_r; pose proof (Zdigits2_nonneg n); lia). lia.
Qed.

Lemma Zdigits2_mono (a b : Z) : 0 <= a <= b -> Zdigits2 a <= Zdigits2 b.
Proof.
  intros [Ha Hab]. destruct (Z.eqb_spec a 0); [subst; apply Zdigits2_nonneg|].
  rewrite !Zdigits2_log2 by lia. pose proof (Z.log2_le_mono a b Hab). lia.
Qed.

(** *** Rounding a fraction *)

Lemma rne_bounds (N D : Z) : N / D <= rne N D <= N / D + 1.
Proof.
  unfold rne. destruct (2 * (N mod D) ?= D); try lia.
  destruct (Z.even (N / D)); lia.
Qed.

Lemma rne_ge (N D L : Z) : 0 < D -> L * D <= N -> L <= rne N D.
Proof.
  intros HD H. pose proof (rne_bounds N D).
  assert (L <= N / D) by (apply Z.div_le_lower_bound; lia). lia.
Qed.

Lemma rne_le (N D U : Z) : 0 < D -> N <= U * D -> rne N D <= U.
Proof.
  intros HD H. pose proof (rne_bounds N D).
  pose proof (Z.div_mod N D ltac:(lia)). pose proof (Z.mod_pos_bound N D HD).
  destruct (Z.ltb_spec (N / D) U); [lia|].
  assert (N / D = U /\ N mod D = 0) as [E1 E2] by nia.
  unfold rne. rewrite E2, E1.
  destruct (2 * 0 ?= D) eqn:E; try lia.
  - apply Z.compare_eq in E. lia.
  - apply Z.compare_gt_iff in E. lia.
Qed.

Lemma rne_mono (N1 D1 N2 D2 : Z) :
  0 < D1 -> 0 < D2 -> N1 * D2 <= N2 * D1 -> rne N1 D1 <= rne N2 D2.
Proof.
  intros H1 H2 H.
  pose proof (Z.div_mod N1 D1 ltac:(lia)) as E1.
  pose proof (Z.mod_pos_bound N1 D1 H1) as B1.
  pose proof (Z.div_mod N2 D2 ltac:(lia)) as E2.
  pose proof (Z.mod_pos_bound N2 D2 H2) as B2.
  pose proof (rne_bounds N1 D1). pose proof (rne_bounds N2 D2).
  unfold rne in *.
  generalize dependent (N1 mod D1). generalize dependent (N2 mod D2).
  generalize dependent (N1 / D1). generalize dependent (N2 / D2).
  intros q2 q1 r2 E2 B2 Hb2 r1 E1 B1 Hb1.
  assert (Hq : q1 <= q2).
  { destruct (Z.leb_spec q1 q2); [assumption|]. exfalso.
    assert (D1 * (q2 + 1) <= D1 * q1) by (apply Z.mul_le_mono_nonneg_l; lia).
    assert ((D1 * (q2 + 1)) * D2 <= N1 * D2) by (apply Z.mul_le_mono_nonneg_r; lia).
    assert (N2 * D1 < (D2 * (q2 + 1)) * D1) by (apply Z.mul_lt_mono_pos_r; lia).
    lia. }
  destruct (Z.ltb_spec q1 q2); [lia|].
  assert (Eq : q1 = q2) by lia. subst q2.
  assert (Hr : r1 * D2 <= r2 * D1) by (subst N1 N2; lia).
  destruct (Z.compare_spec (2 * r1) D1);
    destruct (Z.compare_spec (2 * r2) D2);
    try (destruct (Z.even q1)); try lia; nia.
Qed.

(** *** Right shifts *)

Lemma shr_1_nonneg (m : Z) (r s : bool) :
  0 <= m ->
  shr_1 (Build_shr_record m r s)
  = Build_shr_record (Z.div2 m) (Z.odd m) (r || s).
Proof.
  intros Hm. destruct m as [|[p|p|]|p]; try lia; reflexivity.
Qed.

(** A shift by one bit halves the unit the record counts in. *)
Lemma shr_1_locates (N D : Z) (mrs : shr_record) :
  0 <= N -> 0 < D -> locates N D mrs -> locates N (D * 2) (shr_1 mrs).
Proof.
  intros HN HD (Hm & Hr & Hs). destruct mrs as [m r s].
  cbn [shr_m shr_r shr_s] in Hm, Hr, Hs.
  assert (0 <= m) by (subst m; apply Z.div_pos; lia).
  rewrite shr_1_nonneg by assumption. unfold locates. cbn [shr_m shr_r shr_s].
  pose proof (Z.div_mod N D ltac:(lia)) as E1.
  pose proof (Z.mod_pos_bound N D HD) as B1.
  pose proof (Z.div_mod N (D * 2) ltac:(lia)) as E2.
  pose proof (Z.mod_pos_bound N (D * 2) ltac:(lia)) as B2.
  assert (Hdd : N / (D * 2) = N / D / 2) by (rewrite Z.div_div by lia; reflexivity).
  pose proof (Z.div_mod (N / D) 2 ltac:(lia)) as E3.
  pose proof (Z.mod_pos_bound (N / D) 2 ltac:(lia)) as B3.
  assert (HR : N mod (D * 2) = N mod D + ((N / D) mod 2) * D) by nia.
  rewrite Z.div2_div. split; [congruence|].
  rewrite HR. subst m r s. rewrite Zmod_odd.
  destruct (Z.odd (N / D)).
  - split.
    + symmetry. apply Z.leb_le. lia.
    + destruct (Z.leb_spec D (2 * (N mod D))), (Z.eqb_spec (N mod D) 0),
        (Z.eqb_spec (2 * (N mod D)) D), (Z.eqb_spec (N mod D + 1 * D) 0),
        (Z.eqb_spec (2 * (N mod D + 1 * D)) (D * 2)); cbn; lia.
  - split.
    + symmetry. apply Z.leb_gt. lia.
    + destruct (Z.leb_spec D (2 * (N mod D))), (Z.eqb_spec (N mod D) 0),
        (Z.eqb_spec (2 * (N mod D)) D), (Z.eqb_spec (N mod D + 0 * D) 0),
        (Z.eqb_spec (2 * (N mod D + 0 * D)) (D * 2)); cbn; lia.
Qed.

Lemma iter_pos_nat {A} (f : A -> A) (p : positive) (x : A) :
  SpecFloat.iter_pos f p x = Nat.iter (Pos.to_nat p) f x.
Proof.
  revert x. induction p as [p IH|p IH|]; intros x; cbn [SpecFloat.iter_pos].
  - rewrite !IH. rewrite Pos2Nat.inj_xI.
    replace (S (2 * Pos.to_nat p)) with (Pos.to_nat p + (Pos.to_nat p + 1))%nat by lia.
    rewrite !Nat.iter_add. reflexivity.
  - rewrite !IH. rewrite Pos2Nat.inj_xO.
    replace (2 * Pos.to_nat p)%nat with (Pos.to_nat p + Pos.to_nat p)%nat by lia.
    rewrite Nat.iter_add. reflexivity.
  - reflexivity.
Qed.

Lemma iter_shr_1_locates (N D : Z) (mrs : shr_record) (n : nat) :
  0 <= N -> 0 < D -> locates N D mrs ->
  locates N (D * 2 ^ Z.of_nat n) (Nat.iter n shr_1 mrs).
Proof.
  intros HN HD H. induction n as [|n IH].
  - cbn. now rewrite Z.mul_1_r.
  - cbn [Nat.iter]. rewrite Nat2Z.inj_succ, Z.pow_succ_r by lia.
    replace (D * (2 * 2 ^ Z.of_nat n)) with (D * 2 ^ Z.of_nat n * 2) by lia.
    apply shr_1_locates; [assumption | | assumption].
    pose proof (Z.pow_pos_nonneg 2 (Z.of_nat n)). nia.
Qed.

Lemma shr_locates (N D : Z) (mrs : shr_record) (e n : Z) :
  0 <= N -> 0 < D -> locates N D mrs -> 0 <= n ->
  locates N (D * 2 ^ n) (fst (shr mrs e n)) /\ snd (shr mrs e n) = e + n.
Proof.
  intros HN HD H Hn. destruct n as [|p|p]; try lia; cbn [shr fst snd].
  - rewrite Z.mul_1_r. split; [assumption | lia].
  - split; [|reflexivity]. rewrite iter_pos_nat.
    rewrite <- (positive_nat_Z p). now apply iter_shr_1_locates.
Qed.

Lemma round_nearest_even_locates (N D : Z) (mrs : shr_record) :
  0 < D -> locates N D mrs ->
  round_nearest_even (shr_m mrs) (loc_of_shr_record mrs) = rne N D.
Proof.
  intros HD (Hm & Hr & Hs). destruct mrs as [m r s].
  cbn [shr_m shr_r shr_s] in *.
  pose proof (Z.mod_pos_bound N D HD) as B1. unfold rne. subst m.
  destruct (Z.compare_spec (2 * (N mod D)) D) as [E|E|E];
    destruct (Z.leb_spec D (2 * (N mod D))); try lia;
    destruct (Z.eqb_spec (N mod D) 0); try lia;
    destruct (Z.eqb_spec (2 * (N mod D)) D); try lia;
    subst r s; cbn; reflexivity.
Qed.

Lemma shr_record_of_loc_m (m : Z) (l : location) :
  shr_m (shr_record_of_loc m l) = m.
Proof. destruct l as [|[]]; reflexivity. Qed.

Lemma locates_exact (m : Z) : locates m 1 (shr_record_of_loc m loc_Exact).
Proof.
  unfold locates. cbn. rewrite Z.div_1_r, Z.mod_1_r. cbn. repeat split.
Qed.

Lemma new_location_locates (N D : Z) :
  0 <= N -> 0 < D ->
  locates N D (shr_record_of_loc (N / D) (new_location D (N mod D))).
Proof.
  intros HN HD. pose proof (Z.mod_pos_bound N D HD) as B.
  unfold locates. rewrite shr_record_of_loc_m. split; [reflexivity|].
  unfold new_location, new_location_even, new_location_odd.
  destruct (Z.even D) eqn:Ev.
  - destruct (Z.eqb_spec (N mod D) 0) as [E|E].
    + rewrite E. cbn. split; [symmetry; apply Z.leb_gt; lia | reflexivity].
    + cbn [negb andb].
      destruct (Z.compare_spec (2 * (N mod D)) D);
        destruct (Z.leb_spec D (2 * (N mod D))); try lia;
        destruct (Z.eqb_spec (2 * (N mod D)) D); try lia; split; reflexivity.
  - assert (Hodd : Z.odd D = true) by (rewrite <- Z.negb_even, Ev; reflexivity).
    apply Z.odd_spec in Hodd. destruct Hodd as [h Hh].
    destruct (Z.eqb_spec (N mod D) 0) as [E|E].
    + rewrite E. cbn. split; [symmetry; apply Z.leb_gt; lia | reflexivity].
    + cbn [negb andb].
      destruct (Z.compare_spec (2 * (N mod D) + 1) D);
        destruct (Z.leb_spec D (2 * (N mod D))); try lia;
        destruct (Z.eqb_spec (2 * (N mod D)) D); try lia; split; reflexivity.
Qed.

(** *** The rounding step of an operation *)

Lemma fexp_eq (e : Z) : fexp prec emax e = Z.max (e - 53) (-1074).
Proof. reflexivity. Qed.

Lemma rne_scale (N D c : Z) : 0 < D -> 0 < c -> rne (N * c) (D * c) = rne N D.
Proof.
  intros HD Hc. unfold rne.
  rewrite Z.div_mul_cancel_r by lia.
  rewrite Z.mul_mod_distr_r by lia.
  replace (2 * (N mod D * c)) with (2 * (N mod D) * c) by lia.
  rewrite <- (Zmult_compare_compat_r (2 * (N mod D)) D c) by lia.
  reflexivity.
Qed.

Lemma pow2_pos (n : Z) : 0 <= n -> 0 < 2 ^ n.
Proof. intros. now apply Z.pow_pos_nonneg. Qed.

Lemma pow2_split (a b : Z) : 0 <= a -> 0 <= b -> 2 ^ (a + b) = 2 ^ a * 2 ^ b.
Proof. intros. now apply Z.pow_add_r. Qed.

(** The rounding step on a mantissa [mx] that is the integer part of
    [N / D], with the location of the rest: the result is zero or a
    valid positive float whose mantissa is [N / D] rounded at the
    exponent the format gives it. *)
Lemma binary_round_aux_spec (mx ex : Z) (lx : location) (N D : Z) :
  0 <= N -> 0 < D ->
  locates N D (shr_record_of_loc mx lx) ->
  ex <= fexp prec emax (Zdigits2 mx + ex) ->
  fexp prec emax (Zdigits2 mx + ex) < 971 ->
  exists f,
    binary_round_aux prec emax false mx ex lx = f
    /\ nonneg_finite f = true
    /\ valid_binary f = true
    /\ IV f = rne N (D * 2 ^ (fexp prec emax (Zdigits2 mx + ex) - ex))
              * 2 ^ (fexp prec emax (Zdigits2 mx + ex) + unit_exp).
Proof.
  intros HN HD Hloc Hex Hmax.
  assert (Hmx : mx = N / D).
  { destruct Hloc as [Hm _]. now rewrite shr_record_of_loc_m in Hm. }
  set (e1 := fexp prec emax (Zdigits2 mx + ex)) in *.
  set (n := e1 - ex).
  assert (Hn : 0 <= n) by (unfold n; lia).
  assert (He1 : e1 = Z.max (Zdigits2 mx + ex - 53) (-1074)) by reflexivity.
  pose proof (pow2_pos n Hn) as Hpn.
  assert (Hmx0 : 0 <= mx) by (subst mx; apply Z.div_pos; lia).
  set (M := rne N (D * 2 ^ n)).
  (* the first shift *)
  unfold binary_round_aux, shr_fexp. fold e1. fold n.
  destruct (shr_locates N D (shr_record_of_loc mx lx) ex n HN HD Hloc Hn)
    as [Hl1 He].
  destruct (shr (shr_record_of_loc mx lx) ex n) as [mrs' e'].
  cbn [fst snd] in Hl1, He.
  rewrite (round_nearest_even_locates N (D * 2 ^ n) mrs') by (assumption || nia).
  fold M. replace e' with e1 by (unfold n in He; lia). clear He e' Hl1 mrs'.
  (* the rounded mantissa *)
  assert (Hm1 : N / (D * 2 ^ n) = mx / 2 ^ n)
    by (subst mx; now rewrite Z.div_div by lia).
  pose proof (rne_bounds N (D * 2 ^ n)) as HM. fold M in HM. rewrite Hm1 in HM.
  assert (Hup : mx / 2 ^ n < 2 ^ 53).
  { apply Z.div_lt_upper_bound; [assumption|].
    destruct (Z.eqb_spec mx 0) as [->|Hne]; [apply Z.mul_pos_pos; lia|].
    pose proof (Zdigits2_bounds mx ltac:(lia)) as [_ Hd].
    rewrite <- Z.pow_add_r by lia.
    eapply Z.lt_le_trans; [exact Hd|].
    apply Z.pow_le_mono_r; lia. }
  assert (Hlow : -1074 < e1 -> 2 ^ 52 <= mx / 2 ^ n).
  { intros Hnorm. assert (En : n = Zdigits2 mx - 53) by lia.
    assert (0 < mx).
    { destruct (Z.eqb_spec mx 0) as [->|]; [cbn in En; lia | lia]. }
    pose proof (Zdigits2_bounds mx ltac:(lia)) as [Hd _].
    apply Z.div_le_lower_bound; [assumption|].
    rewrite Z.mul_comm, <- Z.pow_add_r by lia.
    replace (52 + n) with (Zdigits2 mx - 1) by lia. exact Hd. }
  assert (HM0 : 0 <= mx / 2 ^ n) by (apply Z.div_pos; lia).
  (* the second shift *)
  cbn [shr_record_of_loc].
  destruct (Z.eqb_spec M 0) as [E0|E0].
  - (* zero *)
    rewrite E0. cbn [Zdigits2].
    assert (Hn2 : fexp prec emax (0 + e1) - e1 <= 0) by (rewrite fexp_eq; lia).
    exists (S754_zero false).
    destruct (fexp prec emax (0 + e1) - e1) eqn:En2; try lia;
      cbn [shr shr_m]; repeat split; cbn; lia.
  - destruct (Z.ltb_spec M (2 ^ 53)) as [Hlt|Hge].
    + (* no carry *)
      assert (HMpos : 0 < M) by lia.
      assert (HdM : Zdigits2 M <= 53) by (apply Zdigits2_le; lia).
      assert (HdM' : -1074 < e1 -> Zdigits2 M = 53).
      { intros Hnorm. specialize (Hlow Hnorm).
        apply Zdigits2_unique; [|assumption]. cbn [Z.sub]. lia. }
      assert (En2 : fexp prec emax (Zdigits2 M + e1) - e1 = 0).
      { rewrite fexp_eq. destruct (Z.eqb_spec e1 (-1074)); [lia|].
        rewrite HdM' by lia. lia. }
      rewrite En2. cbn [shr shr_m].
      destruct M as [|m|m] eqn:EM; try lia.
      exists (S754_finite false m e1).
      assert (Hle : (e1 <=? 971) = true) by (apply Z.leb_le; lia).
      change (IntDef.Z.leb e1 (IntDef.Z.sub emax prec)) with (e1 <=? 971).
      rewrite Hle. split; [reflexivity|]. split; [reflexivity|]. split.
      * change (valid_binary (S754_finite false m e1))
          with ((fexp prec emax (Zdigits2 (Z.pos m) + e1) =? e1) && (e1 <=? 971)).
        rewrite Hle, andb_true_r. apply Z.eqb_eq. lia.
      * cbn [IV]. reflexivity.
    + (* carry *)
      assert (EM : M = 2 ^ 53) by lia.
      assert (En2 : fexp prec emax (Zdigits2 M + e1) - e1 = 1).
      { rewrite EM. change (Zdigits2 (2 ^ 53)) with 54. rewrite fexp_eq. lia. }
      rewrite En2, EM. cbn [shr SpecFloat.iter_pos].
      change (shr_m (shr_1 {| shr_m := 2 ^ 53; shr_r := false; shr_s := false |}))
        with (2 ^ 52).
      change (2 ^ 52) with (Z.pos (Z.to_pos (2 ^ 52))) at 1.
      cbv iota.
      exists (S754_finite false (Z.to_pos (2 ^ 52)) (e1 + 1)).
      assert (Hle : (e1 + 1 <=? 971) = true) by (apply Z.leb_le; lia).
      change (IntDef.Z.leb (IntDef.Z.add e1 1) (IntDef.Z.sub emax prec))
        with (e1 + 1 <=? 971).
      rewrite Hle. split; [reflexivity|]. split; [reflexivity|]. split.
      * change (valid_binary (S754_finite false (Z.to_pos (2 ^ 52)) (e1 + 1)))
          with ((fexp prec emax (53 + (e1 + 1)) =? e1 + 1) && (e1 + 1 <=? 971)).
        rewrite Hle, andb_true_r. apply Z.eqb_eq. rewrite fexp_eq. lia.
      * cbn [IV]. change (Z.pos (Z.to_pos (2 ^ 52))) with (2 ^ 52).
        replace (e1 + 1 + unit_exp) with (1 + (e1 + unit_exp)) by lia.
        rewrite (pow2_split 1) by (unfold unit_exp; lia).
        change (2 ^ 53) with (2 ^ 52 * 2 ^ 1). lia.
Qed.

Lemma div_le_cross (N1 D1 N2 D2 : Z) :
  0 < D1 -> 0 < D2 -> N1 * D2 <= N2 * D1 -> N1 / D1 <= N2 / D2.
Proof.
  intros H1 H2 H.
  pose proof (Z.div_mod N1 D1 ltac:(lia)) as E1.
  pose proof (Z.mod_pos_bound N1 D1 H1) as B1.
  pose proof (Z.div_mod N2 D2 ltac:(lia)) as E2.
  pose proof (Z.mod_pos_bound N2 D2 H2) as B2.
  generalize dependent (N1 mod D1). generalize dependent (N2 mod D2).
  generalize dependent (N1 / D1). generalize dependent (N2 / D2).
  intros q2 q1 r2 E2 B2 r1 E1 B1.
  destruct (Z.leb_spec q1 q2); [assumption|]. exfalso.
  assert (D1 * (q2 + 1) <= D1 * q1) by (apply Z.mul_le_mono_nonneg_l; lia).
  assert ((D1 * (q2 + 1)) * D2 <= N1 * D2) by (apply Z.mul_le_mono_nonneg_r; lia).
  assert (N2 * D1 < (D2 * (q2 + 1)) * D1) by (apply Z.mul_lt_mono_pos_r; lia).
  lia.
Qed.

Lemma Zdigits2_lt_pow (n : Z) : 0 <= n -> n < 2 ^ Zdigits2 n.
Proof.
  intros Hn. destruct (Z.eqb_spec n 0) as [->|]; [cbn; lia|].
  now apply Zdigits2_bounds; lia.
Qed.

(** Rounding keeps the order. *)
Lemma RNI_mono (A1 B1 A2 B2 : Z) :
  0 <= A1 -> 0 < B1 -> 0 < B2 -> A1 * B2 <= A2 * B1 ->
  RNI A1 B1 <= RNI A2 B2.
Proof.
  intros HA HB1 HB2 H. unfold RNI.
  pose proof (div_le_cross A1 B1 A2 B2 HB1 HB2 H) as HF.
  assert (HF1 : 0 <= A1 / B1) by (apply Z.div_pos; lia).
  pose proof (Zdigits2_mono (A1 / B1) (A2 / B2) ltac:(lia)) as Hd.
  set (c1 := Z.max (Zdigits2 (A1 / B1) - 53) 1126).
  set (c2 := Z.max (Zdigits2 (A2 / B2) - 53) 1126).
  assert (Hc1 : 1126 <= c1) by (unfold c1; lia).
  assert (Hc2 : 1126 <= c2) by (unfold c2; lia).
  pose proof (pow2_pos c1 ltac:(lia)) as P1.
  pose proof (pow2_pos c2 ltac:(lia)) as P2.
  destruct (Z.eqb_spec c1 c2) as [E|E].
  - rewrite <- E. apply Z.mul_le_mono_nonneg_r; [lia|].
    apply rne_mono; nia.
  - assert (Hlt : c1 < c2) by (unfold c1, c2 in *; lia).
    apply Z.le_trans with (2 ^ 53 * 2 ^ c1).
    + apply Z.mul_le_mono_nonneg_r; [lia|].
      apply rne_le; [nia|].
      pose proof (Zdigits2_lt_pow (A1 / B1) HF1) as Hlt1.
      assert (Hp : 2 ^ Zdigits2 (A1 / B1) <= 2 ^ (53 + c1)).
      { apply Z.pow_le_mono_r; [lia|]. unfold c1. lia. }
      rewrite (pow2_split 53 c1) in Hp by lia.
      pose proof (Z.div_mod A1 B1 ltac:(lia)) as E1.
      pose proof (Z.mod_pos_bound A1 B1 HB1) as Bd1.
      assert (A1 / B1 + 1 <= 2 ^ 53 * 2 ^ c1) by lia.
      assert (B1 * (A1 / B1 + 1) <= B1 * (2 ^ 53 * 2 ^ c1))
        by (apply Z.mul_le_mono_nonneg_l; lia).
      lia.
    + apply Z.le_trans with (2 ^ 52 * 2 ^ c2).
      * rewrite <- !pow2_split by lia. apply Z.pow_le_mono_r; lia.
      * apply Z.mul_le_mono_nonneg_r; [lia|].
        apply rne_ge; [nia|].
        assert (Ec2 : c2 = Zdigits2 (A2 / B2) - 53) by (unfold c2 in *; lia).
        assert (0 < A2 / B2).
        { destruct (Z.ltb_spec 0 (A2 / B2)); [assumption|].
          assert (A2 / B2 = 0) by lia.
          rewrite H1 in Ec2. cbn in Ec2. lia. }
        pose proof (Zdigits2_bounds (A2 / B2) ltac:(lia)) as [Hlow _].
        replace (Zdigits2 (A2 / B2) - 1) with (52 + c2) in Hlow by lia.
        rewrite pow2_split in Hlow by lia.
        pose proof (Z.div_mod A2 B2 ltac:(lia)) as E2.
        pose proof (Z.mod_pos_bound A2 B2 HB2) as Bd2.
        assert (B2 * (2 ^ 52 * 2 ^ c2) <= B2 * (A2 / B2))
          by (apply Z.mul_le_mono_nonneg_l; lia).
        lia.
Qed.

Lemma RNI_scale (A B c : Z) : 0 < B -> 0 < c -> RNI (A * c) (B * c) = RNI A B.
Proof.
  intros HB Hc. unfold RNI. rewrite Z.div_mul_cancel_r by lia.
  set (k := Z.max _ _).
  replace (B * c * 2 ^ k) with (B * 2 ^ k * c) by lia.
  rewrite rne_scale; [reflexivity | | assumption].
  assert (0 < 2 ^ k) by (apply pow2_pos; unfold k; lia). nia.
Qed.

Lemma RNI_nonneg (A B : Z) : 0 <= A -> 0 < B -> 0 <= RNI A B.
Proof.
  intros HA HB. unfold RNI. set (k := Z.max _ _).
  assert (0 < 2 ^ k) by (apply pow2_pos; unfold k; lia).
  apply Z.mul_nonneg_nonneg; [|lia].
  apply rne_ge; [nia | lia].
Qed.

(** The rounded result, in units. *)
Lemma binary_round_aux_RNI (mx ex : Z) (lx : location) (N D : Z) :
  0 <= N -> 0 < D ->
  locates N D (shr_record_of_loc mx lx) ->
  ex <= fexp prec emax (Zdigits2 mx + ex) ->
  fexp prec emax (Zdigits2 mx + ex) < 971 ->
  - unit_exp <= ex ->
  exists f,
    binary_round_aux prec emax false mx ex lx = f
    /\ nonneg_finite f = true
    /\ valid_binary f = true
    /\ IV f = RNI (N * 2 ^ (ex + unit_exp)) D.
Proof.
  intros HN HD Hloc Hex Hmax Hu.
  destruct (binary_round_aux_spec mx ex lx N D HN HD Hloc Hex Hmax)
    as (f & Hf & Hnn & Hv & HIV).
  exists f. split; [assumption|]. split; [assumption|]. split; [assumption|].
  rewrite HIV. clear HIV Hf Hnn Hv f.
  assert (Hmx : mx = N / D).
  { destruct Hloc as [Hm _]. now rewrite shr_record_of_loc_m in Hm. }
  set (e1 := fexp prec emax (Zdigits2 mx + ex)) in *.
  assert (He1 : e1 = Z.max (Zdigits2 mx + ex - 53) (-1074)) by reflexivity.
  set (j := ex + unit_exp). assert (Hj : 0 <= j) by (unfold j; lia).
  pose proof (pow2_pos j Hj) as Pj.
  unfold RNI.
  assert (Hc : Z.max (Zdigits2 (N * 2 ^ j / D) - 53) 1126 = e1 + unit_exp).
  { destruct (Z.eqb_spec mx 0) as [E0|E0].
    - rewrite E0 in He1. cbn [Zdigits2] in He1.
      assert (ex <= -1074) by lia.
      assert (N < D).
      { pose proof (Z.div_mod N D ltac:(lia)).
        pose proof (Z.mod_pos_bound N D HD). rewrite <- Hmx, E0 in *. lia. }
      assert (Zdigits2 (N * 2 ^ j / D) <= j).
      { apply Zdigits2_le; [apply Z.div_pos; nia | lia |].
        apply Z.div_lt_upper_bound; [lia|]. nia. }
      unfold j, unit_exp in *. lia.
    - assert (Hpos : 0 < mx) by (subst mx; pose proof (Z.div_pos N D); lia).
      pose proof (Zdigits2_bounds mx Hpos) as [Hlo Hhi].
      pose proof (Z.div_mod N D ltac:(lia)) as Ed.
      pose proof (Z.mod_pos_bound N D HD) as Bd. rewrite <- Hmx in Ed.
      assert (Hdg : 0 < Zdigits2 mx).
      { destruct mx; try lia. cbn. lia. }
      assert (Hd : Zdigits2 (N * 2 ^ j / D) = Zdigits2 mx + j).
      { apply Zdigits2_unique.
        - split.
          + apply Z.div_le_lower_bound; [lia|].
            replace (Zdigits2 mx + j - 1) with ((Zdigits2 mx - 1) + j) by lia.
            rewrite pow2_split by lia.
            assert (D * 2 ^ (Zdigits2 mx - 1) <= D * mx)
              by (apply Z.mul_le_mono_nonneg_l; lia).
            nia.
          + apply Z.div_lt_upper_bound; [lia|].
            rewrite pow2_split by lia.
            assert (D * (mx + 1) <= D * 2 ^ Zdigits2 mx)
              by (apply Z.mul_le_mono_nonneg_l; lia).
            nia.
        - apply Z.div_str_pos. split; [lia|].
          assert (D * 1 <= D * mx) by (apply Z.mul_le_mono_nonneg_l; lia).
          nia. }
      rewrite Hd. unfold j, unit_exp. lia. }
  rewrite Hc.
  replace (D * 2 ^ (e1 + unit_exp)) with (D * 2 ^ (e1 - ex) * 2 ^ j).
  - rewrite rne_scale; [reflexivity | | assumption].
    assert (0 < 2 ^ (e1 - ex)) by (apply pow2_pos; lia). nia.
  - rewrite <- Z.mul_assoc, <- pow2_split by (unfold j; lia).
    f_equal. f_equal. unfold j. lia.
Qed.

(** *** Division, multiplication and integer part *)

Lemma Zdigits2_mul_ge (a b : Z) :
  0 < a -> 0 < b -> Zdigits2 a + Zdigits2 b - 1 <= Zdigits2 (a * b).
Proof.
  intros Ha Hb.
  pose proof (Zdigits2_bounds a Ha) as [Ha1 _].
  pose proof (Zdigits2_bounds b Hb) as [Hb1 _].
  assert (0 < Zdigits2 a) by (destruct a; try lia; cbn; lia).
  assert (0 < Zdigits2 b) by (destruct b; try lia; cbn; lia).
  replace (Zdigits2 a + Zdigits2 b - 1)
    with ((Zdigits2 a - 1 + (Zdigits2 b - 1)) + 1) by lia.
  apply Zdigits2_ge; [lia|]. rewrite pow2_split by lia.
  apply Z.mul_le_mono_nonneg; try lia; apply Z.lt_le_incl, pow2_pos; lia.
Qed.

Lemma Zdigits2_mul_le (a b : Z) :
  0 < a -> 0 < b -> Zdigits2 (a * b) <= Zdigits2 a + Zdigits2 b.
Proof.
  intros Ha Hb.
  pose proof (Zdigits2_bounds a Ha) as [_ Ha1].
  pose proof (Zdigits2_bounds b Hb) as [_ Hb1].
  pose proof (Zdigits2_nonneg a). pose proof (Zdigits2_nonneg b).
  apply Zdigits2_le; [nia | lia |]. rewrite pow2_split by lia.
  apply Z.mul_lt_mono_nonneg; lia.
Qed.

(** Division of two positive integers, the first not above the second. *)
Lemma SFdiv_spec (k t : positive) :
  Zpos k <= Zpos t ->
  exists f,
    SFdiv prec emax (S754_finite false k 0) (S754_finite false t 0) = f
    /\ nonneg_finite f = true
    /\ valid_binary f = true
    /\ IV f = RNI (Zpos k * 2 ^ unit_exp) (Zpos t).
Proof.
  intros Hkt. unfold SFdiv, SFdiv_core_binary.
  change (xorb false false) with false.
  set (d1 := Zdigits2 (Zpos k)). set (d2 := Zdigits2 (Zpos t)).
  change (IntDef.Z.sub (IntDef.Z.add d1 0) (IntDef.Z.add d2 0))
    with (d1 + 0 - (d2 + 0)).
  change (IntDef.Z.sub 0 0) with 0.
  assert (Hd : d1 <= d2) by (apply Zdigits2_mono; lia).
  assert (Hd1 : 0 < d1) by (unfold d1; cbn; lia).
  set (e' := IntDef.Z.min (fexp prec emax (d1 + 0 - (d2 + 0))) 0).
  assert (He' : e' = Z.max (d1 - d2 - 53) (-1074)).
  { unfold e'. change IntDef.Z.min with Z.min. rewrite fexp_eq. lia. }
  set (s := IntDef.Z.sub 0 e').
  assert (Hs : s = - e') by (unfold s; change IntDef.Z.sub with Z.sub; lia).
  assert (Hspos : 0 < s) by lia.
  destruct s as [|ps|ps] eqn:Es; try lia. rewrite <- Es in *.
  rewrite Z.shiftl_mul_pow2 by lia.
  set (N := Zpos k * 2 ^ s).
  assert (HN : 0 <= N) by (unfold N; pose proof (pow2_pos s); nia).
  change (IntDef.Z.div_eucl N (Zpos t)) with (Z.div_eucl N (Zpos t)).
  assert (Hqr : Z.div_eucl N (Zpos t) = (N / Zpos t, N mod Zpos t)).
  { unfold Z.div, Z.modulo. now destruct (Z.div_eucl N (Zpos t)). }
  rewrite Hqr.
  pose proof (pow2_pos s ltac:(lia)) as Ps.
  assert (Hq0 : 0 <= N / Zpos t) by (apply Z.div_pos; lia).
  assert (Hqle : N / Zpos t <= 2 ^ s).
  { apply Z.div_le_upper_bound; [lia|]. unfold N. nia. }
  assert (Hdq : Zdigits2 (N / Zpos t) <= s + 1).
  { apply Zdigits2_le; [lia | lia |].
    rewrite pow2_split by lia. change (2 ^ 1) with 2. lia. }
  destruct (binary_round_aux_RNI (N / Zpos t) e'
              (new_location (Zpos t) (N mod Zpos t)) N (Zpos t))
    as (f & Hf & Hnn & Hv & HIV); try lia.
  - apply new_location_locates; lia.
  - rewrite fexp_eq. destruct (Z.eqb_spec e' (-1074)); [lia|].
    assert (Es' : s = 53 + d2 - d1) by lia.
    assert (2 ^ 52 <= N / Zpos t).
    { apply Z.div_le_lower_bound; [lia|]. unfold N.
      pose proof (Zdigits2_bounds (Zpos k) ltac:(lia)) as [Hk1 _].
      pose proof (Zdigits2_bounds (Zpos t) ltac:(lia)) as [_ Ht1].
      fold d1 in Hk1. fold d2 in Ht1.
      assert (E : 2 ^ s * 2 ^ (d1 - 1) = 2 ^ 52 * 2 ^ d2).
      { rewrite <- !pow2_split by lia. f_equal. lia. }
      pose proof (pow2_pos d2 ltac:(lia)).
      pose proof (pow2_pos (d1 - 1) ltac:(lia)).
      assert (Z.pos t * 2 ^ 52 <= 2 ^ d2 * 2 ^ 52)
        by (apply Z.mul_le_mono_nonneg_r; lia).
      assert (2 ^ (d1 - 1) * 2 ^ s <= Z.pos k * 2 ^ s)
        by (apply Z.mul_le_mono_nonneg_r; lia).
      lia. }
    assert (53 <= Zdigits2 (N / Zpos t)) by (apply (Zdigits2_ge _ 52); lia).
    lia.
  - rewrite fexp_eq. lia.
  - unfold unit_exp. lia.
  - exists f. split; [exact Hf|]. split; [assumption|]. split; [assumption|].
    rewrite HIV. unfold N. rewrite <- Z.mul_assoc, <- pow2_split
      by (unfold unit_exp; lia).
    replace (s + (e' + unit_exp)) with unit_exp by lia. reflexivity.
Qed.

(** Multiplication by a positive constant held with 53 bits. *)
Lemma SFmul_spec (f : spec_float) (my : positive) (ey scale : Z) :
  nonneg_finite f = true -> valid_binary f = true ->
  IV f <= 2 ^ unit_exp ->
  Zdigits2 (Zpos my) = 53 -> -60 <= ey <= -40 ->
  Zpos my = scale * 2 ^ (- ey) ->
  exists g,
    SFmul prec emax f (S754_finite false my ey) = g
    /\ nonneg_finite g = true
    /\ valid_binary g = true
    /\ IV g = RNI (IV f * scale) 1.
Proof.
  intros Hnn Hv Hle Hdy Hey Hmy.
  destruct f as [sx|sx| |sx mx ex]; try destruct sx; try discriminate.
  - exists (S754_zero false). repeat split.
  - cbn [SFmul xorb].
    assert (Hcanon : fexp prec emax (Zdigits2 (Zpos mx) + ex) = ex).
    { cbn [valid_binary] in Hv. apply andb_true_iff in Hv as [Hv _].
      now apply Z.eqb_eq in Hv. }
    rewrite fexp_eq in Hcanon.
    assert (Hex : -1074 <= ex) by lia.
    cbn [IV] in Hle.
    assert (Hdx0 : 0 < Zdigits2 (Zpos mx)) by (cbn; lia).
    assert (Hdx : Zdigits2 (Zpos mx) + ex <= 1).
    { pose proof (pow2_pos (ex + unit_exp) ltac:(unfold unit_exp; lia)) as Pu.
      destruct (Z.leb_spec ex 0) as [Hneg|Hpos'].
      - assert (Zpos mx <= 2 ^ (- ex)).
        { assert (E : 2 ^ unit_exp = 2 ^ (- ex) * 2 ^ (ex + unit_exp)).
          { rewrite <- pow2_split by (unfold unit_exp; lia). f_equal. lia. }
          rewrite E in Hle.
          now apply (Z.mul_le_mono_pos_r _ _ (2 ^ (ex + unit_exp))). }
        assert (Zdigits2 (Zpos mx) <= - ex + 1); [|lia].
        apply Zdigits2_le; [lia | lia |].
        rewrite pow2_split by lia. change (2 ^ 1) with 2.
        pose proof (pow2_pos (- ex) ltac:(lia)). lia.
      - exfalso.
        assert (2 ^ unit_exp < 2 ^ (ex + unit_exp))
          by (apply Z.pow_lt_mono_r; unfold unit_exp; lia).
        nia. }
    change (IntDef.Z.add ex ey) with (ex + ey).
    change (Z.pos (Pos.mul mx my)) with (Zpos mx * Zpos my).
    pose proof (Zdigits2_mul_ge (Zpos mx) (Zpos my) ltac:(lia) ltac:(lia)) as Hg.
    pose proof (Zdigits2_mul_le (Zpos mx) (Zpos my) ltac:(lia) ltac:(lia)) as Hl.
    rewrite Hdy in Hg, Hl.
    destruct (binary_round_aux_RNI (Zpos mx * Zpos my) (ex + ey) loc_Exact
                (Zpos mx * Zpos my) 1)
      as (g & Hg' & Hnn' & Hv' & HIV); try lia.
    + apply locates_exact.
    + rewrite fexp_eq. lia.
    + rewrite fexp_eq. lia.
    + unfold unit_exp. lia.
    + exists g. split; [exact Hg'|]. split; [assumption|]. split; [assumption|].
      rewrite HIV. cbn [IV].
      rewrite <- (RNI_scale (Z.pos mx * 2 ^ (ex + unit_exp) * scale) 1
                    (2 ^ (- ey))) by (try apply pow2_pos; lia).
      rewrite <- (Z.mul_assoc _ scale), <- Hmy.
      rewrite Z.mul_1_l.
      rewrite <- (RNI_scale _ 1 (2 ^ (- ey))) by (try apply pow2_pos; lia).
      rewrite Z.mul_1_l. f_equal.
      replace (ex + unit_exp) with ((ex + ey + unit_exp) + (- ey)) by lia.
      rewrite (pow2_split (ex + ey + unit_exp)) by (unfold unit_exp; lia).
      lia.
Qed.

Lemma SF_trunc_IV (m : positive) (e : Z) :
  - unit_exp <= e ->
  SF_trunc false m e = IV (S754_finite false m e) / 2 ^ unit_exp.
Proof.
  intros He. cbn [IV]. unfold SF_trunc.
  pose proof (pow2_pos unit_exp ltac:(unfold unit_exp; lia)) as Pu.
  destruct e as [|p|p].
  - cbn [Z.add]. rewrite Z.div_mul by lia. reflexivity.
  - rewrite pow2_split by (unfold unit_exp; lia).
    rewrite Z.mul_assoc, Z.div_mul by lia. reflexivity.
  - replace unit_exp with (Zpos p + (Zneg p + unit_exp)) at 2 by lia.
    rewrite (pow2_split (Zpos p)) by lia.
    rewrite Z.div_mul_cancel_r; [reflexivity | | ].
    + pose proof (pow2_pos (Zpos p) ltac:(lia)). lia.
    + pose proof (pow2_pos (Zneg p + unit_exp) ltac:(lia)). lia.
Qed.

(** *** The per-page values *)

Lemma RNI_one : RNI (2 ^ unit_exp) 1 = 2 ^ unit_exp.
Proof. vm_compute. reflexivity. Qed.

Lemma RNI_20 : RNI (2 ^ unit_exp * 20) 1 = 2 ^ unit_exp * 20.
Proof. vm_compute. reflexivity. Qed.

Lemma RNI_40 : RNI (2 ^ unit_exp * 40) 1 = 2 ^ unit_exp * 40.
Proof. vm_compute. reflexivity. Qed.

Lemma RNI_mono_num (A1 A2 B : Z) :
  0 <= A1 <= A2 -> 0 < B -> RNI A1 B <= RNI A2 B.
Proof.
  intros HA HB. apply RNI_mono; try lia.
  apply Z.mul_le_mono_nonneg_r; lia.
Qed.

Lemma RNI_quotient_le_one (k t : Z) :
  0 <= k <= t -> 0 < t -> RNI (k * 2 ^ unit_exp) t <= 2 ^ unit_exp.
Proof.
  intros Hk Ht. rewrite <- RNI_one at 2.
  pose proof (pow2_pos unit_exp ltac:(unfold unit_exp; lia)).
  apply RNI_mono; nia.
Qed.

(** The values grow with the page number and stay within the scale. *)
Lemma percent_spec_mono (k1 k2 t scale : Z) :
  0 <= k1 <= k2 -> 0 < t -> 0 <= scale ->
  percent_spec k1 t scale <= percent_spec k2 t scale.
Proof.
  intros Hk Ht Hs. unfold percent_spec.
  pose proof (pow2_pos unit_exp ltac:(unfold unit_exp; lia)) as Pu.
  apply Z.div_le_mono; [assumption|].
  assert (H0 : 0 <= k1 * 2 ^ unit_exp) by (apply Z.mul_nonneg_nonneg; lia).
  assert (H1 : RNI (k1 * 2 ^ unit_exp) t <= RNI (k2 * 2 ^ unit_exp) t).
  { apply RNI_mono_num; [|assumption]. split; [assumption|].
    apply Z.mul_le_mono_nonneg_r; lia. }
  pose proof (RNI_nonneg (k1 * 2 ^ unit_exp) t H0 Ht).
  apply RNI_mono_num; [|lia]. split; [apply Z.mul_nonneg_nonneg; lia|].
  apply Z.mul_le_mono_nonneg_r; lia.
Qed.

Lemma percent_spec_bounds (k t scale : Z) :
  0 <= k <= t -> 0 < t -> scale = 20 \/ scale = 40 ->
  0 <= percent_spec k t scale <= scale.
Proof.
  intros Hk Ht Hs. unfold percent_spec.
  pose proof (pow2_pos unit_exp ltac:(unfold unit_exp; lia)) as Pu.
  pose proof (RNI_quotient_le_one k t Hk Ht) as Hq.
  assert (H0 : 0 <= k * 2 ^ unit_exp) by (apply Z.mul_nonneg_nonneg; lia).
  pose proof (RNI_nonneg (k * 2 ^ unit_exp) t H0 Ht) as Hq0.
  assert (Hs0 : 0 <= scale) by lia.
  assert (H1 : 0 <= RNI (k * 2 ^ unit_exp) t * scale)
    by (apply Z.mul_nonneg_nonneg; lia).
  pose proof (RNI_nonneg _ 1 H1 ltac:(lia)) as Hp0.
  split; [apply Z.div_pos; lia|].
  apply Z.div_le_upper_bound; [assumption|].
  assert (Hp : RNI (RNI (k * 2 ^ unit_exp) t * scale) 1
               <= RNI (2 ^ unit_exp * scale) 1).
  { apply RNI_mono_num; [|lia]. split; [assumption|].
    apply Z.mul_le_mono_nonneg_r; lia. }
  destruct Hs as [-> | ->]; [rewrite RNI_20 in Hp | rewrite RNI_40 in Hp]; lia.
Qed.

Lemma float_of_Z_20 : float_of_Z 20 = Ok 20%float.
Proof. vm_compute. reflexivity. Qed.

Lemma float_of_Z_40 : float_of_Z 40 = Ok 40%float.
Proof. vm_compute. reflexivity. Qed.

Lemma overflow_threshold_ge : 2 <= overflow_threshold.
Proof. apply Z.leb_le. vm_compute. reflexivity. Qed.

(** [percent] returns, with the value of its specification. *)
Lemma percent_value (k t scale : Z) :
  1 <= k <= t -> scale = 20 \/ scale = 40 ->
  percent k t scale = Ok (percent_spec k t scale).
Proof.
  intros Hk Hs. unfold percent, int_truediv.
  destruct (Z.eqb_spec t 0); [lia|].
  pose proof overflow_threshold_ge as Hot.
  destruct (Z.leb_spec (overflow_threshold * Z.abs t) (Z.abs k)); [nia|].
  destruct k as [|pk|pk]; try lia. destruct t as [|pt|pt]; try lia.
  cbn [Z2SF bind].
  destruct (SFdiv_spec pk pt ltac:(lia)) as (f & Hf & Hnn & Hv & HIV).
  rewrite Hf.
  assert (Hle : IV f <= 2 ^ unit_exp)
    by (rewrite HIV; apply RNI_quotient_le_one; lia).
  assert (Hmul : exists g,
            Prim2SF (SF2Prim f * (if (scale =? 20)%Z then 20 else 40))%float = g
            /\ nonneg_finite g = true /\ valid_binary g = true
            /\ IV g = RNI (IV f * scale) 1).
  { rewrite mul_spec, (Prim2SF_SF2Prim f Hv). unfold SF64mul.
    destruct Hs as [-> | ->]; cbn [Z.eqb Pos.eqb].
    - change (Prim2SF 20) with (S754_finite false 5629499534213120 (-48)).
      apply SFmul_spec; try assumption; try reflexivity. lia.
    - change (Prim2SF 40) with (S754_finite false 5629499534213120 (-47)).
      apply SFmul_spec; try assumption; try reflexivity. lia. }
  destruct Hmul as (g & Hg & Hnn' & Hv' & HIV').
  assert (Hpy : py_mul (PFloat (SF2Prim f)) (PInt scale)
                = Ok (PFloat (SF2Prim f * (if (scale =? 20)%Z then 20 else 40))%float)).
  { unfold py_mul. cbn [to_float bind].
    destruct Hs as [-> | ->]; [rewrite float_of_Z_20 | rewrite float_of_Z_40];
      reflexivity. }
  rewrite Hpy. cbn [bind py_int]. unfold float_to_int. rewrite Hg.
  unfold percent_spec. rewrite <- HIV, <- HIV'.
  destruct g as [sx|sx| |sx m e]; try destruct sx; try discriminate.
  - reflexivity.
  - f_equal. apply SF_trunc_IV.
    change (valid_binary (S754_finite false m e))
      with ((fexp prec emax (Zdigits2 (Z.pos m) + e) =? e) && (e <=? 971)) in Hv'.
    apply andb_true_iff in Hv' as [Hc _]. apply Z.eqb_eq in Hc.
    rewrite fexp_eq in Hc. unfold unit_exp. lia.
Qed.

Lemma mapR_values {A B} (f : A -> result B) (g : A -> B) (l : list A) :
  (forall x, In x l -> f x = Ok (g x)) -> mapR f l = Ok (map g l).
Proof.
  induction l as [|x l IH]; intros H; [reflexivity|].
  cbn [mapR map]. rewrite (H x) by now left. cbn [bind].
  rewrite IH by (intros y Hy; apply H; now right). reflexivity.
Qed.

Lemma py_range_cons (a : Z) (n : nat) :
  py_range a (S n) = a :: py_range (a + 1) n.
Proof.
  unfold py_range. cbn [seq map]. f_equal; [lia|].
  rewrite <- seq_shift, map_map. apply map_ext. intros i. lia.
Qed.

Lemma py_range_bounds (a : Z) (n : nat) (x : Z) :
  In x (py_range a n) -> a <= x < a + Z.of_nat n.
Proof.
  revert a. induction n as [|n IH]; intros a H; [destruct H|].
  rewrite py_range_cons in H. destruct H as [<-|H]; [lia|].
  apply IH in H. lia.
Qed.

Lemma nondecreasingb_map_range (g : Z -> Z) (a : Z) (n : nat) :
  (forall i, a <= i -> i + 1 < a + Z.of_nat n -> g i <= g (i + 1)) ->
  nondecreasingb (map g (py_range a n)) = true.
Proof.
  revert a. induction n as [|n IH]; intros a H; [reflexivity|].
  rewrite py_range_cons. cbn [map].
  destruct n as [|n].
  - reflexivity.
  - specialize (IH (a + 1)). rewrite py_range_cons in IH |- *.
    cbn [map nondecreasingb] in IH |- *.
    apply andb_true_intro. split.
    + apply Z.leb_le. apply H; lia.
    + apply IH. intros i Hi1 Hi2. apply H; lia.
Qed.

Lemma within_map (g : Z -> Z) (lo hi : Z) (l : list Z) :
  (forall x, In x l -> lo <= g x <= hi) -> within lo hi (map g l) = true.
Proof.
  intros H. unfold within. apply forallb_forall. intros y Hy.
  apply in_map_iff in Hy as (x & <- & Hx). specialize (H x Hx).
  apply andb_true_intro. split; apply Z.leb_le; lia.
Qed.

(** The per-page values of a document come out in order and within
    their share of the scale, whatever its number of pages. *)
Lemma percents_in_order_all (total : nat) : percents_in_order total = true.
Proof.
  unfold percents_in_order. set (t := Z.of_nat total).
  rewrite (mapR_values _ (fun page_num => percent_spec (page_num + 1) t 20)).
  2:{ intros x Hx. apply py_range_bounds in Hx.
      apply percent_value; [unfold t; lia | now left]. }
  rewrite (mapR_values _ (fun page_num => percent_spec page_num t 40)).
  2:{ intros x Hx. apply py_range_bounds in Hx.
      apply percent_value; [unfold t; lia | now right]. }
  destruct total as [|total']; [reflexivity|].
  assert (Ht : 0 < t) by (unfold t; lia).
  apply andb_true_intro; split;
    [apply andb_true_intro; split; [apply andb_true_intro; split|]|].
  - apply nondecreasingb_map_range. intros i Hi1 Hi2.
    apply percent_spec_mono; lia.
  - apply within_map. intros x Hx. apply py_range_bounds in Hx.
    apply percent_spec_bounds; [fold t in Hx; lia | lia | now left].
  - apply nondecreasingb_map_range. intros i Hi1 Hi2.
    apply percent_spec_mono; lia.
  - apply within_map. intros x Hx. apply py_range_bounds in Hx.
    apply percent_spec_bounds; [fold t in Hx; lia | lia | now right].
Qed.

(** ** Progress of a job *)

Lemma nondecreasingb_Sorted (l : list Z) :
  nondecreasingb l = true <-> Sorted Z.le l.
Proof.
  induction l as [|x l IH]; [split; [constructor | reflexivity]|].
  cbn [nondecreasingb]. destruct l as [|y l].
  - split; [repeat constructor | reflexivity].
  - rewrite andb_true_iff, IH, Z.leb_le. split.
    + intros [Hxy Hs]. constructor; [assumption | now constructor].
    + intros Hs. inversion Hs as [|? ? Hs' Hr]; subst.
      inversion Hr; subst. split; assumption.
Qed.

Lemma Sorted_snoc (l : list Z) (v : Z) :
  Sorted Z.le l -> Forall (fun x => x <= v) l -> Sorted Z.le (l ++ [v]).
Proof.
  induction l as [|x l IH]; intros Hs Hb; cbn [app].
  - repeat constructor.
  - inversion Hs as [|? ? Hs' Hr]; subst. inversion Hb as [|? ? Hx Hb']; subst.
    constructor; [now apply IH|].
    destruct l; cbn [app]; constructor; [assumption | now inversion Hr].
Qed.

Lemma ordered_below_snoc (b v : Z) (j : job) :
  ordered_below b j -> b <= v ->
  ordered_below v {| progress := v; written := written j ++ [v] |}.
Proof.
  intros [Hs Hb] Hv. split; cbn [written].
  - apply Sorted_snoc; [assumption|].
    eapply Forall_impl; [exact Hb|]. cbn. intros. lia.
  - apply Forall_app. split.
    + eapply Forall_impl; [exact Hb|]. cbn. intros. lia.
    + repeat constructor. lia.
Qed.

Lemma ordered_below_le (b b' : Z) (j : job) :
  ordered_below b j -> b <= b' -> ordered_below b' j.
Proof.
  intros [Hs Hb] Hle. split; [assumption|].
  eapply Forall_impl; [exact Hb|]. cbn. intros. lia.
Qed.

Lemma triple_bind {A B} (P : job -> Prop) (m : task A) (Q : A -> job -> Prop)
  (k : A -> task B) (R : B -> job -> Prop) :
  triple P m Q -> (forall a, triple (Q a) (k a) R) ->
  triple P (tbind m k) R.
Proof.
  intros Hm Hk j HP. unfold tbind. specialize (Hm j HP).
  destruct (m j) as [j' [a|e]]; [now apply Hk | assumption].
Qed.

Lemma triple_lift {A} (b : Z) (r : result A) :
  triple (ordered_below b) (lift r) (fun _ => ordered_below b).
Proof. intros j Hj. unfold lift. destruct r; [assumption | apply (proj1 Hj)]. Qed.

Lemma triple_external (b : Z) (fails : bool) :
  triple (ordered_below b) (external fails) (fun _ => ordered_below b).
Proof. apply (triple_lift b). Qed.

Lemma triple_set_progress (b v : Z) :
  b <= v ->
  triple (ordered_below b) (set_progress v)
    (fun _ j => ordered_below v j /\ progress j = v).
Proof.
  intros Hv j Hj. split; [now apply (ordered_below_snoc b) | reflexivity].
Qed.

(** A loop that writes one value per item, each at least the one before
    and none above [b']. *)
Lemma triple_progress_loop (body : Z -> task unit) (f : Z -> result Z)
  (g : Z -> Z) (ks : list Z) (vs : list Z) (b b' : Z) :
  (forall k v lo, f k = Ok v -> lo <= g v ->
     triple (ordered_below lo) (body k) (fun _ => ordered_below (g v))) ->
  mapR f ks = Ok vs ->
  Sorted Z.le (b :: map g vs ++ [b']) ->
  triple (ordered_below b) (for_each ks body) (fun _ => ordered_below b').
Proof.
  intros Hbody. revert vs b. induction ks as [|k ks IH]; intros vs b Hm Hs.
  - inversion Hm; subst vs. cbn [for_each]. intros j Hj. cbn.
    apply (ordered_below_le b); [assumption|].
    inversion Hs as [|? ? _ Hr]; subst. now inversion Hr.
  - cbn [mapR] in Hm. bind_ok Hm. bind_ok Hm. inversion Hm; subst vs.
    cbn [map app] in Hs.
    inversion Hs as [|? ? Hs' Hr]; subst. inversion Hr; subst.
    cbn [for_each].
    apply (triple_bind _ _ (fun _ => ordered_below (g a)));
      [|intros _; apply (IH a0 (g a)); [reflexivity | assumption]].
    now apply Hbody.
Qed.

Lemma triple_render_body (fails : bool) (r : result Z) (v lo : Z) (g : Z -> Z) :
  r = Ok v -> lo <= g v ->
  triple (ordered_below lo)
    (_ <~ external fails ;; p <~ lift r ;; set_progress (g p))
    (fun _ => ordered_below (g v)).
Proof.
  intros -> Hlo.
  apply (triple_bind _ _ (fun _ => ordered_below lo));
    [apply triple_external|intros _].
  apply (triple_bind _ _ (fun p j => p = v /\ ordered_below lo j)).
  - intros j Hj. cbn. split; [reflexivity | assumption].
  - intros p j [-> Hj]. now apply (triple_set_progress lo).
Qed.

Lemma triple_analysis_body (r : result Z) (v lo : Z) (g : Z -> Z) :
  r = Ok v -> lo <= g v ->
  triple (ordered_below lo) (p <~ lift r ;; set_progress (g p))
    (fun _ => ordered_below (g v)).
Proof.
  intros -> Hlo.
  apply (triple_bind _ _ (fun p j => p = v /\ ordered_below lo j)).
  - intros j Hj. cbn. split; [reflexivity | assumption].
  - intros p j [-> Hj]. now apply (triple_set_progress lo).
Qed.

(** The wait loop: each turn writes a value between the current one and
    95. *)
Lemma triple_poll_loop {A} (l : list A) :
  triple (fun j => ordered_below (progress j) j /\ progress j <= 95)
    (for_each l (fun _ =>
       p <~ get_progress ;; set_progress (Z.min 95 (p + 1))))
    (fun _ j => ordered_below (progress j) j /\ progress j <= 95).
Proof.
  induction l as [|x l IH]; cbn [for_each].
  - intros j Hj. exact Hj.
  - apply (triple_bind _ _
             (fun _ j => ordered_below (progress j) j /\ progress j <= 95));
      [|intros _; exact IH].
    intros j [Hj Hp]. cbn. split; [|lia].
    apply (ordered_below_snoc (progress j)); [assumption | lia].
Qed.

Lemma Sorted_map_add (c : Z) (l : list Z) :
  Sorted Z.le l -> Sorted Z.le (map (Z.add c) l).
Proof.
  induction 1 as [|x l Hs IH Hr]; cbn [map]; constructor; [assumption|].
  destruct Hr; cbn [map]; constructor. lia.
Qed.

Lemma within_Forall (lo hi : Z) (l : list Z) :
  within lo hi l = true -> Forall (fun v => lo <= v <= hi) l.
Proof.
  induction l as [|x l IH]; intros H; constructor;
    cbn [within forallb] in H; apply andb_true_iff in H as [Hx Hl].
  - apply andb_true_iff in Hx as [H1 H2].
    apply Z.leb_le in H1. apply Z.leb_le in H2. lia.
  - now apply IH.
Qed.

Lemma Sorted_shift_bounded (c lo hi : Z) (l : list Z) :
  nondecreasingb l = true -> within lo hi l = true -> lo <= hi ->
  Sorted Z.le (c + lo :: map (Z.add c) l ++ [c + hi]).
Proof.
  intros Hs Hw Hle. apply nondecreasingb_Sorted in Hs.
  apply within_Forall in Hw.
  constructor.
  - apply Sorted_snoc; [now apply Sorted_map_add|].
    apply Forall_map. eapply Forall_impl; [exact Hw|]. cbn. intros. lia.
  - destruct Hw as [|x l Hx _]; cbn [map app]; constructor; lia.
Qed.

(** *** Pieces that may pause *)

Lemma cexn_bind {A B} (P : job -> Prop) (m : coroutine A)
  (Q : A -> job -> Prop) (k : A -> coroutine B) (R : B -> job -> Prop)
  (E : job -> Prop) :
  ctriple_exn P m Q E -> (forall a, ctriple_exn (Q a) (k a) R E) ->
  ctriple_exn P (cbind m k) R E.
Proof.
  intros Hm Hk s Hs. specialize (Hm s Hs). unfold cbind.
  destruct (m s) as [s1 [a|e]]; [now apply Hk | exact Hm].
Qed.

Lemma cexn_on_job {A} (P : job -> Prop) (m : task A) (Q : A -> job -> Prop)
  (E : job -> Prop) :
  triple_exn P m Q E -> ctriple_exn P (on_job m) Q E.
Proof.
  intros Hm s Hs. specialize (Hm (held s) Hs). unfold on_job.
  destruct (m (held s)) as [j [a|e]]; exact Hm.
Qed.

(** A loop with a pause at the end of each turn acts on the dict as the
    loop without the pauses, as long as nobody else writes meanwhile. *)
Lemma each_held (env : job_env) {A} (l : list A) (body : A -> task unit)
  (f : A -> pause) (s : activation) :
  (forall x, In x l -> written_meanwhile env (f x) = []) ->
  exists b,
    each l (fun x => _ <<~ on_job (body x) ;; sleep env (f x)) s
    = ({| held := fst (for_each l body (held s)); recorded := b |},
       snd (for_each l body (held s))).
Proof.
  revert s. induction l as [|x l IH]; intros s Hq.
  - exists (recorded s). now destruct s.
  - cbn [each for_each]. unfold cbind, tbind, on_job, sleep.
    destruct (body x (held s)) as [j [u|e]].
    + rewrite (Hq x) by now left. cbn [fold_left held recorded].
      destruct (IH {| held := j;
                      recorded := recorded s
                                  && negb (cleanup_during env (f x)) |})
        as [b Hb]; [intros y Hy; apply Hq; now right|].
      unfold cbind, on_job, sleep in Hb. rewrite Hb. cbn [held].
      exists b. reflexivity.
    + exists (recorded s). reflexivity.
Qed.

Lemma cexn_each (env : job_env) {A} (P : job -> Prop) (l : list A)
  (body : A -> task unit) (f : A -> pause) (Q : unit -> job -> Prop)
  (E : job -> Prop) :
  (forall x, In x l -> written_meanwhile env (f x) = []) ->
  triple_exn P (for_each l body) Q E ->
  ctriple_exn P (each l (fun x => _ <<~ on_job (body x) ;; sleep env (f x)))
    Q E.
Proof.
  intros Hq Hm s Hs. specialize (Hm (held s) Hs).
  destruct (each_held env l body f s Hq) as [b ->].
  destruct (for_each l body (held s)) as [j r]. exact Hm.
Qed.

Lemma try_body_ordered (env : job_env) :
  percents_in_order (total_pages env) = true ->
  single_writer env ->
  ctriple_exn (fun j => written j = []) (try_body env)
    (fun _ j => ordered_below 100 j /\ progress j = 100)
    (fun j => Sorted Z.le (written j)).
Proof.
  unfold percents_in_order. intros Hp Hq.
  destruct (mapR _ (py_range 0 _)) as [a|] eqn:Ea; [|discriminate].
  destruct (mapR _ (py_range 1 _)) as [b|] eqn:Eb; [|discriminate].
  apply andb_true_iff in Hp as [Hp Hb2]. apply andb_true_iff in Hp as [Hp Hb1].
  apply andb_true_iff in Hp as [Ha1 Ha2].
  unfold try_body.
  apply (cexn_bind _ _ (fun _ => ordered_below 0)).
  { apply cexn_on_job. intros j Hj. unfold external, lift.
    destruct (open_fails env); cbn; unfold ordered_below; rewrite Hj;
      repeat constructor. }
  intros _. apply (cexn_bind _ _ (fun _ => ordered_below 0));
    [apply cexn_on_job; apply triple_lift|intros _].
  apply (cexn_bind _ _ (fun _ => ordered_below 20)).
  { apply cexn_on_job.
    refine (triple_progress_loop _ _ (Z.add 0) _ a 0 20 _ Ea _).
    - intros k v lo Hv Hlo. now apply (triple_render_body _ _ v lo (Z.add 0)).
    - now apply (Sorted_shift_bounded 0 0 20). }
  intros _. apply (cexn_bind _ _ (fun _ => ordered_below 60)).
  { apply (cexn_each env); [intros; apply Hq|].
    refine (triple_progress_loop _ _ (Z.add 20) _ b 20 60 _ Eb _).
    - intros k v lo Hv Hlo. now apply (triple_analysis_body _ v lo (Z.add 20)).
    - now apply (Sorted_shift_bounded 20 0 40). }
  intros _. apply (cexn_bind _ _ (fun _ => ordered_below 60));
    [apply cexn_on_job; apply triple_external|intros _].
  apply (cexn_bind _ _ (fun _ j => ordered_below 65 j /\ progress j = 65));
    [apply cexn_on_job; apply triple_set_progress; lia|intros _].
  apply (cexn_bind _ _
           (fun _ j => ordered_below (progress j) j /\ progress j <= 95)).
  { apply cexn_on_job. intros j [Hj Hp]. unfold external, lift.
    destruct (popen_fails env); cbn; [apply Hj|]. rewrite Hp.
    split; [assumption|lia]. }
  intros _. apply (cexn_bind _ _
           (fun _ j => ordered_below (progress j) j /\ progress j <= 95)).
  { apply (cexn_each env); [intros; apply Hq|]. apply triple_poll_loop. }
  intros _. apply (cexn_bind _ _ (fun _ => ordered_below 95)).
  { apply cexn_on_job. intros j [Hj Hp]. unfold external, lift.
    destruct (negb _); cbn; [apply Hj|].
    now apply (ordered_below_le (progress j)). }
  intros _. apply cexn_on_job. apply triple_set_progress. lia.
Qed.

(** C8 (as amended). In one run of the task on a job no other task
    writes to, whatever the number of pages: the values written to the
    progress are in non-decreasing order up to the end of the [try:]
    block. A run that raises nothing ends at 100. When the run raises
    and [jobs] still has the job, the handler's reset to 0 is the last
    value written, after values in non-decreasing order; when
    [cleanup_job] has deleted the job during a pause, the handler raises
    in turn and nothing is reset. *)
Theorem progress_ordered_until_failure (env : job_env) (j0 : job) :
  written j0 = [] ->
  single_writer env ->
  if completes env j0
  then Sorted Z.le (written (process_pdf_with_gemini env j0))
       /\ progress (process_pdf_with_gemini env j0) = 100
  else if job_kept env j0
  then exists before,
         written (process_pdf_with_gemini env j0) = before ++ [0]
         /\ Sorted Z.le before
  else Sorted Z.le (written (process_pdf_with_gemini env j0)).
Proof.
  intros H0 Hq.
  pose proof (try_body_ordered env (percents_in_order_all (total_pages env))
                Hq {| held := j0; recorded := true |} H0) as H.
  unfold completes, job_kept, process_pdf_with_gemini, run_try.
  destruct (try_body env _) as [s [u|e]]; cbn [fst snd is_ok].
  - destruct H as [[Hs _] Hpr]. split; assumption.
  - destruct (recorded s); [|exact H].
    exists (written (held s)). split; [reflexivity | assumption].
Qed.

Lemma progress_ordered_until_failure_witness :
  Sorted Z.le (written (process_pdf_with_gemini smooth_env uploaded))
  /\ progress (process_pdf_with_gemini smooth_env uploaded) = 100.
Proof.
  apply (progress_ordered_until_failure smooth_env uploaded).
  - reflexivity.
  - intros p. reflexivity.
Defined.

(** C8, as stated, fails: when the converter exits with an error the
    handler writes 0 after 66. *)
Lemma progress_drops_on_failure :
  written (process_pdf_with_gemini failing_converter_env uploaded)
  = [20; 60; 65; 66; 0]
  /\ ~ Sorted Z.le
       (written (process_pdf_with_gemini failing_converter_env uploaded)).
Proof.
  split; [vm_compute; reflexivity|].
  intros H. apply nondecreasingb_Sorted in H. vm_compute in H. discriminate.
Qed.

(** The same failure after [cleanup_job] was served during the wait:
    the handler finds no job and resets nothing. *)
Lemma progress_stays_after_cleanup :
  process_pdf_with_gemini cleaned_up_env uploaded
  = {| progress := 66; written := [20; 60; 65; 66] |}.
Proof. vm_compute. reflexivity. Qed.

(** On a job nobody else writes to, the wait loop of the [try:] block
    acts on the dict as [wait_loop]. *)
Lemma try_body_wait_loop (env : job_env) (n : nat) (s : activation) :
  single_writer env ->
  exists b,
    each (seq 0 n) (fun turn =>
      _ <<~ on_job (p <~ get_progress ;;
                    set_progress (Z.min 95 (p + 1))) ;;
      sleep env (Poll turn)) s
    = ({| held := fst (wait_loop n (held s)); recorded := b |},
       snd (wait_loop n (held s))).
Proof.
  intros Hq. unfold wait_loop.
  apply (each_held env (seq 0 n)
           (fun _ => p <~ get_progress ;; set_progress (Z.min 95 (p + 1)))
           Poll s).
  intros x _. apply Hq.
Qed.

(** ** Pages with missing fields *)

Lemma filter_mapM_ok {A B} (f : A -> result (option B)) (l : list A) :
  Forall (fun x => exists r, f x = Ok r) l ->
  exists rs, filter_mapM f l = Ok rs.
Proof.
  induction 1 as [|x l [r Hr] _ [rs IH]]; cbn [filter_mapM].
  - eexists. reflexivity.
  - rewrite Hr, IH. cbn [bind]. eexists. reflexivity.
Qed.

Lemma color_shape_info (n : Z) (ci : json) :
  color_shape_ok ci -> exists ab, color_info_ok n ci ab.
Proof.
  intros (o & -> & [Hr|(a & b & Hr)] & Hc).
  - exists (0, n). exists o. rewrite Hr. repeat split; assumption.
  - exists (a, b). exists o. rewrite Hr. repeat split; assumption.
Qed.

Lemma color_shapes_infos (n : Z) (cs : list json) :
  Forall color_shape_ok cs -> exists rs, Forall2 (color_info_ok n) cs rs.
Proof.
  induction 1 as [|ci cs Hci _ [rs IH]].
  - exists []. constructor.
  - destruct (color_shape_info n ci Hci) as [ab Hab].
    exists (ab :: rs). now constructor.
Qed.

(** With an accepted style and well-formed colour ranges the composer
    returns. *)
Lemma compose_runs_returns (s : string) (st : style) (cs : list json) :
  is_ok (style_of st) = true ->
  Forall color_shape_ok cs ->
  exists runs, compose_runs (JStr s) st (JList cs) = Ok runs.
Proof.
  intros Hs Hc. destruct (style_of st) as [sty|] eqn:Est; [|discriminate].
  destruct cs as [|ci cs].
  - rewrite (compose_runs_no_colors s st sty (JList []) eq_refl Est).
    eexists. reflexivity.
  - destruct (color_shapes_infos (Z.of_nat (String.length s)) _ Hc) as [rs Hrs].
    destruct (color_loop_ok s st sty (ci :: cs) rs Est Hrs [] 0) as (runs & El).
    rewrite (compose_runs_after_loop s st sty ci cs runs _ Est El).
    eexists. reflexivity.
Qed.

Lemma text_region_ok (pw ph : float) (iw ih : Z) (block : json) :
  block_ok pw ph iw ih block -> exists r, text_region iw ih block = Ok r.
Proof.
  intros (o & -> & _ & Hb & _). unfold text_region.
  cbn [py_contains bind].
  destruct Hb as [Hb|(nx & ny & nw & nh & Hb & Hsc)]; rewrite Hb.
  - rewrite bool_decide_eq_false_2 by (intros [? ?]; discriminate).
    eexists. reflexivity.
  - rewrite bool_decide_eq_true_2 by eauto.
    cbn [py_getitem_key]. rewrite Hb.
    cbn [bind py_unpack py_iter length Nat.eqb].
    unfold bbox_scales in Hsc. rewrite !andb_true_iff in Hsc.
    destruct Hsc as [[[[H1 H2] H3] H4] _].
    destruct (to_pixel nx iw); [|discriminate].
    destruct (to_pixel ny ih); [|discriminate].
    destruct (to_pixel nw iw); [|discriminate].
    destruct (to_pixel nh ih); [|discriminate].
    eexists. reflexivity.
Qed.

Lemma text_block_ok (pw ph : float) (iw ih : Z) (block : json) :
  block_ok pw ph iw ih block -> exists r, text_block pw ph block = Ok r.
Proof.
  intros (o & -> & Ht & Hb & Hs & Hc). unfold text_block.
  cbn [dict_get bind].
  destruct Ht as [Ht|(s & Ht)]; rewrite Ht; cbn [from_option id].
  { eexists. reflexivity. }
  destruct (negb (py_truthy (JStr s))); [eexists; reflexivity|].
  cbn [py_contains bind].
  destruct Hb as [Hb|(nx & ny & nw & nh & Hb & Hsc)]; rewrite Hb.
  { rewrite bool_decide_eq_false_2 by (intros [? ?]; discriminate).
    eexists. reflexivity. }
  rewrite bool_decide_eq_true_2 by eauto.
  cbn [negb py_getitem_key]. rewrite Hb.
  cbn [bind py_unpack py_iter length Nat.eqb].
  unfold bbox_scales in Hsc. rewrite !andb_true_iff in Hsc.
  destruct Hsc as [_ Hg].
  destruct (box_points pw ph nx ny nw nh) as [[[[l t] w] h]|]; [|discriminate].
  cbn [bind] in Hg |- *.
  destruct (Pt l); [|discriminate]. cbn [bind] in Hg |- *.
  destruct (Pt t); [|discriminate]. cbn [bind] in Hg |- *.
  destruct (Pt w); [|discriminate]. cbn [bind] in Hg |- *.
  destruct (Pt h); [|discriminate]. cbn [bind].
  fold (block_style o).
  assert (Hruns : exists runs,
             compose_runs (JStr s) (block_style o)
               (default (JList []) (o !! "colors")) = Ok runs).
  { destruct Hc as [Hc|(cs & Hc & Hcs)]; rewrite Hc.
    - now apply compose_runs_returns.
    - now apply compose_runs_returns. }
  destruct Hruns as [runs Hruns]. rewrite Hruns. cbn [bind].
  eexists. reflexivity.
Qed.

Lemma slide_background_ok (im : image) :
  image_ok im -> exists fill, slide_background im = Ok fill.
Proof.
  intros (Hw & Hh & Hpx). unfold slide_background.
  assert (Hm : multiband im).
  { intros x y. destruct (Hpx x y) as (r & g & b & rest & E & _). eauto. }
  rewrite (get_background_color_samples im Hw Hh Hm). unfold most_common_1.
  destruct (first_max_nonempty (fun x => occurrences x (corner_samples im))
              (hd [] (corner_samples im)) (tl (corner_samples im)))
    as [c Hc].
  change (hd [] (corner_samples im) :: tl (corner_samples im))
    with (corner_samples im) in Hc.
  rewrite Hc. cbn [bind].
  destruct (first_max_spec _ _ _ Hc) as (pre & post & E & _).
  assert (Hin : In c (corner_samples im)).
  { rewrite E. apply in_or_app. right. now left. }
  unfold corner_samples in Hin. apply in_map_iff in Hin as ([x y] & <- & _).
  cbn [fst snd]. destruct (Hpx x y) as (r & g & b & rest & -> & Hbytes).
  cbn [bands_of]. unfold background_fill, RGBColor.
  destruct (3 <? length (r :: g :: b :: rest))%nat; cbn [take];
    rewrite Hbytes; eexists; reflexivity.
Qed.

Lemma overflow_threshold_ge_2 : 2 <= overflow_threshold.
Proof. discriminate. Qed.

(** A quotient of magnitude at most 1 is in range. *)
Lemma int_truediv_small (a b : Z) :
  b <> 0 -> Z.abs a <= Z.abs b -> exists f, int_truediv a b = Ok f.
Proof.
  intros Hb Hab. unfold int_truediv.
  destruct (Z.eqb_spec b 0); [contradiction|].
  pose proof overflow_threshold_ge_2.
  destruct (Z.leb_spec (overflow_threshold * Z.abs b) (Z.abs a)); [nia|].
  eexists. reflexivity.
Qed.

Lemma overlaps_text_ok (c : contour) (t : region) :
  0 < c_w c -> 0 < c_h c -> exists b, overlaps_text c t = Ok b.
Proof.
  intros Hw Hh. destruct t as [[[tx1 ty1] tx2] ty2]. unfold overlaps_text.
  destruct (Z.ltb_spec (Z.max (c_x c) tx1) (Z.min (c_x c + c_w c) tx2));
    destruct (Z.ltb_spec (Z.max (c_y c) ty1) (Z.min (c_y c + c_h c) ty2));
    cbn [andb]; try (eexists; reflexivity).
  destruct (int_truediv_small
              ((Z.min (c_x c + c_w c) tx2 - Z.max (c_x c) tx1)
               * (Z.min (c_y c + c_h c) ty2 - Z.max (c_y c) ty1))
              (c_w c * c_h c)) as [f Hf]; [nia | nia |].
  rewrite Hf. eexists. reflexivity.
Qed.

Lemma is_text_area_ok (c : contour) (ts : list region) :
  0 < c_w c -> 0 < c_h c -> exists b, is_text_area c ts = Ok b.
Proof.
  intros Hw Hh. induction ts as [|t ts [b IH]]; cbn [is_text_area].
  - eexists. reflexivity.
  - destruct (overlaps_text_ok c t Hw Hh) as [[|] Hb]; rewrite Hb; cbn [bind].
    + eexists. reflexivity.
    + eexists. exact IH.
Qed.

Lemma pixel_to_points_ok (px dim : Z) (page_dim : float) :
  0 < dim -> 0 <= px <= dim ->
  exists v, pixel_to_points px dim page_dim = Ok v.
Proof.
  intros Hd Hpx. unfold pixel_to_points.
  destruct (int_truediv_small px dim) as [f Hf]; [lia | lia |].
  rewrite Hf. eexists. reflexivity.
Qed.

Lemma place_contour_ok (pw ph : float) (iw ih : Z) (page : cv_page)
  (ts : list region) (c : contour) :
  contour_ok iw ih c ->
  exists r, place_contour pw ph iw ih page ts c = Ok r.
Proof.
  intros (Hx & Hy & Hw & Hh & Hxw & Hyh). unfold place_contour.
  destruct (c_area c <? 1000)%float; [eexists; reflexivity|].
  destruct (is_text_area_ok c ts Hw Hh) as [[|] Hb]; rewrite Hb; cbn [bind];
    [eexists; reflexivity|].
  destruct (pixel_to_points_ok (c_x c) iw pw) as [v1 E1]; [lia | lia |].
  destruct (pixel_to_points_ok (c_y c) ih ph) as [v2 E2]; [lia | lia |].
  destruct (pixel_to_points_ok (c_w c) iw pw) as [v3 E3]; [lia | lia |].
  destruct (pixel_to_points_ok (c_h c) ih ph) as [v4 E4]; [lia | lia |].
  rewrite E1, E2, E3, E4. cbn [bind]. eexists. reflexivity.
Qed.

Lemma text_block_eligible (pw ph : float) (block : json)
  (r : option textbox) :
  text_block pw ph block = Ok r ->
  has_text_and_box block = match r with Some _ => true | None => false end.
Proof.
  unfold text_block, has_text_and_box. intros H.
  destruct block; try discriminate. cbn [dict_get bind] in H.
  destruct (py_truthy (default (JStr "") (o !! "text"))); cbn [negb andb] in *;
    [|now inversion H].
  cbn [py_contains bind] in H.
  destruct (bool_decide (is_Some (o !! "bbox_1000"))); cbn [negb] in H;
    [|now inversion H].
  bind_ok H. bind_ok H.
  destruct a0 as [|nx [|ny [|nw [|nh [|]]]]]; try discriminate.
  bind_ok H. destruct a0 as [[[l t] w] h].
  bind_ok H. bind_ok H. bind_ok H. bind_ok H.
  cbn [dict_get bind] in H. bind_ok H. now inversion H.
Qed.

Lemma text_block_runs (pw ph : float) (o : gmap string json) (box : textbox) :
  text_block pw ph (JObj o) = Ok (Some box) ->
  compose_runs (default (JStr "") (o !! "text"))
    {| font_size := default (JInt 12) (o !! "font_size_pt");
       font_family := default (JStr "Roboto") (o !! "font_family");
       is_bold := default (JBool false) (o !! "is_bold") |}
    (default (JList []) (o !! "colors"))
  = Ok (box_runs box).
Proof.
  unfold text_block. intros H. cbn [dict_get bind] in H.
  destruct (negb (py_truthy (default (JStr "") (o !! "text"))));
    [discriminate|].
  cbn [py_contains bind] in H.
  destruct (negb (bool_decide (is_Some (o !! "bbox_1000")))); [discriminate|].
  bind_ok H. bind_ok H.
  destruct a0 as [|nx [|ny [|nw [|nh [|]]]]]; try discriminate.
  bind_ok H. destruct a0 as [[[l t] w] h].
  bind_ok H. bind_ok H. bind_ok H. bind_ok H.
  cbn [dict_get bind] in H. bind_ok H. inversion H; subst box.
  reflexivity.
Qed.

(** The boxes of the text pass: one for each block with a text and a
    [bbox_1000], in the order of the blocks, with the runs the composer
    makes of the block. *)
Lemma text_boxes_composed (pw ph : float) (blocks : list json)
  (boxes : list textbox) :
  text_boxes pw ph blocks = Ok boxes ->
  Forall2 box_of_block (List.filter has_text_and_box blocks) boxes.
Proof.
  unfold text_boxes. revert boxes.
  induction blocks as [|b blocks IH]; intros boxes H.
  - inversion H; subst. constructor.
  - cbn [filter_mapM] in H. bind_ok H. bind_ok H. inversion H; subst boxes.
    cbn [List.filter]. rewrite (text_block_eligible pw ph b a E).
    destruct a as [box|]; [|now apply IH].
    constructor; [|now apply IH].
    destruct b; try discriminate. exists o. split; [reflexivity|].
    now apply (text_block_runs pw ph).
Qed.

Lemma process_page_text_boxes (pw ph : float) (im : image)
  (cv : option cv_page) (o : gmap string json) (blocks : list json)
  (s : slide) :
  default (JList []) (o !! "blocks") = JList blocks ->
  process_page pw ph im cv (JObj o) = Ok s ->
  text_boxes pw ph blocks = Ok (textboxes s).
Proof.
  intros Hb H. unfold process_page in H. bind_ok H. bind_ok H.
  cbn [dict_get bind] in H. rewrite Hb in H. bind_ok H.
  cbn [py_iter bind] in H. bind_ok H. now inversion H.
Qed.

(** C5 (as amended). A page whose blocks are dicts in which any field
    may be missing, and in which a field that is present has its
    declared shape (a text string, a [bbox_1000] of four numbers that
    scale to finite values, a font size, typeface and bold flag that
    python-pptx accepts, colour ranges with integer bounds of any value
    and colours that python-pptx accepts), gets its slide when the page
    image has at least 11 x 11 pixels of three or more bands in 0..255
    and the contours lie within it: no exception aborts the page, a
    block without text or without [bbox_1000] leaves no text box, and
    every other block gets one, in the order of the blocks, with the
    runs the composer makes of its text and colours under its style,
    12 pt, Roboto, not bold and no colours standing for what it does
    not have. *)
Theorem page_tolerates_missing_fields (pw ph : float) (im : image)
  (cv : option cv_page) (o : gmap string json) (blocks : list json) :
  image_ok im ->
  default (JList []) (o !! "blocks") = JList blocks ->
  Forall (block_ok pw ph (img_width im) (img_height im)) blocks ->
  match cv with
  | Some page =>
      Forall (contour_ok (img_width im) (img_height im)) (contours page)
  | None => True
  end ->
  exists s,
    process_page pw ph im cv (JObj o) = Ok s
    /\ Forall2 box_of_block (List.filter has_text_and_box blocks)
         (textboxes s).
Proof.
  intros Him Hblocks Hbs Hcv.
  assert (Hs : exists s, process_page pw ph im cv (JObj o) = Ok s).
  { destruct (slide_background_ok im Him) as [fill Hfill].
    unfold slide_background in Hfill. unfold process_page.
    bind_ok Hfill. cbn [bind]. rewrite Hfill. cbn [bind dict_get].
    rewrite Hblocks. cbn [py_iter bind].
    destruct (filter_mapM_ok (text_block pw ph) blocks) as [boxes Hboxes].
    { eapply Forall_impl; [exact Hbs|]. intros b. apply text_block_ok. }
    unfold text_boxes. rewrite Hboxes.
    destruct cv as [page|]; cbn [bind]; [|eexists; reflexivity].
    unfold extract_graphics, text_regions.
    destruct (filter_mapM_ok (text_region (img_width im) (img_height im))
                blocks) as [ts Hts].
    { eapply Forall_impl; [exact Hbs|]. intros b. apply text_region_ok. }
    rewrite Hts. cbn [bind].
    destruct (filter_mapM_ok
                (place_contour pw ph (img_width im) (img_height im) page ts)
                (contours page)) as [pics Hpics].
    { eapply Forall_impl; [exact Hcv|]. intros c. apply place_contour_ok. }
    rewrite Hpics. cbn [bind]. eexists. reflexivity. }
  destruct Hs as [s Hs]. exists s. split; [exact Hs|].
  apply (text_boxes_composed pw ph).
  now apply (process_page_text_boxes pw ph im cv o).
Qed.

Lemma page_tolerates_missing_fields_witness :
  exists s,
    process_page 500 500 (plain_image 100 100 [255; 255; 255])
      (Some sample_cv_page) (JObj sparse_page) = Ok s
    /\ Forall2 box_of_block
         (List.filter has_text_and_box [full_block; bare_block; sparse_block])
         (textboxes s).
Proof.
  apply (page_tolerates_missing_fields 500 500
           (plain_image 100 100 [255; 255; 255]) (Some sample_cv_page)
           sparse_page [full_block; bare_block; sparse_block]).
  - split; [cbn; lia|]. split; [cbn; lia|].
    intros x y. exists 255, 255, 255, []. split; reflexivity.
  - reflexivity.
  - repeat constructor.
    + eexists. split; [reflexivity|].
      split; [right; eexists; reflexivity|].
      split; [right; do 4 eexists; split; [reflexivity | vm_compute; reflexivity]|].
      split; [reflexivity|].
      right. eexists. split; [reflexivity|]. repeat constructor.
      eexists. split; [reflexivity|].
      split; [right; do 2 eexists; reflexivity | reflexivity].
    + eexists. split; [reflexivity|].
      split; [right; eexists; reflexivity|].
      split; [left; reflexivity|].
      split; [reflexivity|]. left. reflexivity.
    + eexists. split; [reflexivity|].
      split; [right; eexists; reflexivity|].
      split; [right; do 4 eexists; split; [reflexivity | vm_compute; reflexivity]|].
      split; [reflexivity|].
      right. eexists. split; [reflexivity|]. repeat constructor.
      eexists. split; [reflexivity|].
      split; [left; reflexivity | reflexivity].
  - repeat constructor; cbn; lia.
Defined.

(** C5, as stated, fails: a [bbox_1000] of three numbers cannot be
    unpacked into four, and the exception leaves the page loop, whether
    or not the raster was decoded. *)
Lemma short_bbox_aborts_page :
  process_page 500 500 (plain_image 100 100 [255; 255; 255]) None
    short_bbox_page = Raise ValueError
  /\ process_page 500 500 (plain_image 100 100 [255; 255; 255])
       (Some sample_cv_page) short_bbox_page = Raise ValueError.
Proof. split; vm_compute; reflexivity. Qed.

(** ** The end-to-end scenarios of the specification *)

(** A block with no colours gives one text box with one black run. *)
Example scenario_hello :
  text_boxes 1000 500 [hello_block]
  = Ok [{| box_left := 0; box_top := 0;
           box_width := 500 * 12700; box_height := 50 * 12700;
           box_runs := [styled "Hello" (1200, "Roboto", Some false) black] |}].
Proof. vm_compute. reflexivity. Qed.

(** A range over the first of two characters gives a red run and a
    black one for the rest. *)
Example scenario_coverage_completion :
  compose_runs (JStr "AB") sample_style (JList [red_range 0 1])
  = Ok [styled "A" (1200, "Roboto", Some false) (255, 0, 0);
        styled "B" (1200, "Roboto", Some false) black].
Proof. vm_compute. reflexivity. Qed.

(** A contour far from every text box is placed; one that shares 0.4
    of its box with a text box is not. *)
Example scenario_far_contour :
  (exists pics,
     extract_graphics 500 500 100 100 (Some sample_cv_page) [hello_block]
     = Ok pics /\ map pic_src pics = [sample_contour])
  /\ extract_graphics 500 500 100 100
       (Some {| contours := [{| c_area := 1200; c_x := 0; c_y := 0;
                                c_w := 50; c_h := 25 |}];
                add_picture_ok := fun _ => true |})
       [hello_block]
     = Ok [].
Proof. split; [eexists; split|]; vm_compute; reflexivity. Qed.

(** * Further properties of the code *)

(** ** Runs of a block *)

Lemma emit_run_inv (txt : json) (st : style) (color : option json) (r : run) :
  emit_run txt st color = Ok r ->
  txt = JStr (run_text r) /\ has_block_style st r.
Proof.
  unfold emit_run, has_block_style. intros H.
  destruct txt; try discriminate. cbn [bind] in H.
  bind_ok H. bind_ok H. bind_ok H. bind_ok H. bind_ok H.
  inversion H; subst r. cbn [run_text run_size run_font run_bold].
  split; [reflexivity|].
  assert (Hs : style_of st = Ok (a0, a2, a3)).
  { unfold style_of. rewrite E. cbn [bind]. rewrite E0. cbn [bind].
    rewrite E2. cbn [bind]. rewrite E3. reflexivity. }
  exists a0, a2, a3. split; [exact Hs|].
  split; [exact (proj1 (style_of_fields st _ Hs))|]. repeat split.
Qed.

(** What one turn of the colour loop does to the runs and to [covered]. *)
Lemma color_step_inv (text : json) (st : style) (runs runs' : list run)
  (covered covered' : Z) (ci : json) :
  color_step text st (runs, covered) ci = Ok (runs', covered') ->
  covered <= covered'
  /\ (runs' = runs
      \/ exists r txt col,
           runs' = runs ++ [r] /\ py_truthy txt = true
           /\ emit_run txt st col = Ok r).
Proof.
  unfold color_step. intros H. destruct ci; try discriminate.
  bind_ok H. bind_ok H.
  destruct a0 as [|start [|stop [|]]]; try discriminate.
  bind_ok H. bind_ok H. bind_ok H. inversion H; subst; clear H.
  split.
  - destruct stop; try discriminate; cbn in E3; inversion E3; lia.
  - destruct (py_truthy a0) eqn:Et.
    + bind_ok E2. inversion E2; subst. right. eauto 6.
    + inversion E2; subst. now left.
Qed.

(** A property of runs that every emitted run has survives the loop. *)
Lemma color_loop_inv (P : run -> Prop) (text : json) (st : style)
  (cs : list json) :
  (forall r txt col,
     py_truthy txt = true -> emit_run txt st col = Ok r -> P r) ->
  forall runs covered runs' covered',
    foldM (color_step text st) cs (runs, covered) = Ok (runs', covered') ->
    Forall P runs ->
    covered <= covered'
    /\ Forall P runs'
    /\ (length runs' <= length runs + length cs)%nat.
Proof.
  intros HP. induction cs as [|ci cs IH]; intros runs covered runs' covered' H Hr.
  - inversion H; subst. split; [lia|]. split; [assumption | cbn; lia].
  - cbn [foldM] in H. bind_ok H. destruct a as [runs1 covered1].
    destruct (color_step_inv _ _ _ _ _ _ _ E) as [Hc Hruns].
    assert (Hr1 : Forall P runs1 /\ (length runs1 <= S (length runs))%nat).
    { destruct Hruns as [->|(r & txt & col & -> & Ht & He)].
      - split; [assumption | lia].
      - split.
        + apply Forall_app. split; [assumption|]. repeat constructor. eauto.
        + rewrite length_app. cbn. lia. }
    destruct Hr1 as [Hr1 Hl1].
    destruct (IH _ _ _ _ H Hr1) as (Hc' & Hr' & Hl').
    split; [lia|]. split; [assumption|]. cbn [length]. lia.
Qed.

(** What the colour branch of [compose_runs] returns satisfies what
    every emitted run satisfies, and has at most one run more than there
    are colours. *)
Lemma compose_runs_inv (P : run -> Prop) (text : json) (st : style)
  (colors : json) (runs : list run) :
  (forall r txt col,
     (py_truthy text = true -> py_truthy txt = true) ->
     emit_run txt st col = Ok r -> P r) ->
  py_truthy colors = true ->
  compose_runs text st colors = Ok runs ->
  Forall P runs
  /\ forall items, py_iter colors = Ok items ->
       (length runs <= length items + 1)%nat.
Proof.
  intros HP Ec. unfold compose_runs. rewrite Ec. intros H.
  bind_ok H. bind_ok H. destruct a0 as [runs1 covered]. bind_ok H.
  cbn [fst snd] in H.
  destruct (color_loop_inv P text st a) with (runs := @nil run)
    (covered := 0) (runs' := runs1) (covered' := covered)
    as (Hc & Hr & Hl); [eauto | assumption | constructor |].
  destruct (Z.ltb_spec covered a0) as [Hlt|Hge].
  - bind_ok H. bind_ok H. inversion H; subst runs.
    assert (Ht : py_truthy a1 = true).
    { destruct text; try discriminate; cbn in E2, E1.
      - inversion E2; subst a1. inversion E1; subst a0. cbn.
        unfold str_slice. rewrite seq_slice_from by lia.
        rewrite <- length_list_ascii_of_string in Hlt.
        destruct (drop (Z.to_nat covered) (list_ascii_of_string s)) eqn:Ed;
          [|reflexivity].
        apply (f_equal length) in Ed. rewrite length_drop in Ed.
        cbn in Ed. lia.
      - inversion E2; subst a1. inversion E1; subst a0. cbn.
        rewrite seq_slice_from by lia.
        destruct (drop (Z.to_nat covered) l) eqn:Ed; [|reflexivity].
        apply (f_equal length) in Ed. rewrite length_drop in Ed.
        cbn in Ed. lia. }
    split.
    + apply Forall_app. split; [assumption|]. repeat constructor. eauto.
    + intros items Hi. inversion Hi; subst items.
      rewrite length_app. cbn in *. lia.
  - inversion H; subst runs. split; [assumption|].
    intros items Hi. inversion Hi; subst items. cbn in *. lia.
Qed.

(** What the branch without colours returns: nothing for a text of line
    breaks only, else one emitted run and a plain run for each further
    piece of the text. *)
Lemma compose_runs_plain_inv (text : json) (st : style) (colors : json)
  (runs : list run) :
  py_truthy colors = false ->
  compose_runs text st colors = Ok runs ->
  exists s,
    text = JStr s
    /\ match paragraph_runs s with
       | [] => runs = []
       | t :: rest =>
           exists r, emit_run (JStr t) st None = Ok r
                     /\ runs = r :: map plain rest
       end.
Proof.
  intros Ec. unfold compose_runs. rewrite Ec. intros H.
  destruct text; try discriminate. exists s. split; [reflexivity|].
  destruct (paragraph_runs s) as [|t rest]; [now inversion H|].
  bind_ok H. inversion H; subst runs. eauto.
Qed.

(** X1. In a block with colours every run has the size, the typeface
    and the bold flag of its block: only the colour and the text of a
    run vary, and the typeface is the very string of the block. In a
    block without colours only the first run of the paragraph has them:
    a run that follows a line break carries no style at all. *)
Theorem compose_runs_uniform_style (text : json) (st : style)
  (colors : json) (runs : list run) :
  compose_runs text st colors = Ok runs ->
  if py_truthy colors then Forall (has_block_style st) runs
  else match runs with
       | [] => True
       | r :: rest =>
           has_block_style st r
           /\ Forall (fun r' => r' = plain (run_text r')) rest
       end.
Proof.
  intros H. destruct (py_truthy colors) eqn:Ec.
  - apply (compose_runs_inv _ text st colors runs); [|assumption|assumption].
    intros r txt col _ He. now apply (emit_run_inv txt st col).
  - destruct (compose_runs_plain_inv text st colors runs Ec H) as (s & -> & Hr).
    destruct (paragraph_runs s) as [|t rest]; [now subst runs|].
    destruct Hr as (r & He & ->). split.
    + now apply (emit_run_inv (JStr t) st None).
    + apply Forall_map. apply Forall_true. intros t'. reflexivity.
Qed.

Lemma compose_runs_uniform_style_witness :
  has_block_style heading_style
    (styled "A" (2400, "Noto Sans JP", Some true) black)
  /\ Forall (fun r' => r' = plain (run_text r')) [plain "B"].
Proof.
  apply (compose_runs_uniform_style (JStr two_lines) heading_style
           (JList []) two_line_runs).
  vm_compute. reflexivity.
Defined.

(** X2. The composer never adds an empty run: whatever the colour
    ranges are, every run of a block with a non-empty text holds at
    least one character. *)
Theorem compose_runs_no_empty_run (text : json) (st : style)
  (colors : json) (runs : list run) :
  py_truthy text = true ->
  compose_runs text st colors = Ok runs ->
  Forall (fun r => run_text r <> "") runs.
Proof.
  intros Ht H. destruct (py_truthy colors) eqn:Ec.
  - apply (compose_runs_inv _ text st colors runs); [|assumption|assumption].
    intros r txt col Htxt He.
    destruct (emit_run_inv txt st col r He) as [-> _].
    specialize (Htxt Ht). intros E. rewrite E in Htxt. discriminate.
  - destruct (compose_runs_plain_inv text st colors runs Ec H) as (s & -> & Hr).
    pose proof (paragraph_runs_nonempty s) as Hne.
    destruct (paragraph_runs s) as [|t rest]; [subst runs; constructor|].
    destruct Hr as (r & He & ->).
    inversion Hne as [|? ? Ht' Hrest]; subst. constructor.
    + destruct (emit_run_inv (JStr t) st None r He) as [E _].
      inversion E; subst t. exact Ht'.
    + apply Forall_map. exact Hrest.
Qed.

Lemma compose_runs_no_empty_run_witness :
  Forall (fun r => run_text r <> "")
    [styled "B" (1200, "Roboto", Some false) black].
Proof.
  apply (compose_runs_no_empty_run (JStr "AB") sample_style
           (JList [red_range 2 1])).
  - reflexivity.
  - vm_compute. reflexivity.
Defined.

(** X3. A block with colour ranges gets at most one run per range, and
    one more for the text after the last range. (Without a colour range
    the runs are the pieces of the text between its line breaks.) *)
Theorem compose_runs_length (text : json) (st : style) (cs : list json)
  (runs : list run) :
  cs <> [] ->
  compose_runs text st (JList cs) = Ok runs ->
  (length runs <= length cs + 1)%nat.
Proof.
  intros Hne H.
  apply (compose_runs_inv (fun _ => True) text st (JList cs) runs);
    [auto | | assumption | reflexivity].
  destruct cs; [congruence | reflexivity].
Qed.

Lemma compose_runs_length_witness :
  (length sample_runs <= length [red_range 0 1] + 1)%nat.
Proof.
  apply (compose_runs_length (JStr "AB") sample_style [red_range 0 1]).
  - discriminate.
  - vm_compute. reflexivity.
Defined.

(** X4. A single colour range that starts at 0 and ends at the end of
    the text or beyond it (or has no [range] at all) colours the whole
    text: the block gets exactly one run, in the declared colour, and no
    black remainder. *)
Theorem compose_runs_overlong_range (s : string) (st : style)
  (sty : Z * string * option bool) (o : gmap string json) (e : Z) (c : rgb) :
  style_of st = Ok sty ->
  s <> "" ->
  default (JList [JInt 0; JInt (Z.of_nat (String.length s))]) (o !! "range")
    = JList [JInt 0; JInt e] ->
  Z.of_nat (String.length s) <= e ->
  color_of_json (default default_rgb (o !! "rgb")) = Ok c ->
  compose_runs (JStr s) st (JList [JObj o]) = Ok [styled s sty c].
Proof.
  intros Hs Hne Hr He Hc.
  rewrite (compose_runs_after_loop s st sty (JObj o) [] [styled s sty c] e Hs).
  - destruct (Z.ltb_spec e (Z.of_nat (String.length s))); [lia | reflexivity].
  - cbn [foldM]. rewrite (color_step_spec s st sty [] 0 o 0 e c Hs Hr Hc).
    cbn [bind foldM].
    assert (Hall : str_slice s (Some 0) (Some e) = s).
    { pose proof (str_prefix_extends s 0 e) as H.
      rewrite (str_prefix_all s e) in H by lia. apply H. lia. }
    rewrite Hall, Z.max_r by lia.
    destruct s; [congruence | reflexivity].
Qed.

Lemma compose_runs_overlong_range_witness :
  compose_runs (JStr "AB") sample_style (JList [red_range 0 30])
  = Ok [styled "AB" (1200, "Roboto", Some false) (255, 0, 0)].
Proof.
  apply (compose_runs_overlong_range "AB" sample_style
           (1200, "Roboto", Some false) _ 30 (255, 0, 0)).
  - reflexivity.
  - discriminate.
  - reflexivity.
  - cbn. lia.
  - reflexivity.
Defined.

(** ** The text pass *)

(** X5. The text pass gives exactly one text box per block that has a
    non-empty text and a [bbox_1000], in the order of the blocks; a
    block without one of the two leaves nothing on the slide. *)
Theorem text_boxes_one_per_block (pw ph : float) (blocks : list json)
  (boxes : list textbox) :
  text_boxes pw ph blocks = Ok boxes ->
  Forall2 (fun b box => text_block pw ph b = Ok (Some box))
    (List.filter has_text_and_box blocks) boxes.
Proof.
  unfold text_boxes. revert boxes.
  induction blocks as [|b blocks IH]; intros boxes H.
  - inversion H; subst. constructor.
  - cbn [filter_mapM] in H. bind_ok H. bind_ok H. inversion H; subst boxes.
    cbn [List.filter]. rewrite (text_block_eligible pw ph b a E).
    destruct a as [box|].
    + constructor; [assumption | now apply IH].
    + now apply IH.
Qed.

Lemma text_boxes_one_per_block_witness :
  Forall2 (fun b box => text_block 500 500 b = Ok (Some box))
    (List.filter has_text_and_box [bare_block; narrow_block])
    [{| box_left := 0; box_top := 0; box_width := 635000;
        box_height := 5080000;
        box_runs := [styled "Hello" (1200, "Roboto", Some false) black] |}].
Proof.
  apply (text_boxes_one_per_block 500 500 [bare_block; narrow_block]).
  vm_compute. reflexivity.
Defined.

(** ** More on the Graphic Region Extractor *)

Lemma filter_mapM_sublist {A B} (f : A -> result (option B)) (g : B -> A)
  (l : list A) (rs : list B) :
  (forall x r, f x = Ok (Some r) -> g r = x) ->
  filter_mapM f l = Ok rs ->
  sublist (map g rs) l.
Proof.
  intros Hg. revert rs. induction l as [|a l IH]; intros rs H.
  - inversion H; subst. constructor.
  - cbn [filter_mapM] in H. bind_ok H. bind_ok H. inversion H; subst rs.
    destruct a0 as [b|].
    + cbn [map]. rewrite (Hg a b E). constructor. now apply IH.
    + constructor. now apply IH.
Qed.

Lemma place_contour_large (pw ph : float) (iw ih : Z) (page : cv_page)
  (ts : list region) (c : contour) (p : picture) :
  place_contour pw ph iw ih page ts c = Ok (Some p) ->
  (c_area c <? 1000)%float = false.
Proof.
  unfold place_contour. intros H.
  destruct (c_area c <? 1000)%float; [discriminate | reflexivity].
Qed.

(** X6. The extractor never places a contour whose area is below 1000
    square pixels, whatever the text blocks are. *)
Theorem placed_graphics_are_large (pw ph : float) (iw ih : Z)
  (page : cv_page) (blocks : list json) (pics : list picture) :
  extract_graphics pw ph iw ih (Some page) blocks = Ok pics ->
  Forall (fun p => (c_area (pic_src p) <? 1000)%float = false) pics.
Proof.
  unfold extract_graphics. intros H. bind_ok H.
  apply Forall_forall. intros p Hp. apply list_elem_of_In in Hp.
  destruct (filter_mapM_In _ _ _ p H Hp) as (c & Hc & Hplace).
  destruct (place_contour_placed _ _ _ _ _ _ _ _ Hplace) as [-> _].
  now apply (place_contour_large _ _ _ _ _ _ _ _ Hplace).
Qed.

Lemma placed_graphics_are_large_witness :
  Forall (fun p => (c_area (pic_src p) <? 1000)%float = false)
    [{| pic_src := sample_contour; pic_left := 3175000; pic_top := 3175000;
        pic_width := 2540000; pic_height := 2540000 |}].
Proof.
  apply (placed_graphics_are_large 500 500 100 100
           {| contours := [{| c_area := 999; c_x := 0; c_y := 0;
                              c_w := 40; c_h := 40 |}; sample_contour];
              add_picture_ok := fun _ => true |}
           [narrow_block]).
  vm_compute. reflexivity.
Defined.

(** X7. The pictures of a slide follow the order in which OpenCV listed
    the contours, with at most one picture per contour. *)
Theorem placed_graphics_keep_order (pw ph : float) (iw ih : Z)
  (page : cv_page) (blocks : list json) (pics : list picture) :
  extract_graphics pw ph iw ih (Some page) blocks = Ok pics ->
  sublist (map pic_src pics) (contours page).
Proof.
  unfold extract_graphics. intros H. bind_ok H.
  apply (filter_mapM_sublist _ pic_src _ _) in H; [assumption|].
  intros c p Hp. now destruct (place_contour_placed _ _ _ _ _ _ _ _ Hp).
Qed.

Lemma placed_graphics_keep_order_witness :
  sublist
    (map pic_src
       [{| pic_src := sample_contour; pic_left := 3175000;
           pic_top := 3175000; pic_width := 2540000;
           pic_height := 2540000 |}])
    (contours sample_cv_page).
Proof.
  apply (placed_graphics_keep_order 500 500 100 100 sample_cv_page
           [narrow_block]).
  vm_compute. reflexivity.
Defined.

(** X8. Text regions that have no rectangle of positive area in common
    with the box of a contour never make it text, and the overlap test
    raises nothing on them, also for a box of width or height 0: the
    division is only reached for a region that meets the box. *)
Theorem is_text_area_disjoint (c : contour) (ts : list region) :
  Forall (fun t => meets c t = false) ts ->
  is_text_area c ts = Ok false.
Proof.
  induction 1 as [|t ts Ht _ IH]; [reflexivity|].
  cbn [is_text_area]. unfold overlaps_text.
  destruct t as [[[tx1 ty1] tx2] ty2]. unfold meets in Ht. rewrite Ht.
  cbn [bind]. exact IH.
Qed.

Lemma is_text_area_disjoint_witness :
  is_text_area {| c_area := 0; c_x := 5; c_y := 5; c_w := 0; c_h := 0 |}
    [(0, 0, 50, 10); (60, 60, 70, 70)] = Ok false.
Proof.
  apply (is_text_area_disjoint
           {| c_area := 0; c_x := 5; c_y := 5; c_w := 0; c_h := 0 |}).
  repeat constructor.
Defined.

(** ** More on the Background Estimator *)

Lemma first_max_head {A} (score : A -> nat) (a : A) (l : list A) :
  (forall y, In y l -> (score y <= score a)%nat) ->
  first_max score (a :: l) = Some a.
Proof.
  intros H. cbn [first_max].
  destruct (first_max score l) as [y|] eqn:E; [|reflexivity].
  destruct (first_max_spec score l y E) as (pre & post & -> & _).
  assert (Hy : (score y <= score a)%nat).
  { apply H. apply in_or_app. right. now left. }
  destruct (Nat.ltb_spec (score a) (score y)); [lia | reflexivity].
Qed.

(** X9. The estimate is the colour of the top-left sample unless
    another corner colour is strictly more frequent: ties, and four
    different corners, go to the top-left corner. *)
Theorem get_background_color_prefers_top_left (im : image) (c : list Z) :
  11 <= img_width im ->
  11 <= img_height im ->
  multiband im ->
  hd_error (corner_samples im) = Some c ->
  (forall y, (occurrences y (corner_samples im)
              <= occurrences c (corner_samples im))%nat) ->
  get_background_color im = Ok c.
Proof.
  intros Hw Hh Hm Hc Hmax.
  rewrite (get_background_color_samples im Hw Hh Hm). unfold most_common_1.
  destruct (corner_samples im) as [|a l] eqn:E; [discriminate|].
  inversion Hc; subst a.
  rewrite first_max_head; [reflexivity|]. intros y _. apply Hmax.
Qed.

Lemma get_background_color_prefers_top_left_witness :
  get_background_color corner_test_image = Ok top_left_colour.
Proof.
  apply (get_background_color_prefers_top_left corner_test_image).
  - cbn. lia.
  - cbn. lia.
  - intros x y. eexists. reflexivity.
  - reflexivity.
  - intros y.
    change (occurrences top_left_colour (corner_samples corner_test_image))
      with 1%nat.
    change (corner_samples corner_test_image)
      with [[10; 10; 0]; [9; 10; 0]; [10; 9; 0]; [9; 9; 0]].
    unfold occurrences. rewrite !filter_cons, filter_nil.
    repeat case_decide; subst; cbn [length]; try lia; discriminate.
Defined.

(** X10. Whatever the image, a colour the estimator returns is that of
    one of the four sampled places with at most its first three bands:
    an alpha band never reaches the slide background, and no colour is
    made up. *)
Theorem get_background_color_is_a_corner (im : image) (c : list Z) :
  get_background_color im = Ok c ->
  (length c <= 3)%nat
  /\ exists x y l,
       In (x, y) (corners im)
       /\ getpixel im x y = Ok (PxBands l)
       /\ c = (if (3 <? length l)%nat then take 3 l else l).
Proof.
  unfold get_background_color. intros H.
  bind_ok H. bind_ok H. bind_ok H. bind_ok H.
  bind_ok H. bind_ok H. bind_ok H. bind_ok H.
  unfold most_common_1 in H.
  destruct (first_max _ _) as [x|] eqn:Ef; [|discriminate].
  inversion H; subst x; clear H.
  destruct (first_max_spec _ _ _ Ef) as (pre & post & El & _).
  assert (Hin : In c [a3; a4; a5; a6]).
  { rewrite El. apply in_or_app. right. now left. }
  assert (Hstrip : forall p s, strip_alpha p = Ok s ->
            exists l, p = PxBands l
                      /\ s = (if (3 <? length l)%nat then take 3 l else l)).
  { intros p s Hp. destruct p; [|discriminate]. inversion Hp. eauto. }
  assert (Hex : exists x y l,
             In (x, y) (corners im) /\ getpixel im x y = Ok (PxBands l)
             /\ c = (if (3 <? length l)%nat then take 3 l else l)).
  { unfold corners.
    destruct Hin as [<-|[<-|[<-|[<-|[]]]]].
    - destruct (Hstrip _ _ E3) as (l & -> & ->). do 3 eexists.
      split; [left; reflexivity|]. split; [exact E | reflexivity].
    - destruct (Hstrip _ _ E4) as (l & -> & ->). do 3 eexists.
      split; [right; left; reflexivity|]. split; [exact E0 | reflexivity].
    - destruct (Hstrip _ _ E5) as (l & -> & ->). do 3 eexists.
      split; [do 2 right; left; reflexivity|].
      split; [exact E1 | reflexivity].
    - destruct (Hstrip _ _ E6) as (l & -> & ->). do 3 eexists.
      split; [do 3 right; left; reflexivity|].
      split; [exact E2 | reflexivity]. }
  split; [|exact Hex].
  destruct Hex as (x & y & l & _ & _ & ->).
  destruct (Nat.ltb_spec 3 (length l)); [|lia].
  rewrite length_take. lia.
Qed.

Lemma get_background_color_is_a_corner_witness :
  (length top_left_colour <= 3)%nat
  /\ exists x y l,
       In (x, y) (corners corner_test_image)
       /\ getpixel corner_test_image x y = Ok (PxBands l)
       /\ top_left_colour = (if (3 <? length l)%nat then take 3 l else l).
Proof.
  apply (get_background_color_is_a_corner corner_test_image).
  reflexivity.
Defined.

(** ** More on the progress of a job *)

(** X11. The wait loop moves the progress up by one per turn and stops
    it at 95: after [n] turns from a progress [p <= 95] the progress is
    [min(95, p + n)], the values written are the ones in between, and
    the loop raises nothing. *)
Theorem wait_loop_saturates (n : nat) (j : job) :
  progress j <= 95 ->
  wait_loop n j
  = ({| progress := Z.min 95 (progress j + Z.of_nat n);
        written := written j
                   ++ map (fun i => Z.min 95 (progress j + Z.of_nat i))
                        (seq 1 n) |},
     Ok tt).
Proof.
  unfold wait_loop. revert j.
  assert (H : forall (l : list nat) j, progress j <= 95 ->
            for_each l (fun _ => p <~ get_progress ;;
                                 set_progress (Z.min 95 (p + 1))) j
            = ({| progress := Z.min 95 (progress j + Z.of_nat (length l));
                  written := written j
                             ++ map (fun i => Z.min 95 (progress j + Z.of_nat i))
                                  (seq 1 (length l)) |},
               Ok tt)).
  { induction l as [|x l IH]; intros j Hj.
    - cbn. rewrite Z.add_0_r, Z.min_r, app_nil_r by lia. now destruct j.
    - cbn [for_each]. unfold tbind at 1. unfold tbind at 1.
      unfold get_progress at 1. unfold set_progress at 1.
      rewrite IH by (cbn; lia). cbn [progress written length].
      apply (f_equal2 pair); [|reflexivity].
      apply (f_equal2 Build_job); [lia|].
      rewrite <- app_assoc. f_equal. cbn [seq map app]. f_equal.
      rewrite <- (seq_shift (length l) 1), map_map. apply map_ext. intros i. lia. }
  intros j Hj. specialize (H (seq 0 n) j Hj). now rewrite length_seq in H.
Qed.

Lemma wait_loop_saturates_witness :
  wait_loop 40 {| progress := 65; written := [65] |}
  = ({| progress := Z.min 95 (65 + Z.of_nat 40);
        written := [65] ++ map (fun i => Z.min 95 (65 + Z.of_nat i))
                             (seq 1 40) |},
     Ok tt).
Proof.
  apply (wait_loop_saturates 40 {| progress := 65; written := [65] |}).
  cbn. lia.
Defined.

(** X12. A document without pages never gets past the first look at
    page 0: whatever else the run would have met, the job ends with the
    progress reset to 0 and no other value written. *)
Theorem empty_document_fails (env : job_env) (j0 : job) :
  total_pages env = 0%nat ->
  process_pdf_with_gemini env j0
  = {| progress := 0; written := written j0 ++ [0] |}.
Proof.
  intros Ht. unfold process_pdf_with_gemini, run_try, try_body. rewrite Ht.
  unfold cbind at 1. unfold on_job at 1, external at 1, lift at 1.
  cbn [held recorded].
  destruct (open_fails env); reflexivity.
Qed.

Lemma empty_document_fails_witness :
  process_pdf_with_gemini empty_document_env uploaded
  = {| progress := 0; written := written uploaded ++ [0] |}.
Proof.
  apply (empty_document_fails empty_document_env uploaded). reflexivity.
Defined.

Lemma cbind_ends_with {A B} (v : Z) (m : coroutine A) (k : A -> coroutine B) :
  (forall a s s' b, k a s = (s', Ok b) ->
     progress (held s') = v /\ last (written (held s')) = Some v) ->
  forall s s' b, cbind m k s = (s', Ok b) ->
    progress (held s') = v /\ last (written (held s')) = Some v.
Proof.
  intros Hk s s' b. unfold cbind.
  destruct (m s) as [s1 [a|e]]; [apply Hk | discriminate].
Qed.

Lemma try_body_ends_at_100 (env : job_env) (s s' : activation) (u : unit) :
  try_body env s = (s', Ok u) ->
  progress (held s') = 100 /\ last (written (held s')) = Some 100.
Proof.
  unfold try_body. revert s s' u.
  repeat (apply cbind_ends_with; intros _).
  intros s s' u [= <-]. cbn [held progress written]. split; [reflexivity|].
  apply last_snoc.
Qed.

(** Pieces that leave the job in [jobs] when no clean-up is served. *)
Lemma cbind_keeps {A B} (m : coroutine A) (k : A -> coroutine B) :
  (forall s, recorded s = true -> recorded (fst (m s)) = true) ->
  (forall a s, recorded s = true -> recorded (fst (k a s)) = true) ->
  forall s, recorded s = true -> recorded (fst (cbind m k s)) = true.
Proof.
  intros Hm Hk s Hs. specialize (Hm s Hs). unfold cbind.
  destruct (m s) as [s1 [a|e]]; [now apply Hk | exact Hm].
Qed.

Lemma on_job_keeps {A} (m : task A) (s : activation) :
  recorded s = true -> recorded (fst (on_job m s)) = true.
Proof. intros Hs. unfold on_job. now destruct (m (held s)). Qed.

Lemma each_keeps {A} (l : list A) (body : A -> coroutine unit) :
  (forall x s, recorded s = true -> recorded (fst (body x s)) = true) ->
  forall s, recorded s = true -> recorded (fst (each l body s)) = true.
Proof.
  intros Hb. induction l as [|x l IH]; intros s Hs; [exact Hs|].
  cbn [each]. apply cbind_keeps; [apply Hb | intros _; exact IH | exact Hs].
Qed.

Lemma try_body_keeps (env : job_env) (s : activation) :
  (forall p, cleanup_during env p = false) ->
  recorded s = true -> recorded (fst (try_body env s)) = true.
Proof.
  intros Hc. revert s. unfold try_body.
  assert (Hsleep : forall p s, recorded s = true ->
                     recorded (fst (sleep env p s)) = true).
  { intros p s Hs. unfold sleep. cbn [fst recorded]. now rewrite Hs, Hc. }
  repeat (apply cbind_keeps; [|intros _]);
    try (intros s; apply on_job_keeps);
    apply each_keeps; intros x; apply cbind_keeps;
      solve [intros s; apply on_job_keeps | intros _; apply Hsleep].
Qed.

(** X13. A run that raises nothing leaves the progress at 100. A run
    that raises leaves it at 0 when [jobs] still has the job, which is
    so whenever no clean-up of the job was served during a pause of the
    run; in both cases that value is the last one written. When the job
    was deleted meanwhile, the handler raises in turn and the dict stays
    as the [try:] block left it. *)
Theorem job_ends_at_0_or_100 (env : job_env) (j0 : job) :
  (if completes env j0
   then progress (process_pdf_with_gemini env j0) = 100
        /\ last (written (process_pdf_with_gemini env j0)) = Some 100
   else if job_kept env j0
   then progress (process_pdf_with_gemini env j0) = 0
        /\ last (written (process_pdf_with_gemini env j0)) = Some 0
   else process_pdf_with_gemini env j0 = held (fst (run_try env j0)))
  /\ ((forall p, cleanup_during env p = false) -> job_kept env j0 = true).
Proof.
  split.
  - unfold process_pdf_with_gemini, completes, job_kept.
    destruct (run_try env j0) as [s [u|e]] eqn:E; cbn [fst snd is_ok].
    + exact (try_body_ends_at_100 env _ s u E).
    + destruct (recorded s); [|reflexivity].
      cbn [set_progress fst progress written]. split; [reflexivity|].
      apply last_snoc.
  - intros Hc. unfold job_kept, run_try. now apply try_body_keeps.
Qed.

Lemma job_ends_at_0_or_100_witness :
  job_kept failing_converter_env uploaded = true.
Proof.
  apply (proj2 (job_ends_at_0_or_100 failing_converter_env uploaded)).
  intros p. reflexivity.
Defined.

Lemma triple_exn_bind {A B} (P : job -> Prop) (m : task A)
  (Q : A -> job -> Prop) (k : A -> task B) (R : B -> job -> Prop)
  (E : job -> Prop) :
  triple_exn P m Q E -> (forall a, triple_exn (Q a) (k a) R E) ->
  triple_exn P (tbind m k) R E.
Proof.
  intros Hm Hk j Hj. specialize (Hm j Hj). unfold tbind.
  destruct (m j) as [j1 [a|e]]; [now apply Hk | exact Hm].
Qed.

Lemma triple_exn_pure {A} (P : job -> Prop) (r : result A) :
  triple_exn P (lift r) (fun _ => P) P.
Proof. intros j Hj. unfold lift. now destruct r. Qed.

Lemma written_within_snoc (lo hi v : Z) (j : job) :
  written_within lo hi j -> lo <= v <= hi ->
  written_within lo hi (fst (set_progress v j)).
Proof.
  unfold written_within. cbn [set_progress fst written]. intros Hw Hv.
  apply Forall_app. split; [assumption | now repeat constructor].
Qed.

Lemma mapR_In {A B} (f : A -> result B) (l : list A) (ys : list B) (x : A) :
  mapR f l = Ok ys -> In x l -> exists y, f x = Ok y /\ In y ys.
Proof.
  revert ys. induction l as [|x0 l IH]; intros ys H Hx; [destruct Hx|].
  cbn [mapR] in H. destruct (f x0) as [y0|] eqn:E0; [|discriminate].
  cbn [bind] in H. destruct (mapR f l) as [ys0|]; [|discriminate].
  cbn [bind] in H. injection H as <-. destruct Hx as [<-|Hx].
  - exists y0. split; [assumption | now left].
  - destruct (IH ys0 eq_refl Hx) as (y & Hy & Hin).
    exists y. split; [assumption | now right].
Qed.

Lemma triple_exn_for_each {A} (I : job -> Prop) (l : list A)
  (body : A -> task unit) :
  (forall x, In x l -> triple_exn I (body x) (fun _ => I) I) ->
  triple_exn I (for_each l body) (fun _ => I) I.
Proof.
  induction l as [|x l IH]; intros Hb; cbn [for_each].
  - intros j Hj. exact Hj.
  - apply (triple_exn_bind _ _ (fun _ => I)).
    + apply Hb. now left.
    + intros _. apply IH. intros y Hy. apply Hb. now right.
Qed.

Lemma triple_exn_page_loop (f : Z -> result Z) (g : Z -> Z) (lo hi : Z)
  (pre : Z -> task unit) (l : list Z) (vs : list Z) :
  mapR f l = Ok vs -> within lo hi vs = true ->
  (forall v, lo <= v <= hi -> 0 <= g v <= 95) ->
  (forall k, triple_exn (written_within 0 95) (pre k)
               (fun _ => written_within 0 95) (written_within 0 95)) ->
  triple_exn (written_within 0 95)
    (for_each l (fun page_num =>
       _ <~ pre page_num ;;
       p <~ lift (f page_num) ;;
       set_progress (g p)))
    (fun _ => written_within 0 95) (written_within 0 95).
Proof.
  intros Hm Hw Hg Hpre. apply triple_exn_for_each. intros k Hk.
  destruct (mapR_In f l vs k Hm Hk) as (v & Hv & Hin).
  apply (triple_exn_bind _ _ (fun _ => written_within 0 95)); [apply Hpre|].
  intros _ j Hj. unfold tbind, lift. rewrite Hv.
  apply written_within_snoc; [assumption|]. apply Hg.
  unfold within in Hw. rewrite forallb_forall in Hw.
  specialize (Hw v Hin). apply andb_true_iff in Hw as [H1 H2].
  apply Z.leb_le in H1, H2. lia.
Qed.

Lemma triple_exn_wait_loop (l : list nat) :
  triple_exn (fun j => written_within 0 95 j /\ 0 <= progress j <= 95)
    (for_each l (fun _ => p <~ get_progress ;;
                          set_progress (Z.min 95 (p + 1))))
    (fun _ => written_within 0 95) (written_within 0 95).
Proof.
  induction l as [|x l IH]; intros j [Hw Hp]; cbn [for_each].
  - exact Hw.
  - unfold tbind at 1. unfold tbind at 1. unfold get_progress at 1.
    unfold set_progress at 1. apply IH. cbn [progress written]. split; [|lia].
    apply Forall_app. split; [assumption|]. repeat constructor; lia.
Qed.

Lemma try_body_written_within (env : job_env) :
  percents_in_order (total_pages env) = true ->
  single_writer env ->
  ctriple_exn (written_within 0 95) (try_body env)
    (fun _ j => exists before,
       written j = before ++ [100] /\ Forall (fun v => 0 <= v <= 95) before)
    (written_within 0 95).
Proof.
  unfold percents_in_order. intros Hp Hq.
  destruct (mapR _ (py_range 0 _)) as [a|] eqn:Ea; [|discriminate].
  destruct (mapR _ (py_range 1 _)) as [b|] eqn:Eb; [|discriminate].
  apply andb_true_iff in Hp as [Hp Hb2]. apply andb_true_iff in Hp as [Hp _].
  apply andb_true_iff in Hp as [_ Ha2].
  unfold try_body.
  apply (cexn_bind _ _ (fun _ => written_within 0 95));
    [apply cexn_on_job; apply triple_exn_pure|intros _].
  apply (cexn_bind _ _ (fun _ => written_within 0 95));
    [apply cexn_on_job; apply triple_exn_pure|intros _].
  apply (cexn_bind _ _ (fun _ => written_within 0 95)).
  { apply cexn_on_job.
    apply (triple_exn_page_loop
             (fun k => percent (k + 1) (Z.of_nat (total_pages env)) 20)
             (fun p => p) 0 20
             (fun k => external (render_fails env (Z.to_nat k))) _ a Ea Ha2).
    - intros v Hv. lia.
    - intros k. apply triple_exn_pure. }
  intros _. apply (cexn_bind _ _ (fun _ => written_within 0 95)).
  { apply (cexn_each env); [intros; apply Hq|].
    apply triple_exn_for_each. intros k Hk.
    destruct (mapR_In _ _ _ k Eb Hk) as (v & Hv & Hin).
    intros j Hj. unfold tbind, lift. rewrite Hv.
    apply written_within_snoc; [assumption|].
    unfold within in Hb2. rewrite forallb_forall in Hb2.
    specialize (Hb2 v Hin). apply andb_true_iff in Hb2 as [H1 H2].
    apply Z.leb_le in H1, H2. lia. }
  intros _. apply (cexn_bind _ _ (fun _ => written_within 0 95));
    [apply cexn_on_job; apply triple_exn_pure|intros _].
  apply (cexn_bind _ _
           (fun _ j => written_within 0 95 j /\ 0 <= progress j <= 95)).
  { apply cexn_on_job. intros j Hj. split; [|cbn; lia].
    apply written_within_snoc; [assumption|lia]. }
  intros _. apply (cexn_bind _ _
           (fun _ j => written_within 0 95 j /\ 0 <= progress j <= 95)).
  { apply cexn_on_job. intros j Hj. unfold external, lift.
    destruct (popen_fails env); [apply Hj | exact Hj]. }
  intros _. apply (cexn_bind _ _ (fun _ => written_within 0 95)).
  { apply (cexn_each env); [intros; apply Hq|]. apply triple_exn_wait_loop. }
  intros _. apply (cexn_bind _ _ (fun _ => written_within 0 95));
    [apply cexn_on_job; apply triple_exn_pure|intros _].
  apply cexn_on_job. intros j Hj. cbn [set_progress written].
  exists (written j). split; [reflexivity | exact Hj].
Qed.

(** X14. In one run on a job no other task writes to, the values
    written before the last step lie between 0 and 95, whatever the
    number of pages: 100 is written only as the last value of a run that
    raised nothing; a run that raised ends with the handler's 0 when
    [jobs] still has the job, and with no further value when the job was
    deleted meanwhile. *)
Theorem progress_below_100_until_done (env : job_env) (j0 : job) :
  written_within 0 95 j0 ->
  single_writer env ->
  exists before,
    Forall (fun v => 0 <= v <= 95) before
    /\ written (process_pdf_with_gemini env j0)
       = if completes env j0 then before ++ [100]
         else if job_kept env j0 then before ++ [0]
         else before.
Proof.
  intros H0 Hq.
  pose proof (try_body_written_within env
                (percents_in_order_all (total_pages env)) Hq
                {| held := j0; recorded := true |} H0) as H.
  unfold completes, job_kept, process_pdf_with_gemini, run_try.
  destruct (try_body env _) as [s [u|e]]; cbn [fst snd is_ok].
  - destruct H as (before & Hw & Hb). exists before. split; assumption.
  - exists (written (held s)). split; [exact H|].
    now destruct (recorded s).
Qed.

Lemma progress_below_100_until_done_witness :
  exists before,
    Forall (fun v => 0 <= v <= 95) before
    /\ written (process_pdf_with_gemini cleaned_up_env uploaded)
       = if completes cleaned_up_env uploaded then before ++ [100]
         else if job_kept cleaned_up_env uploaded then before ++ [0]
         else before.
Proof.
  apply (progress_below_100_until_done cleaned_up_env uploaded).
  - constructor.
  - intros p. reflexivity.
Defined.

(** ** The text handed to the JSON parser *)

Lemma str_length_app (s t : string) :
  String.length (s ++ t) = (String.length s + String.length t)%nat.
Proof.
  induction s as [|c s IH]; [reflexivity|].
  rewrite str_app_cons. cbn [String.length]. now rewrite IH.
Qed.

Lemma list_ascii_of_string_app (s t : string) :
  list_ascii_of_string (s ++ t)
  = list_ascii_of_string s ++ list_ascii_of_string t.
Proof.
  induction s as [|c s IH]; [reflexivity|].
  rewrite str_app_cons. cbn [list_ascii_of_string app]. now rewrite IH.
Qed.

Lemma prefix_app (s r : string) : String.prefix s (s ++ r) = true.
Proof.
  induction s as [|c s IH]; [now destruct r|].
  rewrite str_app_cons. cbn [String.prefix]. now destruct (ascii_dec c c).
Qed.

Lemma prefix_app_long (s1 s2 r : string) :
  (String.length s1 <= String.length s2)%nat ->
  String.prefix s1 (s2 ++ r) = String.prefix s1 s2.
Proof.
  revert s2. induction s1 as [|c s1 IH]; intros s2 Hl.
  - now destruct s2, r.
  - destruct s2 as [|d s2]; [cbn in Hl; lia|].
    rewrite str_app_cons. cbn [String.prefix]. destruct (ascii_dec c d); [|reflexivity].
    apply IH. cbn in Hl. lia.
Qed.

Lemma prefix_shorter (s1 s2 t : string) :
  String.prefix (s1 ++ s2) t = true -> String.prefix s1 t = true.
Proof.
  revert t. induction s1 as [|c s1 IH]; intros t H; [now destruct t|].
  rewrite str_app_cons in H. destruct t as [|d t]; [discriminate|].
  cbn [String.prefix] in *. destruct (ascii_dec c d); [now apply IH | discriminate].
Qed.

Lemma index_0_cons (sub : string) (c : ascii) (t : string) :
  String.index 0 sub (String c t)
  = if String.prefix sub (String c t) then Some 0%nat
    else option_map S (String.index 0 sub t).
Proof.
  cbn [String.index]. destruct (String.prefix sub (String c t)); [reflexivity|].
  now destruct (String.index 0 sub t).
Qed.

Lemma index_shorter (s1 s2 t : string) :
  String.index 0 s1 t = None -> String.index 0 (s1 ++ s2) t = None.
Proof.
  induction t as [|c t IH].
  - destruct s1; [discriminate | reflexivity].
  - rewrite !index_0_cons.
    destruct (String.prefix s1 (String c t)) eqn:E1; [discriminate|].
    destruct (String.prefix (s1 ++ s2) (String c t)) eqn:E2.
    + apply prefix_shorter in E2. congruence.
    + destruct (String.index 0 s1 t); [discriminate|].
      intros _. now rewrite IH.
Qed.

Lemma index_skip (a b sub : string) :
  String.index (String.length a) sub (a ++ b)
  = option_map (Nat.add (String.length a)) (String.index 0 sub b).
Proof.
  induction a as [|c a IH].
  - cbn [String.length]. change ("" ++ b)%string with b.
    now destruct (String.index 0 sub b).
  - rewrite str_app_cons. cbn [String.length String.index]. rewrite IH.
    now destruct (String.index 0 sub b).
Qed.

(** The first occurrence of a marker: nothing before it completes one. *)
Lemma index_first (sub' : string) (c : ascii) (a rest : string) :
  String.index 0 (sub' ++ String c "") (a ++ sub') = None ->
  String.index 0 (sub' ++ String c "") (a ++ (sub' ++ String c "") ++ rest)
  = Some (String.length a).
Proof.
  induction a as [|x a IH]; intros H.
  - change ("" ++ (sub' ++ String c "") ++ rest)%string
      with ((sub' ++ String c "") ++ rest)%string.
    destruct ((sub' ++ String c "") ++ rest)%string as [|y t] eqn:E.
    + destruct sub'; discriminate.
    + rewrite index_0_cons, <- E, prefix_app. reflexivity.
  - rewrite str_app_cons in *. rewrite index_0_cons in H.
    destruct (String.prefix _ (String x (a ++ sub'))) eqn:E1; [discriminate|].
    destruct (String.index 0 _ (a ++ sub')) eqn:E2; [discriminate|].
    assert (Hpre : String.prefix (sub' ++ String c "")
                     (String x (a ++ (sub' ++ String c "") ++ rest)) = false).
    { replace (String x (a ++ (sub' ++ String c "") ++ rest))
        with ((String x (a ++ sub')) ++ String c rest)%string
        by (now rewrite str_app_cons, !str_app_assoc).
      rewrite prefix_app_long; [exact E1|].
      cbn [String.length]. rewrite !str_length_app. cbn [String.length]. lia. }
    rewrite index_0_cons, Hpre, IH by reflexivity. reflexivity.
Qed.

Lemma is_substring_false (k s : string) :
  is_substring k s = false <-> String.index 0 k s = None.
Proof.
  unfold is_substring. destruct (String.index 0 k s); split; congruence.
Qed.

Lemma str_find_first (sub' : string) (c : ascii) (a rest : string) :
  String.index 0 (sub' ++ String c "") (a ++ sub') = None ->
  str_find (sub' ++ String c "") (a ++ (sub' ++ String c "") ++ rest) 0
  = Z.of_nat (String.length a).
Proof.
  intros H. unfold str_find, clamp_index.
  destruct (Z.ltb_spec (Z.of_nat (String.length
              (a ++ (sub' ++ String c "") ++ rest))) 0); [lia|].
  cbn [Z.ltb Z.compare]. rewrite Z.min_l by lia. cbn [Z.to_nat].
  now rewrite index_first.
Qed.

Lemma str_find_from (a b sub : string) :
  str_find sub (a ++ b) (Z.of_nat (String.length a))
  = match String.index 0 sub b with
    | Some i => Z.of_nat (String.length a) + Z.of_nat i
    | None => -1
    end.
Proof.
  unfold str_find, clamp_index. rewrite str_length_app.
  destruct (Z.ltb_spec (Z.of_nat (String.length a + String.length b))
              (Z.of_nat (String.length a))); [lia|].
  destruct (Z.ltb_spec (Z.of_nat (String.length a)) 0); [lia|].
  rewrite Z.min_l, Nat2Z.id, index_skip by lia.
  destruct (String.index 0 sub b); cbn [option_map]; lia.
Qed.

Lemma str_slice_middle (a b c : string) :
  str_slice (a ++ b ++ c) (Some (Z.of_nat (String.length a)))
    (Some (Z.of_nat (String.length a) + Z.of_nat (String.length b)))
  = b.
Proof.
  unfold str_slice, seq_slice, clamp_index.
  rewrite !list_ascii_of_string_app, !length_app,
    !length_list_ascii_of_string.
  destruct (Z.ltb_spec (Z.of_nat (String.length a)) 0); [lia|].
  destruct (Z.ltb_spec (Z.of_nat (String.length a)
                        + Z.of_nat (String.length b)) 0); [lia|].
  rewrite !Z.min_l by lia.
  rewrite Nat2Z.id, drop_app_length'
    by (now rewrite length_list_ascii_of_string).
  replace (Z.to_nat _) with (String.length b) by lia.
  rewrite take_app_length' by (now rewrite length_list_ascii_of_string).
  apply string_of_list_ascii_of_string.
Qed.

Lemma str_slice_drop_last (a b : string) :
  str_slice (a ++ b) (Some (Z.of_nat (String.length a))) (Some (-1))
  = str_slice b None (Some (-1)).
Proof.
  unfold str_slice, seq_slice, clamp_index.
  rewrite !list_ascii_of_string_app, !length_app,
    !length_list_ascii_of_string.
  destruct (Z.ltb_spec (Z.of_nat (String.length a)) 0); [lia|].
  cbn [Z.ltb Z.compare]. rewrite Z.min_l by lia.
  rewrite Nat2Z.id, drop_app_length'
    by (now rewrite length_list_ascii_of_string).
  f_equal. f_equal. lia.
Qed.

(** The text between an opening marker and the first closing one. *)
Lemma between_fences_closed (o' : string) (c : ascii)
  (pre body post : string) :
  String.index 0 (o' ++ String c "") (pre ++ o') = None ->
  String.index 0 "```" (body ++ "``") = None ->
  between_fences (o' ++ String c "")
    (pre ++ (o' ++ String c "") ++ body ++ "```" ++ post)
  = str_strip body.
Proof.
  intros Hpre Hbody. unfold between_fences.
  rewrite str_find_first by assumption. f_equal.
  rewrite <- Nat2Z.inj_add, <- str_length_app.
  rewrite <- (str_app_assoc pre).
  rewrite str_find_from.
  change "```" with ("``" ++ String "`" "")%string at 1 2.
  rewrite index_first by exact Hbody.
  apply str_slice_middle.
Qed.

(** The text after an opening marker that is never closed. *)
Lemma between_fences_open (o' : string) (c : ascii) (pre body : string) :
  String.index 0 (o' ++ String c "") (pre ++ o') = None ->
  String.index 0 "```" body = None ->
  between_fences (o' ++ String c "") (pre ++ (o' ++ String c "") ++ body)
  = str_strip (str_slice body None (Some (-1))).
Proof.
  intros Hpre Hbody. unfold between_fences.
  rewrite str_find_first by assumption. f_equal.
  rewrite <- Nat2Z.inj_add, <- str_length_app.
  rewrite <- (str_app_assoc pre).
  rewrite str_find_from, Hbody.
  apply str_slice_drop_last.
Qed.

Lemma is_substring_first (sub' : string) (c : ascii) (a rest : string) :
  String.index 0 (sub' ++ String c "") (a ++ sub') = None ->
  is_substring (sub' ++ String c "") (a ++ (sub' ++ String c "") ++ rest)
  = true.
Proof. intros H. unfold is_substring. now rewrite index_first. Qed.

(** X15. When the answer carries a [```json] fence that is closed, the
    text parsed is what stands between the first [```json] and the next
    three backticks, without the white space around it; what comes
    before the fence and after it is dropped. *)
Theorem extract_json_fenced (text pre body post : string) :
  str_strip text = (pre ++ "```json" ++ body ++ "```" ++ post)%string ->
  is_substring "```json" (pre ++ "```jso") = false ->
  is_substring "```" (body ++ "``") = false ->
  extract_json text = str_strip body.
Proof.
  intros Ht Hpre Hbody. apply is_substring_false in Hpre, Hbody.
  unfold extract_json. rewrite Ht.
  change "```json" with ("```jso" ++ String "n" "")%string.
  rewrite is_substring_first by exact Hpre.
  now apply between_fences_closed.
Qed.

Lemma extract_json_fenced_witness :
  extract_json fenced_response = str_strip (LF ++ "[1, 2]" ++ LF).
Proof.
  apply (extract_json_fenced fenced_response
           ("Here is the page:" ++ LF) (LF ++ "[1, 2]" ++ LF)
           (LF ++ "Anything else?"));
    vm_compute; reflexivity.
Defined.

(** X16. When the answer carries no [```json] but a plain fence that is
    closed, the text parsed is what stands between the first two
    fences, without the white space around it. *)
Theorem extract_json_plain_fence (text pre body post : string) :
  str_strip text = (pre ++ "```" ++ body ++ "```" ++ post)%string ->
  is_substring "```json" (str_strip text) = false ->
  is_substring "```" (pre ++ "``") = false ->
  is_substring "```" (body ++ "``") = false ->
  extract_json text = str_strip body.
Proof.
  intros Ht Hj Hpre Hbody. apply is_substring_false in Hpre, Hbody.
  unfold extract_json. rewrite Hj, Ht.
  change "```" with ("``" ++ String "`" "")%string at 1 2 4.
  rewrite is_substring_first by exact Hpre.
  now apply (between_fences_closed "``" "`").
Qed.

Lemma extract_json_plain_fence_witness :
  extract_json ("```" ++ LF ++ "[1, 2]" ++ LF ++ "```")
  = str_strip (LF ++ "[1, 2]" ++ LF).
Proof.
  apply (extract_json_plain_fence _ "" (LF ++ "[1, 2]" ++ LF) "");
    vm_compute; reflexivity.
Defined.

(** X17. When the [```json] fence is never closed, the search for the
    closing fence returns -1 and the slice stops one character before
    the end: the last character of the answer is not parsed. *)
Theorem extract_json_unclosed_fence (text pre body : string) :
  str_strip text = (pre ++ "```json" ++ body)%string ->
  is_substring "```json" (pre ++ "```jso") = false ->
  is_substring "```" body = false ->
  extract_json text = str_strip (str_slice body None (Some (-1))).
Proof.
  intros Ht Hpre Hbody. apply is_substring_false in Hpre, Hbody.
  unfold extract_json. rewrite Ht.
  change "```json" with ("```jso" ++ String "n" "")%string.
  replace (pre ++ ("```jso" ++ String "n" "") ++ body)%string
    with (pre ++ ("```jso" ++ String "n" "") ++ body ++ "")%string
    by (now rewrite str_app_nil_r).
  rewrite is_substring_first by exact Hpre.
  rewrite str_app_nil_r.
  now apply between_fences_open.
Qed.

Lemma extract_json_unclosed_fence_witness :
  extract_json unclosed_response
  = str_strip (str_slice (LF ++ "[1, 2]") None (Some (-1))).
Proof.
  apply (extract_json_unclosed_fence unclosed_response "" (LF ++ "[1, 2]"));
    vm_compute; reflexivity.
Defined.

(** X18. An answer without three backticks in a row is parsed as it is,
    without the white space around it. *)
Theorem extract_json_no_fence (text : string) :
  is_substring "```" (str_strip text) = false ->
  extract_json text = str_strip text.
Proof.
  intros H. unfold extract_json. rewrite H.
  apply is_substring_false in H.
  apply (index_shorter "```" "json") in H.
  apply is_substring_false in H.
  change ("```" ++ "json")%string with "```json" in H. now rewrite H.
Qed.

Lemma extract_json_no_fence_witness :
  extract_json (LF ++ "[1, 2] ") = str_strip (LF ++ "[1, 2] ").
Proof. apply (extract_json_no_fence (LF ++ "[1, 2] ")). vm_compute. reflexivity. Defined.

(** ** The pages stored for a failed analysis *)

Lemma str_slice_prefix_nonempty (s : string) (k : Z) :
  s <> "" -> 0 < k -> py_truthy (JStr (str_slice s (Some 0) (Some k))) = true.
Proof.
  intros Hs Hk. destruct s as [|c s]; [congruence|].
  unfold str_slice, seq_slice, clamp_index.
  destruct (Z.ltb_spec k 0); [lia|]. cbn [Z.ltb Z.compare].
  cbn [list_ascii_of_string length].
  rewrite (Z.min_l 0) by lia. cbn [Z.to_nat drop].
  destruct (Z.to_nat _) as [|m] eqn:E; [lia|].
  reflexivity.
Qed.

(** One range from 0 to [k]: the first [k] characters in its colour, the
    rest in black. *)
Lemma compose_runs_prefix_range (s : string) (st : style)
  (sty : Z * string * option bool) (k r g b : Z) (c : rgb) :
  style_of st = Ok sty -> s <> "" -> 0 < k ->
  color_of_json (JList [JInt r; JInt g; JInt b]) = Ok c ->
  compose_runs (JStr s) st (JList [color_entry 0 k r g b])
  = Ok (styled (str_slice s (Some 0) (Some k)) sty c
        :: (if k <? Z.of_nat (String.length s)
            then [styled (str_slice s (Some k) None) sty black]
            else [])).
Proof.
  intros Hs Hne Hk Hc.
  rewrite (compose_runs_after_loop s st sty _ []
             [styled (str_slice s (Some 0) (Some k)) sty c] k Hs).
  - now destruct (k <? Z.of_nat (String.length s)).
  - cbn [foldM]. unfold color_entry.
    rewrite (color_step_spec s st sty [] 0 _ 0 k c Hs);
      [| reflexivity | exact Hc].
    rewrite str_slice_prefix_nonempty by assumption.
    cbn [bind foldM app]. now rewrite Z.max_r by lia.
Qed.

(** The slide of a placeholder page: one text box, composed from the
    placeholder's text, size and colour entry. *)
Lemma placeholder_slide (pw ph : float) (im : image) (cv : option cv_page)
  (text : string) (size : Z) (color : json) (s : slide) :
  text <> "" ->
  process_page pw ph im cv (placeholder text size color) = Ok s ->
  exists box,
    textboxes s = [box]
    /\ compose_runs (JStr text)
         {| font_size := JInt size; font_family := JStr "Roboto";
            is_bold := JBool true |} (JList [color])
       = Ok (box_runs box).
Proof.
  intros Hne H. unfold process_page in H.
  bind_ok H. bind_ok H.
  assert (Hb : dict_get (placeholder text size color) "blocks" (JList [])
               = Ok (JList [JObj (placeholder_block text size color)]))
    by reflexivity.
  rewrite Hb in H. cbn [bind] in H. bind_ok H.
  cbn [py_iter bind text_boxes filter_mapM] in H.
  bind_ok H. inversion H; subst s. cbn [textboxes]. clear H.
  bind_ok E2. inversion E2; subst a2. clear E2.
  pose proof (text_block_eligible _ _ _ _ E3) as He.
  assert (Ht : has_text_and_box (JObj (placeholder_block text size color))
               = true).
  { unfold has_text_and_box.
    replace (default (JStr "") (placeholder_block text size color !! "text"))
      with (JStr text) by reflexivity.
    destruct text; [congruence | reflexivity]. }
  rewrite Ht in He. destruct a3 as [box|]; [|discriminate].
  exists box. split; [reflexivity|].
  apply text_block_runs in E3. exact E3.
Qed.

Lemma analysis_error_text_nonempty (page_num : Z) (msg : string) :
  analysis_error_text page_num msg <> "".
Proof. unfold analysis_error_text. discriminate. Qed.

Lemma parse_error_text_nonempty (page_num : Z) :
  parse_error_text page_num <> "".
Proof. unfold parse_error_text. discriminate. Qed.

(** X19. The slide built from the page stored for a failed analysis has
    one text box that spells the whole error text in bold 24 pt Roboto:
    its first 50 characters are red, and whatever the text has beyond
    them, which is the rest of a long error message, is black. *)
Theorem analysis_error_slide (pw ph : float) (im : image)
  (cv : option cv_page) (page_num : Z) (msg : string) (s : slide) :
  process_page pw ph im cv (analysis_error_page page_num msg) = Ok s ->
  exists box,
    textboxes s = [box]
    /\ box_runs box
       = styled (str_slice (analysis_error_text page_num msg)
                   (Some 0) (Some 50))
           analysis_error_style (200, 50, 50)
         :: (if 50 <? Z.of_nat (String.length
                                  (analysis_error_text page_num msg))
             then [styled (str_slice (analysis_error_text page_num msg)
                             (Some 50) None)
                     analysis_error_style black]
             else []).
Proof.
  intros H.
  destruct (placeholder_slide _ _ _ _ _ _ _ _
              (analysis_error_text_nonempty page_num msg) H)
    as (box & Hb & Hr).
  exists box. split; [exact Hb|].
  rewrite (compose_runs_prefix_range _ _ analysis_error_style
             50 200 50 50 (200, 50, 50)) in Hr;
    [now inversion Hr | reflexivity
    | apply analysis_error_text_nonempty | lia | reflexivity].
Qed.

Lemma analysis_error_slide_witness :
  exists box,
    textboxes analysis_error_sample_slide = [box]
    /\ box_runs box
       = styled (str_slice (analysis_error_text 3 quota_message)
                   (Some 0) (Some 50))
           analysis_error_style (200, 50, 50)
         :: (if 50 <? Z.of_nat (String.length
                                  (analysis_error_text 3 quota_message))
             then [styled (str_slice (analysis_error_text 3 quota_message)
                             (Some 50) None)
                     analysis_error_style black]
             else []).
Proof.
  apply (analysis_error_slide 1376 768
           (plain_image 100 100 [255; 255; 255]) None 3 quota_message).
  vm_compute. reflexivity.
Defined.

(** X20. The slide built from the page returned for an answer that is
    not JSON has one text box that spells the whole text
    [[Page n - Parse error]] in bold 32 pt Roboto: its first 30
    characters are dark grey, and what a page number of ten digits or
    more would leave beyond them is black. *)
Theorem parse_error_slide (pw ph : float) (im : image)
  (cv : option cv_page) (page_num : Z) (s : slide) :
  process_page pw ph im cv (parse_error_page page_num) = Ok s ->
  exists box,
    textboxes s = [box]
    /\ box_runs box
       = styled (str_slice (parse_error_text page_num) (Some 0) (Some 30))
           parse_error_style (30, 30, 30)
         :: (if 30 <? Z.of_nat (String.length (parse_error_text page_num))
             then [styled (str_slice (parse_error_text page_num)
                             (Some 30) None)
                     parse_error_style black]
             else []).
Proof.
  intros H.
  destruct (placeholder_slide _ _ _ _ _ _ _ _
              (parse_error_text_nonempty page_num) H)
    as (box & Hb & Hr).
  exists box. split; [exact Hb|].
  rewrite (compose_runs_prefix_range _ _ parse_error_style
             30 30 30 30 (30, 30, 30)) in Hr;
    [now inversion Hr | reflexivity
    | apply parse_error_text_nonempty | lia | reflexivity].
Qed.

Lemma parse_error_slide_witness :
  exists box,
    textboxes parse_error_sample_slide = [box]
    /\ box_runs box
       = styled (str_slice (parse_error_text 3) (Some 0) (Some 30))
           parse_error_style (30, 30, 30)
         :: (if 30 <? Z.of_nat (String.length (parse_error_text 3))
             then [styled (str_slice (parse_error_text 3) (Some 30) None)
                     parse_error_style black]
             else []).
Proof.
  apply (parse_error_slide 1376 768
           (plain_image 100 100 [255; 255; 255]) None 3).
  vm_compute. reflexivity.
Defined.

(** ** The analysis results, page by page *)

Lemma page_key_inj (a b : Z) : page_key a = page_key b -> a = b.
Proof.
  unfold page_key. intros H. apply (inj (String.append "page_")) in H.
  now apply (inj pretty) in H.
Qed.

Lemma py_range_In (a k : Z) (n : nat) :
  In k (py_range a n) <-> a <= k < a + Z.of_nat n.
Proof.
  unfold py_range. rewrite in_map_iff. split.
  - intros (i & <- & Hi). apply in_seq in Hi. lia.
  - intros Hk. exists (Z.to_nat (k - a)). split; [lia|].
    apply in_seq. lia.
Qed.

Lemma py_range_NoDup (a : Z) (n : nat) : List.NoDup (py_range a n).
Proof.
  unfold py_range.
  apply Finite.Injective_map_NoDup; [|apply seq_NoDup].
  intros x y H. lia.
Qed.

Lemma py_range_lookup (a : Z) (n i : nat) :
  (i < n)%nat -> py_range a n !! i = Some (a + Z.of_nat i).
Proof.
  intros Hi. unfold py_range. rewrite list_lookup_fmap.
  now rewrite lookup_seq_lt.
Qed.

Section Results.
Variable outcome : Z -> json + string.

Let store (acc : gmap string json) (page_num : Z) : gmap string json :=
  <[page_key page_num := page_entry page_num (outcome page_num)]> acc.

Lemma results_other (l : list Z) (acc : gmap string json) (key : string) :
  (forall k, In k l -> page_key k <> key) ->
  foldl store acc l !! key = acc !! key.
Proof.
  revert acc. induction l as [|x l IH]; intros acc H; [reflexivity|].
  cbn [foldl]. rewrite IH by (intros k Hk; apply H; now right).
  unfold store. apply lookup_insert_ne. apply H. now left.
Qed.

Lemma results_lookup (l : list Z) (acc : gmap string json) (k : Z) :
  In k l ->
  foldl store acc l !! page_key k = Some (page_entry k (outcome k)).
Proof.
  revert acc. induction l as [|x l IH]; intros acc H; [destruct H|].
  cbn [foldl]. destruct (in_dec Z.eq_dec k l) as [Hk|Hk]; [now apply IH|].
  destruct H as [->|H]; [|contradiction].
  rewrite results_other.
  - unfold store. apply lookup_insert_eq.
  - intros k' Hk' E. apply page_key_inj in E. congruence.
Qed.

Lemma results_size (l : list Z) (acc : gmap string json) :
  List.NoDup l -> (forall k, In k l -> acc !! page_key k = None) ->
  size (foldl store acc l) = (size acc + length l)%nat.
Proof.
  revert acc. induction l as [|x l IH]; intros acc Hd H; cbn [foldl length].
  - lia.
  - inversion Hd as [|? ? Hx Hd']; subst. rewrite IH; [|assumption|].
    + unfold store. rewrite map_size_insert_None by (apply H; now left). lia.
    + intros k Hk. unfold store. rewrite lookup_insert_ne.
      * apply H. now right.
      * intros E. apply page_key_inj in E. congruence.
Qed.
End Results.

(** X21. After the analysis loop every page of the document has its own
    entry in [analysis_results], under its key [page_n]: the page the
    analysis returned, or the error page when it raised; and there is no
    other entry. *)
Theorem analysis_results_complete (outcome : Z -> json + string)
  (total : nat) :
  size (analysis_results outcome total) = total
  /\ forall k, 1 <= k <= Z.of_nat total ->
       analysis_results outcome total !! page_key k
       = Some (page_entry k (outcome k)).
Proof.
  unfold analysis_results. split.
  - rewrite results_size.
    + rewrite map_size_empty. unfold py_range.
      now rewrite length_map, length_seq.
    + apply py_range_NoDup.
    + intros k _. apply lookup_empty.
  - intros k Hk. apply results_lookup. apply py_range_In. lia.
Qed.

Lemma analysis_results_complete_witness :
  analysis_results (fun _ => inr quota_message) 2 !! page_key 2
  = Some (page_entry 2 (inr quota_message)).
Proof.
  apply (analysis_results_complete (fun _ => inr quota_message) 2). cbn. lia.
Defined.

(** ** The presentation *)

Ltac tbind_ok H :=
  match type of H with
  | tbind ?m _ ?j = (_, Ok _) =>
      let E := fresh "E" in
      let j1 := fresh "j" in
      let a := fresh "a" in
      unfold tbind at 1 in H;
      destruct (m j) as [j1 [a|?]] eqn:E; [|discriminate H]
  end.

Lemma for_collect_Forall2 {A B} (P : A -> B -> Prop) (body : A -> task B)
  (l : list A) :
  (forall x j j' y, In x l -> body x j = (j', Ok y) -> P x y) ->
  forall j j' ys, for_collect l body j = (j', Ok ys) -> Forall2 P l ys.
Proof.
  induction l as [|x l IH]; intros Hb j j' ys H; cbn [for_collect] in H.
  - inversion H; subst. constructor.
  - tbind_ok H. tbind_ok H. inversion H; subst. constructor.
    + eapply Hb; [now left | eassumption].
    + eapply IH; [|eassumption].
      intros x0 j2 j3 y Hx Hy. eapply Hb; [right; exact Hx | exact Hy].
Qed.

Lemma generate_page_slide (analysis : json) (files : page_files)
  (pw ph : float) (total page_num : Z) (j j' : job) (s : slide) :
  generate_page analysis files pw ph total page_num j = (j', Ok s) ->
  slide_of_page analysis files pw ph page_num s.
Proof.
  unfold generate_page. intros H.
  tbind_ok H. tbind_ok H. tbind_ok H.
  unfold lift in E1, H. inversion E1; subst. clear E1.
  destruct (dict_get analysis (page_key page_num) default_page)
    as [page_data|e] eqn:Ed.
  - exists a1, page_data. inversion H. repeat split; assumption || reflexivity.
  - inversion H as [[Hj Hr]]. exfalso.
    destruct (get_background_color a1) as [bg|]; [|discriminate].
    cbn [bind] in Hr. destruct (background_fill bg); discriminate.
Qed.

Lemma generate_slides (la : result json) (files : page_files) (sf : bool)
  (pw ph : float) (total : nat) (j j' : job) (prs : presentation) :
  generate_pptx_from_analysis la files sf pw ph total j = (j', Ok prs) ->
  exists analysis,
    la = Ok analysis
    /\ Forall2 (slide_of_page analysis files pw ph) (py_range 1 total)
         (slides prs)
    /\ slide_size pw = Ok (slide_width prs)
    /\ slide_size ph = Ok (slide_height prs)
    /\ progress j' = 98.
Proof.
  unfold generate_pptx_from_analysis. intros H.
  tbind_ok H. tbind_ok H. tbind_ok H. tbind_ok H. tbind_ok H. tbind_ok H.
  unfold lift in E, E0, E1. unfold tret in H.
  inversion E; subst. inversion E0; subst. inversion E1; subst.
  inversion H; subst. cbn [slides slide_width slide_height].
  exists a. repeat split; try assumption.
  - eapply for_collect_Forall2; [|exact E2].
    intros x jx jx' y _ Hy. eapply generate_page_slide. exact Hy.
  - unfold set_progress in E4. now inversion E4.
Qed.

(** X22. A presentation that is saved has one slide per page of the
    document, in the order of the pages: the slide at position [n] is
    built from the image of page [n] and from the entry [page_n] of the
    analysis, or from an empty page when the analysis has no such entry.
    Its slide size is the page size in EMU, and the progress is left at
    98. *)
Theorem generate_one_slide_per_page (la : result json) (files : page_files)
  (sf : bool) (pw ph : float) (total : nat) (j j' : job)
  (prs : presentation) :
  generate_pptx_from_analysis la files sf pw ph total j = (j', Ok prs) ->
  exists analysis,
    la = Ok analysis
    /\ length (slides prs) = total
    /\ Forall2 (slide_of_page analysis files pw ph) (py_range 1 total)
         (slides prs)
    /\ slide_size pw = Ok (slide_width prs)
    /\ slide_size ph = Ok (slide_height prs)
    /\ progress j' = 98.
Proof.
  intros H. destruct (generate_slides _ _ _ _ _ _ _ _ _ H)
    as (analysis & Ha & Hs & Hw & Hh & Hp).
  exists analysis. repeat split; try assumption.
  apply Forall2_length in Hs. rewrite <- Hs. unfold py_range.
  now rewrite length_map, length_seq.
Qed.

Lemma generate_one_slide_per_page_witness :
  exists analysis,
    Ok sample_analysis = Ok analysis
    /\ length (slides sample_presentation) = 2%nat
    /\ Forall2 (slide_of_page analysis sample_files 500 500) (py_range 1 2)
         (slides sample_presentation)
    /\ slide_size 500 = Ok (slide_width sample_presentation)
    /\ slide_size 500 = Ok (slide_height sample_presentation)
    /\ progress generated = 98.
Proof.
  apply (generate_one_slide_per_page (Ok sample_analysis) sample_files false
           500 500 2 analysed generated sample_presentation).
  vm_compute. reflexivity.
Defined.

(** X23. A page that has no entry in the analysis still gets its slide,
    with the background of its image, and the slide carries no text
    box. *)
Theorem missing_page_has_no_text (o : gmap string json) (files : page_files)
  (sf : bool) (pw ph : float) (total : nat) (j j' : job)
  (prs : presentation) (n : nat) (s : slide) :
  generate_pptx_from_analysis (Ok (JObj o)) files sf pw ph total j
  = (j', Ok prs) ->
  o !! page_key (1 + Z.of_nat n) = None ->
  slides prs !! n = Some s ->
  textboxes s = []
  /\ exists page_img,
       open_image files (1 + Z.of_nat n) = Ok page_img
       /\ slide_background page_img = Ok (background s).
Proof.
  intros H Ho Hs. destruct (generate_slides _ _ _ _ _ _ _ _ _ H)
    as (analysis & Ha & Hf & _). inversion Ha; subst analysis. clear Ha.
  destruct (Forall2_lookup_r _ _ _ _ _ Hf Hs) as (k & Hk & Hsl).
  assert (Hn : (n < total)%nat).
  { apply lookup_lt_Some in Hk. unfold py_range in Hk.
    now rewrite length_map, length_seq in Hk. }
  rewrite py_range_lookup in Hk by assumption. inversion Hk; subst k.
  destruct Hsl as (page_img & page_data & Him & Hd & Hp).
  cbn [dict_get] in Hd. rewrite Ho in Hd. cbn [default from_option id] in Hd.
  inversion Hd; subst page_data. clear Hd.
  unfold process_page in Hp. bind_ok Hp. bind_ok Hp.
  change (dict_get default_page "blocks" (JList [])) with (Ok (JList []))
    in Hp.
  cbn [bind py_iter] in Hp. bind_ok Hp.
  cbn [text_boxes filter_mapM bind] in Hp. inversion Hp; subst s.
  split; [reflexivity|]. exists page_img. split; [assumption|].
  unfold slide_background. rewrite E. cbn [bind background]. exact E0.
Qed.

Lemma missing_page_has_no_text_witness :
  textboxes {| background := (255, 255, 255); pictures := [];
               textboxes := [] |} = []
  /\ exists page_img,
       open_image sample_files (1 + Z.of_nat 0) = Ok page_img
       /\ slide_background page_img
          = Ok (background {| background := (255, 255, 255); pictures := [];
                              textboxes := [] |}).
Proof.
  apply (missing_page_has_no_text (<["page_2" := sample_page]> ∅)
           sample_files false 500 500 2 analysed generated
           sample_presentation 0).
  - vm_compute. reflexivity.
  - vm_compute. reflexivity.
  - reflexivity.
Defined.

(** ** The job store *)

(** X24. An upload of a [.pdf] file that is written to disk leaves a job
    whose status is what the upload made it: pending, at progress 0, no
    page counted, no output. The other jobs keep their records, and the
    new job cannot be downloaded, whatever the output directory
    holds. *)
Theorem upload_then_status (filename mode job_id : string) (srv : server)
  (out : output_dir) :
  str_endswith filename ".pdf" = true ->
  get_status job_id
    (fst (upload_pdf filename mode job_id false false srv))
  = Reply (uploaded_record filename mode)
  /\ (forall other, other <> job_id ->
        get_status other
          (fst (upload_pdf filename mode job_id false false srv))
        = get_status other srv)
  /\ download_result job_id out
       (fst (upload_pdf filename mode job_id false false srv))
     = HTTPException 400 "Processing not completed".
Proof.
  intros Hpdf. unfold upload_pdf. rewrite Hpdf. cbn [negb fst].
  unfold get_status, download_result. cbn [jobs].
  rewrite lookup_insert_eq. repeat split.
  intros other Ho. now rewrite lookup_insert_ne by congruence.
Qed.

Lemma upload_then_status_witness :
  get_status "a1"
    (fst (upload_pdf "report.pdf" "precision" "a1" false false empty_server))
  = Reply (uploaded_record "report.pdf" "precision")
  /\ (forall other, other <> "a1" ->
        get_status other
          (fst (upload_pdf "report.pdf" "precision" "a1" false false
                  empty_server))
        = get_status other empty_server)
  /\ download_result "a1" (one_file_dir "a1_report.pptx")
       (fst (upload_pdf "report.pdf" "precision" "a1" false false
               empty_server))
     = HTTPException 400 "Processing not completed".
Proof.
  apply (upload_then_status "report.pdf" "precision" "a1" empty_server
           (one_file_dir "a1_report.pptx")).
  reflexivity.
Defined.

(** X25. After a clean-up that raised nothing the job is unknown: its
    status and a request to process it answer 404, the other jobs keep
    their records, and a second clean-up changes nothing. *)
Theorem cleanup_forgets_job (api_key job_id : string) (srv : server) :
  get_status job_id (fst (cleanup_job job_id false srv))
  = HTTPException 404 "Job not found"
  /\ snd (start_processing api_key job_id
            (fst (cleanup_job job_id false srv)))
     = HTTPException 404 "Job not found"
  /\ (forall other, other <> job_id ->
        get_status other (fst (cleanup_job job_id false srv))
        = get_status other srv)
  /\ cleanup_job job_id false (fst (cleanup_job job_id false srv))
     = (fst (cleanup_job job_id false srv), Reply "Job cleaned up").
Proof.
  unfold cleanup_job, get_status, start_processing.
  rewrite andb_false_r.
  destruct (jobs srv !! job_id) as [r|] eqn:E; cbn [fst jobs].
  - rewrite lookup_delete_eq. repeat split.
    intros other Ho. now rewrite lookup_delete_ne by congruence.
  - rewrite E. repeat split.
Qed.

(** X26. The directory of an upload whose file could not be written
    stays: the job was never recorded, so no clean-up of that id removes
    it. *)
Theorem failed_upload_leaves_directory (filename mode job_id : string)
  (rmtree_fails : bool) (srv : server) :
  str_endswith filename ".pdf" = true ->
  jobs srv !! job_id = None ->
  job_id ∈ job_dirs
    (fst (cleanup_job job_id rmtree_fails
            (fst (upload_pdf filename mode job_id false true srv))))
  /\ get_status job_id
       (fst (upload_pdf filename mode job_id false true srv))
     = HTTPException 404 "Job not found".
Proof.
  intros Hpdf Hnew. unfold upload_pdf. rewrite Hpdf. cbn [negb fst].
  unfold cleanup_job, get_status. cbn [jobs]. rewrite Hnew. cbn [fst job_dirs].
  split; [set_solver | reflexivity].
Qed.

Lemma failed_upload_leaves_directory_witness :
  "a1" ∈ job_dirs
    (fst (cleanup_job "a1" false
            (fst (upload_pdf "report.pdf" "precision" "a1" false true
                    empty_server))))
  /\ get_status "a1"
       (fst (upload_pdf "report.pdf" "precision" "a1" false true
               empty_server))
     = HTTPException 404 "Job not found".
Proof.
  apply (failed_upload_leaves_directory "report.pdf" "precision" "a1" false
           empty_server); reflexivity.
Defined.

(** X27. A request to process a known job is accepted whatever the
    job's status, also when it is running or completed: each request
    adds a background task and sets the status to processing, and two
    requests leave two tasks for the same job. *)
Theorem start_processing_twice (api_key job_id : string) (srv : server)
  (job : job_record) :
  jobs srv !! job_id = Some job ->
  api_key <> "" ->
  tasks (fst (start_processing api_key job_id
                (fst (start_processing api_key job_id srv))))
  = tasks srv ++ [job_id; job_id]
  /\ exists job',
       get_status job_id
         (fst (start_processing api_key job_id
                 (fst (start_processing api_key job_id srv))))
       = Reply job'
       /\ job_status job' = PROCESSING
       /\ job_progress job' = job_progress job
       /\ output_path job' = output_path job.
Proof.
  intros Hjob Hkey.
  assert (Hk : py_truthy (JStr api_key) = true)
    by (destruct api_key; [congruence | reflexivity]).
  assert (H1 : start_processing api_key job_id srv
               = ({| jobs := <[job_id :=
                        {| job_status := PROCESSING;
                           job_progress := job_progress job;
                           job_message := "Processing started";
                           original_filename := original_filename job;
                           job_total_pages := job_total_pages job;
                           current_page := current_page job;
                           job_mode := job_mode job;
                           output_path := output_path job;
                           output_filename := output_filename job |}]>
                        (jobs srv);
                     job_dirs := job_dirs srv;
                     tasks := tasks srv ++ [job_id] |},
                  Reply ("processing", "Processing started"))).
  { unfold start_processing. now rewrite Hjob, Hk. }
  rewrite H1. cbn [fst]. unfold start_processing, get_status. cbn [jobs].
  rewrite lookup_insert_eq, Hk. cbn [negb fst tasks jobs job_progress
    output_path]. rewrite lookup_insert_eq.
  split; [now rewrite <- app_assoc|].
  eexists. split; [reflexivity|]. repeat split.
Qed.

Lemma start_processing_twice_witness :
  tasks (fst (start_processing "key" "a1"
                (fst (start_processing "key" "a1"
                        (fst (upload_pdf "report.pdf" "precision" "a1"
                                false false empty_server))))))
  = tasks (fst (upload_pdf "report.pdf" "precision" "a1" false false
                  empty_server)) ++ ["a1"; "a1"]
  /\ exists job',
       get_status "a1"
         (fst (start_processing "key" "a1"
                 (fst (start_processing "key" "a1"
                         (fst (upload_pdf "report.pdf" "precision" "a1"
                                 false false empty_server))))))
       = Reply job'
       /\ job_status job' = PROCESSING
       /\ job_progress job' = job_progress (uploaded_record "report.pdf"
                                              "precision")
       /\ output_path job' = output_path (uploaded_record "report.pdf"
                                            "precision").
Proof.
  apply (start_processing_twice "key" "a1"
           (fst (upload_pdf "report.pdf" "precision" "a1" false false
                   empty_server))
           (uploaded_record "report.pdf" "precision")).
  - reflexivity.
  - discriminate.
Defined.

(** X28. Once a job is cleaned up, a download of its id no longer looks
    at the job: it serves the first file the output directory lists for
    the id, if that file exists. A job that was refused while it was
    unfinished is served this way as soon as such a file is there. *)
Theorem download_after_cleanup (job_id : string) (out : output_dir)
  (srv : server) (job : job_record) :
  jobs srv !! job_id = Some job ->
  download_result job_id out (fst (cleanup_job job_id false srv))
  = match glob out job_id with
    | [] => HTTPException 404
              "Job not found and no matching file in output directory"
    | p :: _ =>
        if file_exists out p then Reply (p, p)
        else HTTPException 404 "Output file not found"
    end.
Proof.
  intros Hjob. unfold cleanup_job. rewrite Hjob, andb_false_r. cbn [fst].
  unfold download_result. cbn [jobs]. rewrite lookup_delete_eq.
  destruct (glob out job_id) as [|p ps]; [reflexivity|].
  now destruct (file_exists out p).
Qed.

Lemma download_after_cleanup_witness :
  download_result "a1" (one_file_dir "a1_report.pptx")
    (fst (cleanup_job "a1" false
            (fst (upload_pdf "report.pdf" "precision" "a1" false false
                    empty_server))))
  = match glob (one_file_dir "a1_report.pptx") "a1" with
    | [] => HTTPException 404
              "Job not found and no matching file in output directory"
    | p :: _ =>
        if file_exists (one_file_dir "a1_report.pptx") p then Reply (p, p)
        else HTTPException 404 "Output file not found"
    end.
Proof.
  apply (download_after_cleanup "a1" (one_file_dir "a1_report.pptx")
           (fst (upload_pdf "report.pdf" "precision" "a1" false false
                   empty_server))
           (uploaded_record "report.pdf" "precision")).
  reflexivity.
Defined.
